(** * The Dwelo lock accessory: command reconciliation engine

    A shallow embedding of [DweloLockAccessory] (the version with the
    auto-lock timer) together with the properties of its session
    manager, watchdog, poller and auto-lock scheduler.

    The accessory is a JavaScript object living on a single event loop.
    Its [async] methods run synchronously up to their first [await]; the
    remainder runs when the awaited promise settles.  Every method is
    therefore embedded as the segment that runs up to the [await]
    (carrying the source name) and a [_resume] segment that takes the
    settled value.  The event loop itself (pending timers, fresh timer
    handles) is part of the state; calls into the transport collaborator
    and into the HomeKit characteristics are recorded as effects. *)

From Stdlib Require Import ZArith List String Ascii Bool Lia DecimalString DecimalPos.
Import ListNotations.
Local Open Scope string_scope.
Local Open Scope Z_scope.
Local Open Scope list_scope.

(** ** HomeKit constants

    The numeric values of the HAP characteristics used by the accessory
    ([api.hap.Characteristic.*]). *)

Module LockCurrentState.
Definition UNSECURED : Z := 0.
Definition SECURED : Z := 1.
Definition JAMMED : Z := 2.
Definition UNKNOWN : Z := 3.
End LockCurrentState.

Module LockTargetState.
Definition UNSECURED : Z := 0.
Definition SECURED : Z := 1.
End LockTargetState.

Module StatusLowBattery.
Definition BATTERY_LEVEL_NORMAL : Z := 0.
Definition BATTERY_LEVEL_LOW : Z := 1.
End StatusLowBattery.

(** ** JavaScript values *)

(** A JavaScript number as the accessory meets it: [NaN], or an integer.
    [Num z] stands for the double nearest to [z]; the sign of zero is
    not tracked. *)
Inductive JSNumber : Type :=
| NaN
| Num (z : Z).

(** [a > b] on numbers: any comparison with [NaN] is false. *)
Definition js_gt (a : JSNumber) (b : Z) : bool :=
  match a with
  | NaN => false
  | Num z => b <? z
  end.

(** A [CharacteristicValue] handed over by HomeKit. *)
Inductive CharacteristicValue : Type :=
| CVNumber (n : JSNumber)
| CVString (s : string)
| CVBool (b : bool).

(** [value === n] for a numeric constant [n]. *)
Definition cv_is (value : CharacteristicValue) (n : Z) : bool :=
  match value with
  | CVNumber (Num z) => z =? n
  | _ => false
  end.

(** *** [parseInt(s, 10)]

    Characters are the code units below 256.  Leading white space is
    skipped, one sign is accepted, then the longest run of decimal
    digits is read; no digit at all gives [NaN]. *)

Definition is_white_space (c : ascii) : bool :=
  let n := nat_of_ascii c in
  (Nat.eqb n 9 || Nat.eqb n 10 || Nat.eqb n 11 || Nat.eqb n 12
   || Nat.eqb n 13 || Nat.eqb n 32 || Nat.eqb n 160)%bool.

Definition digit_of (c : ascii) : option Z :=
  let n := nat_of_ascii c in
  if (Nat.leb 48 n && Nat.leb n 57)%bool then Some (Z.of_nat n - 48) else None.

Fixpoint skip_white_space (s : string) : string :=
  match s with
  | String c rest => if is_white_space c then skip_white_space rest else s
  | EmptyString => s
  end.

(** Reads the leading digits of [s] onto the accumulator [acc];
    [seen] tells whether a digit was read already. *)
Fixpoint read_digits (s : string) (seen : bool) (acc : Z) : JSNumber :=
  match s with
  | String c rest =>
      match digit_of c with
      | Some d => read_digits rest true (10 * acc + d)
      | None => if seen then Num acc else NaN
      end
  | EmptyString => if seen then Num acc else NaN
  end.

Definition js_neg (a : JSNumber) : JSNumber :=
  match a with
  | NaN => NaN
  | Num z => Num (- z)
  end.

Definition parseInt (s : string) : JSNumber :=
  match skip_white_space s with
  | String "-" rest => js_neg (read_digits rest false 0)
  | String "+" rest => read_digits rest false 0
  | t => read_digits t false 0
  end.

(** ** The transport collaborator's data (DweloAPI.ts) *)

Record Sensor : Type := mkSensor {
  deviceId : Z;
  gatewayId : Z;
  sensorType : string;
  timeIssued : string;
  uid : Z;
  value : string
}.

(** An awaited promise once settled. *)
Inductive Settled (A : Type) : Type :=
| Resolved (a : A)
| Rejected (err : string).
Arguments Resolved {A} a.
Arguments Rejected {A} err.

(** [sensors.find(s => s.sensorType === kind)] *)
Definition find_sensor (kind : string) (sensors : list Sensor) : option Sensor :=
  find (fun s => String.eqb (sensorType s) kind) sensors.

(** ** The transport (DweloAPI.ts)

    The methods of [DweloAPI] up to their [await]: the request each one
    hands to [axios]. *)

(** The decimal digits of an integer, with a minus sign when negative. *)
Definition decimal_text (n : Z) : string :=
  NilZero.string_of_int (Z.to_int n).

(** The text JavaScript gives a number inside a template literal is a
    built-in of the language; the methods below take it as [text].  All
    that is known of it here is that a safe integer (of magnitude below
    2^53, where an integer is a number of its own) is printed as its
    decimal digits. *)
Definition prints_safe_integers (text : Z -> string) : Prop :=
  forall n, Z.abs n < 2 ^ 53 -> text n = decimal_text n.

(** A plain object with string values, keys in insertion order. *)
Definition JSObject := list (string * string).

Fixpoint obj_get (k : string) (o : JSObject) : option string :=
  match o with
  | [] => None
  | (k', v) :: rest => if String.eqb k' k then Some v else obj_get k rest
  end.

(** [{...o, k: v}]: an existing key keeps its place and takes the new
    value, a new key goes last. *)
Fixpoint obj_set (k v : string) (o : JSObject) : JSObject :=
  match o with
  | [] => [(k, v)]
  | (k', v') :: rest =>
      if String.eqb k' k then (k, v) :: rest else (k', v') :: obj_set k v rest
  end.

(** [{...o}] of an object that may be [undefined]. *)
Definition obj_spread (o : option JSObject) : JSObject :=
  match o with
  | Some fields => fields
  | None => []
  end.

Inductive ParamValue : Type :=
| PString (s : string)
| PNumber (n : Z).

(** The second argument of [request]; the default [{}] leaves every
    field [undefined]. *)
Record RequestOptions : Type := mkOptions {
  opt_headers : option JSObject;
  opt_method : option string;
  opt_data : option JSObject;
  opt_params : option (list (string * ParamValue))
}.

Definition no_options : RequestOptions := mkOptions None None None None.

(** The configuration [request] passes to [axios]. *)
Record AxiosRequest : Type := mkRequest {
  req_url : string;
  req_method : string;
  req_params : option (list (string * ParamValue));
  req_data : option JSObject;
  req_headers : JSObject
}.

Record DweloAPI : Type := mkDweloAPI {
  token : string;
  gatewayID : string
}.

Definition request (api : DweloAPI) (path : string) (opts : RequestOptions) : AxiosRequest :=
  mkRequest
    ("https://api.dwelo.com" ++ path)%string
    (match opt_method opts with Some m => m | None => "GET" end)
    (opt_params opts)
    (opt_data opts)
    (obj_set "Authorization" ("Token " ++ token api ++ " ")%string
       (obj_spread (opt_headers opts))).

Definition devices (api : DweloAPI) : AxiosRequest :=
  request api "/v3/device"
    (mkOptions None None None
       (Some [("gatewayId", PString (gatewayID api));
              ("limit", PNumber 5000);
              ("offset", PNumber 0)])).

Definition sensors (api : DweloAPI) (deviceId : Z) : AxiosRequest :=
  request api ("/v3/sensor/gateway/" ++ gatewayID api ++ "/")%string
    (mkOptions None None None (Some [("deviceId", PNumber deviceId)])).

Definition toggleSwitch (text : Z -> string) (api : DweloAPI) (on : bool) (id : Z)
    : AxiosRequest :=
  request api ("/v3/device/" ++ text id ++ "/command/")%string
    (mkOptions None (Some "POST")
       (Some [("command", if on then "on" else "off")]) None).

Definition toggleLock (text : Z -> string) (api : DweloAPI) (locked : bool) (id : Z)
    : AxiosRequest :=
  request api ("/v3/device/" ++ text id ++ "/command/")%string
    (mkOptions None (Some "POST")
       (Some [("command", if locked then "lock" else "unlock")]) None).

(** ** State Translator *)

Definition toLockState (sensors : list Sensor) : Z :=
  match find_sensor "lock" sensors with
  | None => LockCurrentState.UNKNOWN
  | Some lockSensor =>
      if String.eqb (value lockSensor) "locked"
      then LockCurrentState.SECURED
      else LockCurrentState.UNSECURED
  end.

(** ** The accessory and its event loop *)

Definition Handle := nat.

(** What a pending timer runs when it fires. *)
Inductive Callback : Type :=
| PollCb       (* [() => this.poll()] of the constructor's [setInterval] *)
| WatchdogCb   (* the closure of [startWatchdog] *)
| AutoLockCb.  (* the closure of [startAutoLockTimer] *)

Record Timer : Type := mkTimer {
  handle : Handle;
  callback : Callback;
  delay : Z;         (* milliseconds *)
  repeat : bool      (* [setInterval] rather than [setTimeout] *)
}.

(** The private fields of [DweloLockAccessory], then the part of the
    event loop they refer to: the timers that are still pending and the
    next fresh handle. *)
Record Accessory : Type := mkAccessory {
  inFlight : bool;
  desiredTarget : option Z;
  pollTimer : option Handle;
  watchdog : option Handle;
  autoLockTimer : option Handle;
  timers : list Timer;
  nextHandle : Handle
}.

Inductive Level : Type := Debug | Info | Warn.

Inductive Message : Type :=
| MsgCurrentState (state : Z)
| MsgCoalescing (target : Z)
| MsgSetting (target : Z)
| MsgBattery (level : JSNumber)
| MsgCommandFailed (err : string)
| MsgToggleCompleted
| MsgFetchFailed (err : string)
| MsgAutoLockElapsed
| MsgAutoLockFailed (err : string)
| MsgAutoLockScheduled
| MsgWatchdogExpired.

Inductive CharacteristicId : Type :=
| LockCurrentStateC
| LockTargetStateC
| BatteryLevelC
| StatusLowBatteryC.

(** Which suspended method a [dweloAPI.sensors] call resumes. *)
Inductive Awaiter : Type :=
| InPoll
| InGetLockState            (* the LockCurrentState get handler *)
| InGetTargetLockState      (* [getLockState] under [getTargetLockState] *)
| InReconcile.              (* [getLockState] under [reconcileTargetWithCurrent] *)

(** Calls that leave the accessory. *)
Inductive Effect : Type :=
| Log (lvl : Level) (msg : Message)
| UpdateValue (c : CharacteristicId) (v : JSNumber)
| CallSensors (lockID : Z) (k : Awaiter)
| CallToggleLock (locked : bool) (lockID : Z).

(** *** A state, output and exception monad *)

Inductive Outcome (A : Type) : Type :=
| Returned (a : A)
| Thrown (err : string).
Arguments Returned {A} a.
Arguments Thrown {A} err.

Definition M (A : Type) : Type := Accessory -> Outcome A * Accessory * list Effect.

Definition ret {A} (a : A) : M A := fun st => (Returned a, st, []).

Definition bind {A B} (m : M A) (f : A -> M B) : M B :=
  fun st =>
    match m st with
    | (Returned a, st1, out1) =>
        match f a st1 with
        | (o, st2, out2) => (o, st2, out1 ++ out2)
        end
    | (Thrown err, st1, out1) => (Thrown err, st1, out1)
    end.

Definition throw {A} (err : string) : M A := fun st => (Thrown err, st, []).

(** [try { m } catch (e) { h e }] *)
Definition try_catch {A} (m : M A) (h : string -> M A) : M A :=
  fun st =>
    match m st with
    | (Returned a, st1, out1) => (Returned a, st1, out1)
    | (Thrown err, st1, out1) =>
        match h err st1 with
        | (o, st2, out2) => (o, st2, out1 ++ out2)
        end
    end.

Definition get : M Accessory := fun st => (Returned st, st, []).
Definition modify (f : Accessory -> Accessory) : M unit := fun st => (Returned tt, f st, []).
Definition emit (e : Effect) : M unit := fun st => (Returned tt, st, [e]).
Definition log (lvl : Level) (msg : Message) : M unit := emit (Log lvl msg).

(** The value of an [await] once the promise has settled. *)
Definition await {A} (r : Settled A) : M A :=
  match r with
  | Resolved a => ret a
  | Rejected err => throw err
  end.

Declare Scope accessory_scope.
Delimit Scope accessory_scope with acc.
Notation "x <- m ;; k" := (bind m (fun x => k))
  (at level 61, m at next level, right associativity) : accessory_scope.
Notation "m ;; k" := (bind m (fun _ => k))
  (at level 61, right associativity) : accessory_scope.
Local Open Scope accessory_scope.

(** *** Field assignments *)

Definition set_inFlight (b : bool) (st : Accessory) : Accessory :=
  mkAccessory b (desiredTarget st) (pollTimer st) (watchdog st)
    (autoLockTimer st) (timers st) (nextHandle st).

Definition set_desiredTarget (t : option Z) (st : Accessory) : Accessory :=
  mkAccessory (inFlight st) t (pollTimer st) (watchdog st)
    (autoLockTimer st) (timers st) (nextHandle st).

Definition set_watchdog (h : option Handle) (st : Accessory) : Accessory :=
  mkAccessory (inFlight st) (desiredTarget st) (pollTimer st) h
    (autoLockTimer st) (timers st) (nextHandle st).

Definition set_autoLockTimer (h : option Handle) (st : Accessory) : Accessory :=
  mkAccessory (inFlight st) (desiredTarget st) (pollTimer st) (watchdog st)
    h (timers st) (nextHandle st).

Definition set_timers (ts : list Timer) (st : Accessory) : Accessory :=
  mkAccessory (inFlight st) (desiredTarget st) (pollTimer st) (watchdog st)
    (autoLockTimer st) ts (nextHandle st).

Definition set_nextHandle (n : Handle) (st : Accessory) : Accessory :=
  mkAccessory (inFlight st) (desiredTarget st) (pollTimer st) (watchdog st)
    (autoLockTimer st) (timers st) n.

(** *** Timers of the event loop *)

(** [setTimeout(cb, ms)]: a fresh handle, pending until fired or cleared. *)
Definition setTimeout (cb : Callback) (ms : Z) : M Handle :=
  st <- get ;;
  let h := nextHandle st in
  modify (set_timers (timers st ++ [mkTimer h cb ms false])) ;;
  modify (set_nextHandle (S h)) ;;
  ret h.

(** [clearTimeout(h)]: no effect on a timer that fired or was cleared. *)
Definition clearTimeout (h : Handle) : M unit :=
  modify (fun st => set_timers (filter (fun t => negb (Nat.eqb (handle t) h)) (timers st)) st).

Definition is_watchdog (t : Timer) : bool :=
  match callback t with WatchdogCb => true | _ => false end.

Definition is_autoLock (t : Timer) : bool :=
  match callback t with AutoLockCb => true | _ => false end.

Definition is_poll (t : Timer) : bool :=
  match callback t with PollCb => true | _ => false end.

(** A timer is armed when the event loop still holds one with its
    callback, whatever the handle stored in the accessory. *)
Definition watchdogArmed (st : Accessory) : bool := existsb is_watchdog (timers st).
Definition autoLockArmed (st : Accessory) : bool := existsb is_autoLock (timers st).
Definition pollArmed (st : Accessory) : bool := existsb is_poll (timers st).

(** ** DweloLockAccessory *)

(** The constructor's configuration.  The two durations are JavaScript
    numbers; they are taken to be integers here (only their sign and
    their products with constants matter to the accessory). *)
Record Config : Type := mkConfig {
  lockPollMs : Z;
  autoLockMinutes : Z;
  name : string;
  lockID : Z
}.

(** [(value === T.SECURED) ? T.SECURED : T.UNSECURED], the target that
    [setTargetLockState] reads off the value it is given. *)
Definition requested (v : CharacteristicValue) : Z :=
  if cv_is v LockTargetState.SECURED
  then LockTargetState.SECURED
  else LockTargetState.UNSECURED.

(** The current state a target stands for (the [desiredState] of [poll]). *)
Definition implied (target : Z) : Z :=
  if target =? LockTargetState.SECURED
  then LockCurrentState.SECURED
  else LockCurrentState.UNSECURED.

(** The target a current state is mapped to (in [getTargetLockState] and
    in [reconcileTargetWithCurrent]). *)
Definition target_of_current (state : Z) : Z :=
  if state =? LockCurrentState.SECURED
  then LockTargetState.SECURED
  else LockTargetState.UNSECURED.

Section DweloLockAccessory.

Variable cfg : Config.

(** The constructor: fields at their initial values, the poll interval
    registered with the event loop. *)
Definition new_accessory : Accessory :=
  mkAccessory false None (Some 0%nat) None None
    [mkTimer 0%nat PollCb (lockPollMs cfg) true] 1%nat.

Definition setBatteryLevel (sensors : list Sensor) : M unit :=
  match find_sensor "battery" sensors with
  | None => ret tt
  | Some batterySensor =>
      let batteryLevel := parseInt (value batterySensor) in
      let batteryStatus :=
        if js_gt batteryLevel 20
        then StatusLowBattery.BATTERY_LEVEL_NORMAL
        else StatusLowBattery.BATTERY_LEVEL_LOW in
      emit (UpdateValue BatteryLevelC batteryLevel) ;;
      emit (UpdateValue StatusLowBatteryC (Num batteryStatus)) ;;
      log Info (MsgBattery batteryLevel)
  end.

(** [getLockState] up to [await this.dweloAPI.sensors(this.lockID)]. *)
Definition getLockState (k : Awaiter) : M unit :=
  emit (CallSensors (lockID cfg) k).

Definition getLockState_resume (r : Settled (list Sensor)) : M Z :=
  sensors <- await r ;;
  let state := toLockState sensors in
  setBatteryLevel sensors ;;
  log Debug (MsgCurrentState state) ;;
  ret state.

(** [getTargetLockState]: the cached target when there is one ([Some]),
    else suspended in [getLockState] ([None]). *)
Definition getTargetLockState : M (option Z) :=
  st <- get ;;
  match desiredTarget st with
  | Some t => ret (Some t)
  | None => getLockState InGetTargetLockState ;; ret None
  end.

Definition getTargetLockState_resume (r : Settled (list Sensor)) : M Z :=
  cur <- getLockState_resume r ;;
  ret (target_of_current cur).

(** [reconcileTargetWithCurrent] up to [await this.getLockState()]. *)
Definition reconcileTargetWithCurrent : M unit :=
  getLockState InReconcile.

Definition reconcileTargetWithCurrent_resume (r : Settled (list Sensor)) : M unit :=
  currentState <- getLockState_resume r ;;
  let t := target_of_current currentState in
  modify (set_desiredTarget (Some t)) ;;
  emit (UpdateValue LockTargetStateC (Num t)).

(** [sendLockCommand] up to [await this.dweloAPI.toggleLock(...)]. *)
Definition sendLockCommand (target : Z) : M unit :=
  let desired := target =? LockTargetState.SECURED in
  emit (CallToggleLock desired (lockID cfg)).

(** The rest of [sendLockCommand]: nothing on success, the [catch]
    block (up to the [await] inside the reconciliation) on failure. *)
Definition sendLockCommand_resume (r : Settled unit) : M unit :=
  try_catch (await r)
    (fun err =>
       log Warn (MsgCommandFailed err) ;;
       modify (set_inFlight false) ;;
       reconcileTargetWithCurrent).

Definition startWatchdog : M unit :=
  st <- get ;;
  match watchdog st with
  | Some h => clearTimeout h
  | None => ret tt
  end ;;
  h <- setTimeout WatchdogCb (2 * lockPollMs cfg) ;;
  modify (set_watchdog (Some h)).

(** The closure armed by [startWatchdog], up to the [await]. *)
Definition watchdog_callback : M unit :=
  log Warn MsgWatchdogExpired ;;
  modify (set_inFlight false) ;;
  reconcileTargetWithCurrent.

Definition setTargetLockState (v : CharacteristicValue) : M unit :=
  let target := requested v in
  st <- get ;;
  if (inFlight st &&
      match desiredTarget st with Some d => d =? target | None => false end)%bool
  then log Debug (MsgCoalescing target)
  else
    modify (set_desiredTarget (Some target)) ;;
    emit (UpdateValue LockTargetStateC (Num target)) ;;
    log Info (MsgSetting target) ;;
    st <- get ;;
    if negb (inFlight st)
    then
      modify (set_inFlight true) ;;
      sendLockCommand target ;;
      startWatchdog
    else ret tt.

Definition startAutoLockTimer : M unit :=
  if autoLockMinutes cfg <=? 0 then ret tt
  else
    st <- get ;;
    match autoLockTimer st with
    | Some h => clearTimeout h
    | None => ret tt
    end ;;
    h <- setTimeout AutoLockCb (autoLockMinutes cfg * 60 * 1000) ;;
    modify (set_autoLockTimer (Some h)) ;;
    log Info MsgAutoLockScheduled.

(** The closure armed by [startAutoLockTimer]. *)
Definition autoLock_callback : M unit :=
  log Info MsgAutoLockElapsed ;;
  try_catch
    (setTargetLockState (CVNumber (Num LockTargetState.SECURED)))
    (fun e => log Warn (MsgAutoLockFailed e)).

Definition cancelAutoLockTimer : M unit :=
  st <- get ;;
  match autoLockTimer st with
  | Some h => clearTimeout h ;; modify (set_autoLockTimer None)
  | None => ret tt
  end.

(** [poll] up to [await this.dweloAPI.sensors(this.lockID)]. *)
Definition poll : M unit :=
  emit (CallSensors (lockID cfg) InPoll).

(** The first block of [poll]'s body: "Maintain auto-lock timer based
    on current state". *)
Definition maintainAutoLock (currentState : Z) : M unit :=
  if currentState =? LockCurrentState.UNSECURED then
    st <- get ;;
    match autoLockTimer st with
    | None => startAutoLockTimer
    | Some _ => ret tt
    end
  else if currentState =? LockCurrentState.SECURED then
    cancelAutoLockTimer
  else ret tt.

(** The second block of [poll]'s body: the completion check of the
    session in flight. *)
Definition completionCheck (currentState : Z) : M unit :=
  st <- get ;;
  match inFlight st, desiredTarget st with
  | true, Some d =>
      let desiredState := implied d in
      if currentState =? desiredState then
        modify (set_inFlight false) ;;
        st <- get ;;
        match watchdog st with
        | Some h => clearTimeout h
        | None => ret tt
        end ;;
        log Info MsgToggleCompleted
      else ret tt
  | _, _ => ret tt
  end.

Definition poll_resume (r : Settled (list Sensor)) : M unit :=
  try_catch
    (sensors <- await r ;;
     let currentState := toLockState sensors in
     setBatteryLevel sensors ;;
     emit (UpdateValue LockCurrentStateC (Num currentState)) ;;
     maintainAutoLock currentState ;;
     completionCheck currentState)
    (fun e => log Warn (MsgFetchFailed e)).

(** *** The event loop *)

(** The tasks the event loop can run on the accessory.  Which promises
    are outstanding is not tracked: a settle event is accepted in every
    state, so the runs below include every run of the program. *)
Inductive Event : Type :=
| OnGetLockCurrentState                      (* HomeKit reads the current state *)
| OnGetLockTargetState                       (* HomeKit reads the target state *)
| OnSetLockTargetState (v : CharacteristicValue)
| TimerFired (h : Handle)
| SensorsSettled (k : Awaiter) (r : Settled (list Sensor))
| ToggleLockSettled (r : Settled unit).

Definition run_callback (cb : Callback) : M unit :=
  match cb with
  | PollCb => poll
  | WatchdogCb => watchdog_callback
  | AutoLockCb => autoLock_callback
  end.

(** A pending timer fires: a one-shot timer leaves the event loop, then
    its callback runs.  A handle that is not pending fires nothing. *)
Definition fire (h : Handle) : M unit :=
  st <- get ;;
  match find (fun t => Nat.eqb (handle t) h) (timers st) with
  | None => ret tt
  | Some t =>
      (if repeat t then ret tt else clearTimeout h) ;;
      run_callback (callback t)
  end.

Definition handle_event (ev : Event) : M unit :=
  match ev with
  | OnGetLockCurrentState => getLockState InGetLockState
  | OnGetLockTargetState => getTargetLockState ;; ret tt
  | OnSetLockTargetState v => setTargetLockState v
  | TimerFired h => fire h
  | SensorsSettled InPoll r => poll_resume r
  | SensorsSettled InGetLockState r => getLockState_resume r ;; ret tt
  | SensorsSettled InGetTargetLockState r => getTargetLockState_resume r ;; ret tt
  | SensorsSettled InReconcile r => reconcileTargetWithCurrent_resume r
  | ToggleLockSettled r => sendLockCommand_resume r
  end.

(** One task of the event loop: the state it leaves and what it emitted. *)
Definition step (st : Accessory) (ev : Event) : Accessory :=
  snd (fst (handle_event ev st)).

Definition output (st : Accessory) (ev : Event) : list Effect :=
  snd (handle_event ev st).

Definition run (evs : list Event) (st : Accessory) : Accessory :=
  fold_left step evs st.

(** Everything emitted along a run, in order. *)
Fixpoint trace (evs : list Event) (st : Accessory) : list Effect :=
  match evs with
  | [] => []
  | ev :: rest => output st ev ++ trace rest (step st ev)
  end.

Definition is_dispatch (e : Effect) : bool :=
  match e with CallToggleLock _ _ => true | _ => false end.

(** How many commands went to the transport collaborator. *)
Definition dispatches (out : list Effect) : nat :=
  List.length (filter is_dispatch out).

End DweloLockAccessory.

(** ** Vocabulary of the properties *)

(** The three components of running a computation from a state. *)
Definition outcome {A} (m : M A) (st : Accessory) : Outcome A := fst (fst (m st)).
Definition exec {A} (m : M A) (st : Accessory) : Accessory := snd (fst (m st)).
Definition emitted {A} (m : M A) (st : Accessory) : list Effect := snd (m st).

(** The pending timers once the handle stored in a field, if any, is cleared. *)
Definition without (o : option Handle) (ts : list Timer) : list Timer :=
  match o with
  | Some h => filter (fun t => negb (Nat.eqb (handle t) h)) ts
  | None => ts
  end.

Definition older (o : option Handle) (n : Handle) : Prop :=
  match o with
  | Some h => (h < n)%nat
  | None => True
  end.

(** A pending timer is known to the accessory: the poll interval is the
    constructor's, a watchdog or auto-lock timer is the one whose handle
    the matching field stores. *)
Definition owned (st : Accessory) (t : Timer) : Prop :=
  (handle t < nextHandle st)%nat /\
  match callback t with
  | PollCb => handle t = 0%nat /\ repeat t = true
  | WatchdogCb => watchdog st = Some (handle t) /\ repeat t = false
  | AutoLockCb => autoLockTimer st = Some (handle t) /\ repeat t = false
  end.

(** The bookkeeping of timer handles that every state of the accessory
    satisfies. *)
Record WF (st : Accessory) : Prop := mkWF {
  wf_owned : Forall (owned st) (timers st);
  wf_watchdog_older : older (watchdog st) (nextHandle st);
  wf_autoLock_older : older (autoLockTimer st) (nextHandle st);
  wf_watchdog_pos : watchdog st <> Some 0%nat;
  wf_autoLock_pos : autoLockTimer st <> Some 0%nat;
  wf_distinct : forall h, watchdog st = Some h -> autoLockTimer st <> Some h;
  wf_poll : pollArmed st = true
}.

(** The lock state a poll observed, for the events that complete a poll. *)
Definition polled (ev : Event) : option Z :=
  match ev with
  | SensorsSettled InPoll (Resolved sensors) => Some (toLockState sensors)
  | _ => None
  end.

Definition polled_is (state : Z) (ev : Event) : bool :=
  match polled ev with
  | Some c => c =? state
  | None => false
  end.



Definition is_battery_update (e : Effect) : bool :=
  match e with
  | UpdateValue BatteryLevelC _ => true
  | UpdateValue StatusLowBatteryC _ => true
  | _ => false
  end.

Definition is_failure_log (e : Effect) : bool :=
  match e with
  | Log Warn _ => true
  | _ => false
  end.

Definition not_battery (s : Sensor) : bool :=
  negb (String.eqb (sensorType s) "battery").

(** A session in flight has its watchdog pending. *)
Definition session_guarded (st : Accessory) : Prop :=
  inFlight st = true -> watchdogArmed st = true.

(** Every pending auto-lock timer of [st'] was already pending in [st]. *)
Definition no_new_autoLock (st st' : Accessory) : Prop :=
  forall t, In t (timers st') -> is_autoLock t = true -> In t (timers st).

(** The log line with which the auto-lock callback announces a relock. *)
Definition relock_attempt : Effect := Log Info MsgAutoLockElapsed.

(** A computation that never announces a relock attempt. *)
Definition quiet {A} (m : M A) : Prop :=
  forall st, ~ In relock_attempt (emitted m st).

(** A computation none of whose effects satisfies [p]. *)
Definition never (p : Effect -> bool) {A} (m : M A) : Prop :=
  forall st e, In e (emitted m st) -> p e = false.

(** The two values a target state takes. *)
Definition is_target (d : Z) : Prop :=
  d = LockTargetState.SECURED \/ d = LockTargetState.UNSECURED.

(** The session has a well-formed target. *)
Definition session_targeted (st : Accessory) : Prop :=
  (inFlight st = true -> desiredTarget st <> None) /\
  (forall d, desiredTarget st = Some d -> is_target d).

(** The requests that reach [axios] when the calls recorded in [out] go
    through [api]. *)
Fixpoint http_requests (text : Z -> string) (api : DweloAPI) (out : list Effect)
    : list AxiosRequest :=
  match out with
  | [] => []
  | CallSensors id _ :: rest => sensors api id :: http_requests text api rest
  | CallToggleLock locked id :: rest =>
      toggleLock text api locked id :: http_requests text api rest
  | _ :: rest => http_requests text api rest
  end.

(** The pending timers have distinct handles and the only poll timer is
    the interval the constructor registered. *)
Definition tidy (cfg : Config) (st : Accessory) : Prop :=
  NoDup (map handle (timers st)) /\
  filter is_poll (timers st) = [mkTimer 0%nat PollCb (lockPollMs cfg) true].

(** A call to the transport for a device other than the accessory's lock. *)
Definition foreign (cfg : Config) (e : Effect) : bool :=
  match e with
  | CallSensors id _ => negb (id =? lockID cfg)
  | CallToggleLock _ id => negb (id =? lockID cfg)
  | _ => false
  end.

Definition is_current_update (e : Effect) : bool :=
  match e with
  | UpdateValue LockCurrentStateC _ => true
  | _ => false
  end.

Definition is_target_update (e : Effect) : bool :=
  match e with
  | UpdateValue LockTargetStateC _ => true
  | _ => false
  end.

(** The target-state attribute written in [out] agrees with the
    desiredTarget of [st'], and is written when that differs from [st]'s. *)
Definition mirrors (st st' : Accessory) (out : list Effect) : Prop :=
  (forall v, In (UpdateValue LockTargetStateC v) out ->
             exists d, desiredTarget st' = Some d /\ v = Num d) /\
  (desiredTarget st' <> desiredTarget st ->
   exists d, desiredTarget st' = Some d /\ In (UpdateValue LockTargetStateC (Num d)) out).

(** Sample data for the concrete runs below. *)
Definition sample_config : Config := mkConfig 5000 1 "Front Door" 42.

Definition lock_reading (v : string) : Sensor :=
  mkSensor 42 7 "lock" "2024-05-01T10:00:00Z" 1001 v.

Definition battery_reading (v : string) : Sensor :=
  mkSensor 42 7 "battery" "2024-05-01T10:00:00Z" 1002 v.

Definition sample_api : DweloAPI := mkDweloAPI "s3cr3t" "gw-17".

Definition secured : CharacteristicValue := CVNumber (Num LockTargetState.SECURED).
Definition unsecured : CharacteristicValue := CVNumber (Num LockTargetState.UNSECURED).

(** The event that completes a poll with the given readings. *)
Definition poll_done (sensors : list Sensor) : Event :=
  SensorsSettled InPoll (Resolved sensors).

(** ** Running the monad *)

Lemma exec_bind {A B} (m : M A) (f : A -> M B) st a :
  outcome m st = Returned a ->
  exec (bind m f) st = exec (f a) (exec m st).
Proof.
  unfold outcome, exec, bind. destruct (m st) as [[o st1] out1]. cbn.
  intros ->. destruct (f a st1) as [[o2 st2] out2]. reflexivity.
Qed.

Lemma outcome_bind {A B} (m : M A) (f : A -> M B) st a :
  outcome m st = Returned a ->
  outcome (bind m f) st = outcome (f a) (exec m st).
Proof.
  unfold outcome, exec, bind. destruct (m st) as [[o st1] out1]. cbn.
  intros ->. destruct (f a st1) as [[o2 st2] out2]. reflexivity.
Qed.

Lemma emitted_bind {A B} (m : M A) (f : A -> M B) st a :
  outcome m st = Returned a ->
  emitted (bind m f) st = emitted m st ++ emitted (f a) (exec m st).
Proof.
  unfold outcome, exec, emitted, bind. destruct (m st) as [[o st1] out1]. cbn.
  intros ->. destruct (f a st1) as [[o2 st2] out2]. reflexivity.
Qed.

Ltac unfold_m :=
  unfold log, emit, modify, get, bind, ret, throw, await, try_catch.

(** ** What each method does to the state *)

Section Methods.

Variable cfg : Config.

Lemma setBatteryLevel_eq sensors st :
  setBatteryLevel sensors st = (Returned tt, st, emitted (setBatteryLevel sensors) st).
Proof.
  unfold emitted, setBatteryLevel. unfold_m.
  destruct (find_sensor "battery" sensors); reflexivity.
Qed.

Lemma setBatteryLevel_outcome sensors st :
  outcome (setBatteryLevel sensors) st = Returned tt.
Proof. unfold outcome. rewrite setBatteryLevel_eq. reflexivity. Qed.

Lemma setBatteryLevel_exec sensors st :
  exec (setBatteryLevel sensors) st = st.
Proof. unfold exec. rewrite setBatteryLevel_eq. reflexivity. Qed.

Lemma startWatchdog_eq st :
  startWatchdog cfg st =
  (Returned tt,
   mkAccessory (inFlight st) (desiredTarget st) (pollTimer st)
     (Some (nextHandle st)) (autoLockTimer st)
     (without (watchdog st) (timers st)
        ++ [mkTimer (nextHandle st) WatchdogCb (2 * lockPollMs cfg) false])
     (S (nextHandle st)),
   []).
Proof.
  unfold startWatchdog, setTimeout, clearTimeout. unfold_m.
  destruct (watchdog st); reflexivity.
Qed.

Lemma startAutoLockTimer_eq st :
  startAutoLockTimer cfg st =
  if autoLockMinutes cfg <=? 0 then (Returned tt, st, [])
  else
    (Returned tt,
     mkAccessory (inFlight st) (desiredTarget st) (pollTimer st)
       (watchdog st) (Some (nextHandle st))
       (without (autoLockTimer st) (timers st)
          ++ [mkTimer (nextHandle st) AutoLockCb (autoLockMinutes cfg * 60 * 1000) false])
       (S (nextHandle st)),
     [Log Info MsgAutoLockScheduled]).
Proof.
  unfold startAutoLockTimer, setTimeout, clearTimeout. unfold_m.
  destruct (autoLockMinutes cfg <=? 0); [reflexivity|].
  destruct (autoLockTimer st); reflexivity.
Qed.

Lemma cancelAutoLockTimer_eq st :
  cancelAutoLockTimer st =
  (Returned tt,
   mkAccessory (inFlight st) (desiredTarget st) (pollTimer st)
     (watchdog st) None (without (autoLockTimer st) (timers st)) (nextHandle st),
   []).
Proof.
  unfold cancelAutoLockTimer, clearTimeout. unfold_m.
  destruct st as [f d p w a ts n]; destruct a; reflexivity.
Qed.

Lemma maintainAutoLock_outcome c st :
  outcome (maintainAutoLock cfg c) st = Returned tt.
Proof.
  unfold outcome, maintainAutoLock.
  destruct (c =? LockCurrentState.UNSECURED).
  - unfold bind, get. destruct (autoLockTimer st).
    + reflexivity.
    + rewrite startAutoLockTimer_eq. destruct (autoLockMinutes cfg <=? 0); reflexivity.
  - destruct (c =? LockCurrentState.SECURED).
    + rewrite cancelAutoLockTimer_eq. reflexivity.
    + reflexivity.
Qed.

Lemma completionCheck_eq c st :
  completionCheck c st =
  if (inFlight st &&
      match desiredTarget st with Some d => c =? implied d | None => false end)%bool
  then
    (Returned tt,
     mkAccessory false (desiredTarget st) (pollTimer st) (watchdog st)
       (autoLockTimer st) (without (watchdog st) (timers st)) (nextHandle st),
     [Log Info MsgToggleCompleted])
  else (Returned tt, st, []).
Proof.
  unfold completionCheck, clearTimeout. unfold_m.
  destruct st as [f d p w a ts n]; cbn.
  destruct f; cbn; [|reflexivity].
  destruct d as [d|]; cbn; [|reflexivity].
  destruct (c =? implied d); [|reflexivity].
  destruct w; reflexivity.
Qed.

Lemma completionCheck_outcome c st :
  outcome (completionCheck c) st = Returned tt.
Proof.
  unfold outcome. rewrite completionCheck_eq.
  destruct (_ && _)%bool; reflexivity.
Qed.

Lemma setTargetLockState_eq v st :
  setTargetLockState cfg v st =
  let target := requested v in
  if (inFlight st &&
      match desiredTarget st with Some d => d =? target | None => false end)%bool
  then (Returned tt, st, [Log Debug (MsgCoalescing target)])
  else if inFlight st
  then (Returned tt, set_desiredTarget (Some target) st,
        [UpdateValue LockTargetStateC (Num target); Log Info (MsgSetting target)])
  else
    (Returned tt,
     mkAccessory true (Some target) (pollTimer st)
       (Some (nextHandle st)) (autoLockTimer st)
       (without (watchdog st) (timers st)
          ++ [mkTimer (nextHandle st) WatchdogCb (2 * lockPollMs cfg) false])
       (S (nextHandle st)),
     [UpdateValue LockTargetStateC (Num target); Log Info (MsgSetting target);
      CallToggleLock (target =? LockTargetState.SECURED) (lockID cfg)]).
Proof.
  unfold setTargetLockState. cbv zeta.
  unfold bind at 1. unfold get at 1.
  destruct (inFlight st && _)%bool eqn:Hdup; [reflexivity|].
  unfold sendLockCommand. unfold_m. cbn -[startWatchdog].
  destruct (inFlight st) eqn:Hf; cbn -[startWatchdog]; [reflexivity|].
  rewrite startWatchdog_eq. cbn. reflexivity.
Qed.

Lemma setTargetLockState_outcome v st :
  outcome (setTargetLockState cfg v) st = Returned tt.
Proof.
  unfold outcome. rewrite setTargetLockState_eq. cbv zeta.
  destruct (_ && _)%bool; [reflexivity|]. destruct (inFlight st); reflexivity.
Qed.

End Methods.

(** ** The handle bookkeeping is an invariant *)

Lemma in_without h o ts t :
  In t (without o ts) -> o = Some h -> In t ts /\ handle t <> h.
Proof.
  intros Hin ->. cbn in Hin. apply filter_In in Hin. destruct Hin as [Hin Hne].
  split; [exact Hin|]. intros Heq. apply Nat.eqb_eq in Heq. rewrite Heq in Hne. discriminate.
Qed.

Lemma in_without_in o ts t : In t (without o ts) -> In t ts.
Proof.
  destruct o as [h|]; cbn; [|tauto]. intros Hin. apply filter_In in Hin. tauto.
Qed.

Lemma without_keeps o ts t :
  In t ts -> (forall h, o = Some h -> handle t <> h) -> In t (without o ts).
Proof.
  intros Hin Hne. destruct o as [h|]; cbn; [|exact Hin].
  apply filter_In. split; [exact Hin|].
  apply negb_true_iff, Nat.eqb_neq. apply Hne. reflexivity.
Qed.

Lemma existsb_poll_handle st :
  WF st -> exists t, In t (timers st) /\ is_poll t = true /\ handle t = 0%nat.
Proof.
  intros H. destruct (proj1 (existsb_exists _ _) (wf_poll st H)) as [t [Hin Hp]].
  exists t. repeat split; try assumption.
  pose proof (proj1 (Forall_forall _ _) (wf_owned st H) t Hin) as [_ Ho].
  unfold is_poll in Hp. destruct (callback t); try discriminate. tauto.
Qed.

Lemma poll_survives st o ts' :
  WF st ->
  o <> Some 0%nat ->
  (forall t, In t (without o (timers st)) -> In t ts') ->
  existsb is_poll ts' = true.
Proof.
  intros H Ho Hsub. destruct (existsb_poll_handle st H) as [t [Hin [Hp H0]]].
  apply existsb_exists. exists t. split; [|exact Hp].
  apply Hsub, without_keeps; [exact Hin|].
  intros h -> Hh. apply Ho. rewrite <- Hh, H0. reflexivity.
Qed.

Lemma WF_set_inFlight b st : WF st -> WF (set_inFlight b st).
Proof. intros [H1 H2 H3 H4 H5 H6 H7]. constructor; assumption. Qed.

Lemma WF_set_desiredTarget d st : WF st -> WF (set_desiredTarget d st).
Proof. intros [H1 H2 H3 H4 H5 H6 H7]. constructor; assumption. Qed.

(** Clearing the watchdog's handle (as [poll] does on completion). *)
Lemma WF_clear_watchdog b st :
  WF st ->
  WF (mkAccessory b (desiredTarget st) (pollTimer st) (watchdog st)
        (autoLockTimer st) (without (watchdog st) (timers st)) (nextHandle st)).
Proof.
  intros H. pose proof H as [H1 H2 H3 H4 H5 H6 H7].
  constructor; cbn; try assumption.
  - apply Forall_forall. intros t Hin. apply in_without_in in Hin.
    exact (proj1 (Forall_forall _ _) H1 t Hin).
  - unfold pollArmed; cbn. apply (poll_survives st (watchdog st)); auto.
Qed.

(** [startWatchdog], also with [inFlight] and [desiredTarget] assigned
    just before. *)
Lemma WF_startWatchdog b d ms st :
  WF st ->
  WF (mkAccessory b d (pollTimer st) (Some (nextHandle st)) (autoLockTimer st)
        (without (watchdog st) (timers st)
           ++ [mkTimer (nextHandle st) WatchdogCb ms false])
        (S (nextHandle st))).
Proof.
  intros H. pose proof H as [H1 H2 H3 H4 H5 H6 H7].
  destruct (existsb_poll_handle st H) as [tp [Hinp [Hp Hp0]]].
  pose proof (proj1 (Forall_forall _ _) H1 tp Hinp) as [Hlt _].
  constructor; cbn.
  - apply Forall_forall. intros t Hin. apply in_app_iff in Hin.
    destruct Hin as [Hin|[<-|[]]].
    + pose proof (proj1 (Forall_forall _ _) H1 t (in_without_in _ _ _ Hin)) as [Ht Ho].
      split; cbn; [lia|].
      destruct (callback t) eqn:Hc; try assumption.
      destruct (in_without (handle t) _ _ _ Hin (proj1 Ho)) as [_ Hne]. congruence.
    + split; cbn; [lia|split; reflexivity].
  - lia.
  - destruct (autoLockTimer st); cbn in *; [lia|exact I].
  - intros Heq. injection Heq as Heq. lia.
  - assumption.
  - intros h Heq Ha. injection Heq as <-. rewrite Ha in H3. cbn in H3. lia.
  - unfold pollArmed; cbn. apply (poll_survives st (watchdog st)); auto.
    intros t Hin. apply in_app_iff. left. exact Hin.
Qed.

Lemma WF_startAutoLockTimer ms st :
  WF st ->
  WF (mkAccessory (inFlight st) (desiredTarget st) (pollTimer st) (watchdog st)
        (Some (nextHandle st))
        (without (autoLockTimer st) (timers st)
           ++ [mkTimer (nextHandle st) AutoLockCb ms false])
        (S (nextHandle st))).
Proof.
  intros H. pose proof H as [H1 H2 H3 H4 H5 H6 H7].
  destruct (existsb_poll_handle st H) as [tp [Hinp [Hp Hp0]]].
  pose proof (proj1 (Forall_forall _ _) H1 tp Hinp) as [Hlt _].
  constructor; cbn.
  - apply Forall_forall. intros t Hin. apply in_app_iff in Hin.
    destruct Hin as [Hin|[<-|[]]].
    + pose proof (proj1 (Forall_forall _ _) H1 t (in_without_in _ _ _ Hin)) as [Ht Ho].
      split; cbn; [lia|].
      destruct (callback t) eqn:Hc; try assumption.
      destruct (in_without (handle t) _ _ _ Hin (proj1 Ho)) as [_ Hne]. congruence.
    + split; cbn; [lia|split; reflexivity].
  - destruct (watchdog st); cbn in *; [lia|exact I].
  - lia.
  - assumption.
  - intros Heq. injection Heq as Heq. lia.
  - intros h Hw Heq. injection Heq as <-. rewrite Hw in H2. cbn in H2. lia.
  - unfold pollArmed; cbn. apply (poll_survives st (autoLockTimer st)); auto.
    intros t Hin. apply in_app_iff. left. exact Hin.
Qed.

Lemma WF_cancelAutoLockTimer st :
  WF st ->
  WF (mkAccessory (inFlight st) (desiredTarget st) (pollTimer st) (watchdog st)
        None (without (autoLockTimer st) (timers st)) (nextHandle st)).
Proof.
  intros H. pose proof H as [H1 H2 H3 H4 H5 H6 H7].
  constructor; cbn; try assumption; try exact I; try discriminate.
  - apply Forall_forall. intros t Hin.
    pose proof (proj1 (Forall_forall _ _) H1 t (in_without_in _ _ _ Hin)) as [Ht Ho].
    split; cbn; [exact Ht|].
    destruct (callback t) eqn:Hc; try assumption.
    destruct (in_without (handle t) _ _ _ Hin (proj1 Ho)) as [_ Hne]. congruence.
  - unfold pollArmed; cbn. apply (poll_survives st (autoLockTimer st)); auto.
Qed.

(** A one-shot timer that fires leaves the event loop. *)
Lemma WF_expire st h t :
  WF st ->
  find (fun t => Nat.eqb (handle t) h) (timers st) = Some t ->
  repeat t = false ->
  WF (set_timers (without (Some h) (timers st)) st).
Proof.
  intros H Hfind Hrep. pose proof H as [H1 H2 H3 H4 H5 H6 H7].
  apply find_some in Hfind. destruct Hfind as [Hin Hh]. apply Nat.eqb_eq in Hh.
  pose proof (proj1 (Forall_forall _ _) H1 t Hin) as [_ Ho].
  assert (Hne : h <> 0%nat).
  { intros ->. destruct (callback t).
    - destruct Ho as [_ Ho]. rewrite Ho in Hrep. discriminate.
    - apply H4. rewrite (proj1 Ho), Hh. reflexivity.
    - apply H5. rewrite (proj1 Ho), Hh. reflexivity. }
  constructor; cbn; try assumption.
  - apply Forall_forall. intros x Hx. apply filter_In in Hx.
    exact (proj1 (Forall_forall _ _) H1 x (proj1 Hx)).
  - unfold pollArmed; cbn. apply (poll_survives st (Some h)); auto.
    intros Heq. injection Heq as Heq. exact (Hne Heq).
Qed.

Lemma WF_new cfg : WF (new_accessory cfg).
Proof.
  constructor; cbn; try exact I; try discriminate.
  - constructor; [|constructor]. split; cbn; auto.
  - reflexivity.
Qed.

Section Invariant.

Variable cfg : Config.

Lemma getLockState_resume_outcome r st :
  outcome (getLockState_resume r) st =
  match r with
  | Resolved sensors => Returned (toLockState sensors)
  | Rejected err => Thrown err
  end.
Proof.
  unfold getLockState_resume. destruct r as [sensors|err]; [|reflexivity].
  cbn [await].
  rewrite (outcome_bind _ _ st sensors) by reflexivity.
  rewrite (outcome_bind _ _ _ tt) by apply setBatteryLevel_outcome.
  reflexivity.
Qed.

Lemma getLockState_resume_exec r st : exec (getLockState_resume r) st = st.
Proof.
  unfold getLockState_resume. destruct r as [sensors|err]; [|reflexivity].
  cbn [await].
  rewrite (exec_bind _ _ st sensors) by reflexivity.
  rewrite (exec_bind _ _ _ tt) by apply setBatteryLevel_outcome.
  rewrite setBatteryLevel_exec. reflexivity.
Qed.

Lemma reconcileTargetWithCurrent_resume_exec r st :
  exec (reconcileTargetWithCurrent_resume r) st =
  match r with
  | Resolved sensors => set_desiredTarget (Some (target_of_current (toLockState sensors))) st
  | Rejected _ => st
  end.
Proof.
  unfold reconcileTargetWithCurrent_resume.
  pose proof (getLockState_resume_outcome r st) as Ho.
  pose proof (getLockState_resume_exec r st) as He.
  destruct r as [sensors|err].
  - rewrite (exec_bind _ _ st _ Ho), He. reflexivity.
  - unfold exec, bind. unfold outcome in Ho. unfold exec in He.
    destruct (getLockState_resume (Rejected err) st) as [[o st1] out1].
    cbn in *. subst. reflexivity.
Qed.

Lemma sendLockCommand_resume_exec r st :
  exec (sendLockCommand_resume cfg r) st =
  match r with
  | Resolved _ => st
  | Rejected _ => set_inFlight false st
  end.
Proof. destruct r; reflexivity. Qed.

Lemma maintainAutoLock_exec c st :
  exec (maintainAutoLock cfg c) st =
  if c =? LockCurrentState.UNSECURED then
    match autoLockTimer st with
    | Some _ => st
    | None =>
        if autoLockMinutes cfg <=? 0 then st
        else mkAccessory (inFlight st) (desiredTarget st) (pollTimer st)
               (watchdog st) (Some (nextHandle st))
               (timers st ++ [mkTimer (nextHandle st) AutoLockCb
                                (autoLockMinutes cfg * 60 * 1000) false])
               (S (nextHandle st))
    end
  else if c =? LockCurrentState.SECURED then
    mkAccessory (inFlight st) (desiredTarget st) (pollTimer st) (watchdog st)
      None (without (autoLockTimer st) (timers st)) (nextHandle st)
  else st.
Proof.
  unfold exec, maintainAutoLock.
  destruct (c =? LockCurrentState.UNSECURED).
  - unfold bind, get. destruct (autoLockTimer st) eqn:Ha; [reflexivity|].
    rewrite startAutoLockTimer_eq, Ha.
    destruct (autoLockMinutes cfg <=? 0); reflexivity.
  - destruct (c =? LockCurrentState.SECURED); [|reflexivity].
    rewrite cancelAutoLockTimer_eq. reflexivity.
Qed.

Lemma completionCheck_exec c st :
  exec (completionCheck c) st =
  if (inFlight st &&
      match desiredTarget st with Some d => c =? implied d | None => false end)%bool
  then mkAccessory false (desiredTarget st) (pollTimer st) (watchdog st)
         (autoLockTimer st) (without (watchdog st) (timers st)) (nextHandle st)
  else st.
Proof.
  unfold exec. rewrite completionCheck_eq. destruct (_ && _)%bool; reflexivity.
Qed.

Lemma poll_body_outcome sensors st :
  outcome
    (sensors <- await (Resolved sensors) ;;
     setBatteryLevel sensors ;;
     emit (UpdateValue LockCurrentStateC (Num (toLockState sensors))) ;;
     maintainAutoLock cfg (toLockState sensors) ;;
     completionCheck (toLockState sensors)) st = Returned tt.
Proof.
  cbn [await].
  rewrite (outcome_bind _ _ st sensors) by reflexivity.
  rewrite (outcome_bind _ _ _ tt) by apply setBatteryLevel_outcome.
  rewrite (outcome_bind _ _ _ tt) by reflexivity.
  rewrite (outcome_bind _ _ _ tt) by apply maintainAutoLock_outcome.
  apply completionCheck_outcome.
Qed.

Lemma try_catch_returned {A} (m : M A) h st a :
  outcome m st = Returned a -> try_catch m h st = m st.
Proof.
  unfold outcome, try_catch. destruct (m st) as [[o st1] out1]. cbn. intros ->. reflexivity.
Qed.

Lemma poll_resume_exec r st :
  exec (poll_resume cfg r) st =
  match r with
  | Resolved sensors =>
      exec (completionCheck (toLockState sensors))
        (exec (maintainAutoLock cfg (toLockState sensors)) st)
  | Rejected _ => st
  end.
Proof.
  destruct r as [sensors|err]; [|reflexivity].
  unfold exec at 1, poll_resume. cbv zeta.
  rewrite (try_catch_returned _ _ st tt (poll_body_outcome sensors st)).
  fold (exec (sensors0 <- await (Resolved sensors) ;;
     setBatteryLevel sensors0 ;;
     emit (UpdateValue LockCurrentStateC (Num (toLockState sensors0))) ;;
     maintainAutoLock cfg (toLockState sensors0) ;;
     completionCheck (toLockState sensors0)) st).
  cbn [await].
  rewrite (exec_bind _ _ st sensors) by reflexivity.
  rewrite (exec_bind _ _ _ tt) by apply setBatteryLevel_outcome.
  rewrite setBatteryLevel_exec.
  rewrite (exec_bind _ _ _ tt) by reflexivity.
  rewrite (exec_bind _ _ _ tt) by apply maintainAutoLock_outcome.
  reflexivity.
Qed.

Lemma setTargetLockState_exec v st :
  exec (setTargetLockState cfg v) st =
  if (inFlight st &&
      match desiredTarget st with Some d => d =? requested v | None => false end)%bool
  then st
  else if inFlight st then set_desiredTarget (Some (requested v)) st
  else mkAccessory true (Some (requested v)) (pollTimer st)
         (Some (nextHandle st)) (autoLockTimer st)
         (without (watchdog st) (timers st)
            ++ [mkTimer (nextHandle st) WatchdogCb (2 * lockPollMs cfg) false])
         (S (nextHandle st)).
Proof.
  unfold exec. rewrite setTargetLockState_eq. cbv zeta.
  destruct (_ && _)%bool; [reflexivity|]. destruct (inFlight st); reflexivity.
Qed.

Lemma autoLock_callback_exec st :
  exec (autoLock_callback cfg) st =
  exec (setTargetLockState cfg (CVNumber (Num LockTargetState.SECURED))) st.
Proof.
  unfold autoLock_callback.
  rewrite (exec_bind _ _ st tt) by reflexivity.
  unfold exec at 1.
  rewrite (try_catch_returned _ _ _ tt (setTargetLockState_outcome cfg _ _)).
  reflexivity.
Qed.

Lemma fire_exec h st :
  exec (fire cfg h) st =
  match find (fun t => Nat.eqb (handle t) h) (timers st) with
  | None => st
  | Some t =>
      let st1 := if repeat t then st else set_timers (without (Some h) (timers st)) st in
      match callback t with
      | PollCb => st1
      | WatchdogCb => set_inFlight false st1
      | AutoLockCb =>
          exec (setTargetLockState cfg (CVNumber (Num LockTargetState.SECURED))) st1
      end
  end.
Proof.
  unfold fire. rewrite (exec_bind _ _ st st) by reflexivity.
  change (exec get st) with st.
  destruct (find _ (timers st)) as [t|]; [|reflexivity].
  assert (Hpre : outcome (if repeat t then ret tt else clearTimeout h) st = Returned tt)
    by (destruct (repeat t); reflexivity).
  rewrite (exec_bind _ _ st tt Hpre).
  assert (Hst : exec (if repeat t then ret tt else clearTimeout h) st =
                if repeat t then st else set_timers (without (Some h) (timers st)) st)
    by (destruct (repeat t); reflexivity).
  rewrite Hst. cbv zeta.
  destruct (callback t); cbn [run_callback].
  - reflexivity.
  - reflexivity.
  - apply autoLock_callback_exec.
Qed.

Lemma WF_setTargetLockState v st :
  WF st -> WF (exec (setTargetLockState cfg v) st).
Proof.
  intros H. rewrite setTargetLockState_exec.
  destruct (_ && _)%bool; [exact H|].
  destruct (inFlight st).
  - apply WF_set_desiredTarget, H.
  - apply WF_startWatchdog, H.
Qed.

Lemma WF_maintainAutoLock c st :
  WF st -> WF (exec (maintainAutoLock cfg c) st).
Proof.
  intros H. rewrite maintainAutoLock_exec.
  destruct (c =? LockCurrentState.UNSECURED).
  - destruct (autoLockTimer st) eqn:Ha; [exact H|].
    destruct (autoLockMinutes cfg <=? 0); [exact H|].
    pose proof (WF_startAutoLockTimer (autoLockMinutes cfg * 60 * 1000) st H) as H'.
    rewrite Ha in H'. exact H'.
  - destruct (c =? LockCurrentState.SECURED); [|exact H].
    apply WF_cancelAutoLockTimer, H.
Qed.

Lemma WF_completionCheck c st :
  WF st -> WF (exec (completionCheck c) st).
Proof.
  intros H. rewrite completionCheck_exec.
  destruct (_ && _)%bool; [|exact H]. apply WF_clear_watchdog, H.
Qed.

Lemma WF_fire h st : WF st -> WF (exec (fire cfg h) st).
Proof.
  intros H. rewrite fire_exec.
  destruct (find _ (timers st)) as [t|] eqn:Hfind; [|exact H].
  assert (H1 : WF (if repeat t then st else set_timers (without (Some h) (timers st)) st)).
  { destruct (repeat t) eqn:Hrep; [exact H|]. exact (WF_expire st h t H Hfind Hrep). }
  cbv zeta. destruct (callback t).
  - exact H1.
  - apply WF_set_inFlight, H1.
  - apply WF_setTargetLockState, H1.
Qed.

Theorem WF_step st ev : WF st -> WF (step cfg st ev).
Proof.
  intros H. unfold step. fold (exec (handle_event cfg ev) st).
  destruct ev as [| |v|h|k r|r]; cbn [handle_event].
  - exact H.
  - unfold getTargetLockState, exec, bind, get. cbn.
    destruct (desiredTarget st); exact H.
  - apply WF_setTargetLockState, H.
  - apply WF_fire, H.
  - destruct k.
    + rewrite poll_resume_exec. destruct r; [|exact H].
      apply WF_completionCheck, WF_maintainAutoLock, H.
    + pose proof (getLockState_resume_exec r st) as He.
      unfold exec, bind in *. destruct (getLockState_resume r st) as [[[a|e] s1] o1];
        cbn in *; subst; exact H.
    + unfold getTargetLockState_resume.
      pose proof (getLockState_resume_exec r st) as He.
      unfold exec, bind in *. destruct (getLockState_resume r st) as [[[a|e] s1] o1];
        cbn in *; subst; exact H.
    + rewrite reconcileTargetWithCurrent_resume_exec.
      destruct r; [apply WF_set_desiredTarget|]; exact H.
  - rewrite sendLockCommand_resume_exec.
    destruct r; [|apply WF_set_inFlight]; exact H.
Qed.

Theorem WF_run evs st : WF st -> WF (run cfg evs st).
Proof.
  revert st. induction evs as [|ev evs IH]; intros st H; cbn.
  - exact H.
  - apply IH, WF_step, H.
Qed.

End Invariant.

(** The two read handlers leave the state alone, whatever the query gave. *)
Lemma read_resume_exec cfg k r st :
  k = InGetLockState \/ k = InGetTargetLockState ->
  exec (handle_event cfg (SensorsSettled k r)) st = st.
Proof.
  pose proof (getLockState_resume_exec r st) as He.
  intros [->| ->]; cbn [handle_event]; unfold getTargetLockState_resume;
    unfold exec, bind in *; destruct (getLockState_resume r st) as [[[a|e] s1] o1];
    cbn in *; subst; reflexivity.
Qed.

(** ** State Translator *)

Lemma find_sensor_none kind sensors :
  Forall (fun x => sensorType x <> kind) sensors -> find_sensor kind sensors = None.
Proof.
  unfold find_sensor. induction 1 as [|x l Hx _ IH]; cbn; [reflexivity|].
  destruct (String.eqb_spec (sensorType x) kind); [contradiction|exact IH].
Qed.

Lemma find_sensor_first kind pre s post :
  Forall (fun x => sensorType x <> kind) pre ->
  sensorType s = kind ->
  find_sensor kind (pre ++ s :: post) = Some s.
Proof.
  unfold find_sensor. intros Hpre Hs. induction Hpre as [|x l Hx _ IH]; cbn.
  - rewrite Hs, String.eqb_refl. reflexivity.
  - destruct (String.eqb_spec (sensorType x) kind); [contradiction|exact IH].
Qed.

(** C6. The State Translator returns UNKNOWN when no reading of kind
    "lock" is present; otherwise it looks at the first reading of kind
    "lock" and returns SECURED when its value is "locked" and UNSECURED
    for any other value.  It is a total function of the readings alone,
    with these three results only. *)
Theorem toLockState_spec (pre post sensors : list Sensor) (s : Sensor) :
  Forall (fun x => sensorType x <> "lock") pre ->
  sensorType s = "lock" ->
  toLockState pre = LockCurrentState.UNKNOWN /\
  (value s = "locked" ->
   toLockState (pre ++ s :: post) = LockCurrentState.SECURED) /\
  (value s <> "locked" ->
   toLockState (pre ++ s :: post) = LockCurrentState.UNSECURED) /\
  (toLockState sensors = LockCurrentState.UNKNOWN \/
   toLockState sensors = LockCurrentState.SECURED \/
   toLockState sensors = LockCurrentState.UNSECURED).
Proof.
  intros Hpre Hs. unfold toLockState.
  rewrite (find_sensor_none _ _ Hpre), (find_sensor_first _ _ _ post Hpre Hs).
  repeat split.
  - intros ->. reflexivity.
  - intros Hv. destruct (String.eqb_spec (value s) "locked"); [contradiction|reflexivity].
  - destruct (find_sensor "lock" sensors) as [l|]; [|auto].
    destruct (String.eqb (value l) "locked"); auto.
Qed.

(** ** Session Manager *)

(** C2. A request made while a session is in flight, for a target other
    than the current desiredTarget, records the new desiredTarget and
    updates the target-state attribute; it dispatches no command and
    leaves the watchdog (field and pending timers) as it was. *)
Theorem setTargetLockState_changed_mid_flight (cfg : Config) (st : Accessory)
    (v : CharacteristicValue) :
  inFlight st = true ->
  desiredTarget st <> Some (requested v) ->
  let st' := step cfg st (OnSetLockTargetState v) in
  let out := output cfg st (OnSetLockTargetState v) in
  desiredTarget st' = Some (requested v) /\
  In (UpdateValue LockTargetStateC (Num (requested v))) out /\
  dispatches out = 0%nat /\
  inFlight st' = true /\
  watchdog st' = watchdog st /\
  timers st' = timers st /\
  nextHandle st' = nextHandle st.
Proof.
  intros Hf Hd. unfold step, output. cbn [handle_event].
  rewrite setTargetLockState_eq. cbv zeta. rewrite Hf. cbn [andb].
  destruct (desiredTarget st) as [d|] eqn:Hdt.
  - destruct (Z.eqb_spec d (requested v)) as [->|Hne]; [contradiction|].
    cbn. rewrite Hf. repeat split; auto.
  - cbn. rewrite Hf. repeat split; auto.
Qed.

(** A request for the target of the session in flight changes nothing. *)
Lemma setTargetLockState_duplicate (cfg : Config) (st : Accessory)
    (v : CharacteristicValue) :
  inFlight st = true ->
  desiredTarget st = Some (requested v) ->
  setTargetLockState cfg v st = (Returned tt, st, [Log Debug (MsgCoalescing (requested v))]).
Proof.
  intros Hf Hd. rewrite setTargetLockState_eq. cbv zeta.
  rewrite Hf, Hd, Z.eqb_refl. reflexivity.
Qed.

(** C3. Two requests in a row for the same target, the first one
    starting a session: the two together dispatch exactly one command,
    and the second one returns at once, emits no dispatch and leaves the
    state as the first one left it. *)
Theorem setTargetLockState_twice (cfg : Config) (st : Accessory)
    (v : CharacteristicValue) :
  inFlight st = false ->
  let ev := OnSetLockTargetState v in
  let st1 := step cfg st ev in
  inFlight st1 = true /\
  dispatches (trace cfg [ev; ev] st) = 1%nat /\
  handle_event cfg ev st1 = (Returned tt, st1, [Log Debug (MsgCoalescing (requested v))]) /\
  run cfg [ev; ev] st = run cfg [ev] st.
Proof.
  intros Hf. cbv zeta.
  assert (Hst1 : inFlight (step cfg st (OnSetLockTargetState v)) = true /\
                 desiredTarget (step cfg st (OnSetLockTargetState v)) = Some (requested v)).
  { unfold step. cbn [handle_event]. rewrite setTargetLockState_eq. cbv zeta.
    rewrite Hf. cbn. auto. }
  destruct Hst1 as [Hf1 Hd1].
  pose proof (setTargetLockState_duplicate cfg _ v Hf1 Hd1) as Hdup.
  repeat split.
  - exact Hf1.
  - cbn [trace]. unfold output at 2. cbn [handle_event]. rewrite Hdup.
    unfold output. cbn [handle_event]. rewrite setTargetLockState_eq. cbv zeta.
    rewrite Hf. cbn. reflexivity.
  - exact Hdup.
  - cbn [run fold_left]. unfold step at 1. cbn [handle_event]. rewrite Hdup. reflexivity.
Qed.

(** ** Poller and Watchdog *)

Lemma existsb_false_forall {A} (p : A -> bool) l :
  (forall x, In x l -> p x = false) -> existsb p l = false.
Proof.
  induction l as [|a l IH]; cbn; intros H; [reflexivity|].
  rewrite (H a (or_introl eq_refl)), IH; [reflexivity|]. intros x Hx. apply H. right. exact Hx.
Qed.

(** Once the stored watchdog handle is cleared no watchdog is pending. *)
Lemma no_watchdog_after_clear st :
  WF st -> existsb is_watchdog (without (watchdog st) (timers st)) = false.
Proof.
  intros H. apply existsb_false_forall. intros t Hin.
  pose proof (proj1 (Forall_forall _ _) (wf_owned st H) t (in_without_in _ _ _ Hin)) as [_ Ho].
  unfold is_watchdog. destruct (callback t); try reflexivity.
  destruct (in_without (handle t) _ _ _ Hin (proj1 Ho)) as [_ Hne]. congruence.
Qed.

Lemma no_autoLock_after_clear st :
  WF st -> existsb is_autoLock (without (autoLockTimer st) (timers st)) = false.
Proof.
  intros H. apply existsb_false_forall. intros t Hin.
  pose proof (proj1 (Forall_forall _ _) (wf_owned st H) t (in_without_in _ _ _ Hin)) as [_ Ho].
  unfold is_autoLock. destruct (callback t); try reflexivity.
  destruct (in_without (handle t) _ _ _ Hin (proj1 Ho)) as [_ Hne]. congruence.
Qed.

(** The auto-lock block of [poll] does not touch the session. *)
Lemma maintainAutoLock_session cfg c st :
  let st' := exec (maintainAutoLock cfg c) st in
  inFlight st' = inFlight st /\ desiredTarget st' = desiredTarget st.
Proof.
  cbv zeta. rewrite maintainAutoLock_exec.
  destruct (c =? LockCurrentState.UNSECURED).
  - destruct (autoLockTimer st); [auto|]. destruct (autoLockMinutes cfg <=? 0); auto.
  - destruct (c =? LockCurrentState.SECURED); auto.
Qed.

(** C4. With a session in flight, a poll whose readings map to the
    state implied by desiredTarget ends the session and leaves no
    watchdog pending; a poll with any other readings, or a poll whose
    query fails, leaves the session in flight. *)
Theorem poll_completes_session (cfg : Config) (evs : list Event)
    (d : Z) (sensors : list Sensor) (err : string) :
  let st := run cfg evs (new_accessory cfg) in
  inFlight st = true ->
  desiredTarget st = Some d ->
  let st' := step cfg st (SensorsSettled InPoll (Resolved sensors)) in
  (toLockState sensors = implied d ->
   inFlight st' = false /\ watchdogArmed st' = false) /\
  (toLockState sensors <> implied d -> inFlight st' = true) /\
  inFlight (step cfg st (SensorsSettled InPoll (Rejected err))) = true.
Proof.
  cbv zeta. intros Hf Hd.
  pose proof (WF_run cfg evs _ (WF_new cfg)) as Hwf.
  set (st := run cfg evs (new_accessory cfg)) in *.
  unfold step. cbn [handle_event].
  fold (exec (poll_resume cfg (Resolved sensors)) st).
  fold (exec (poll_resume cfg (Rejected err)) st).
  rewrite !poll_resume_exec, completionCheck_exec.
  destruct (maintainAutoLock_session cfg (toLockState sensors) st) as [Hf1 Hd1].
  pose proof (WF_maintainAutoLock cfg (toLockState sensors) st Hwf) as Hwf1.
  set (st1 := exec (maintainAutoLock cfg (toLockState sensors)) st) in *.
  rewrite Hf1, Hd1, Hf, Hd. cbn [andb].
  split; [|split].
  - intros Heq. rewrite Heq, Z.eqb_refl. split; [reflexivity|].
    unfold watchdogArmed. cbn. apply no_watchdog_after_clear, Hwf1.
  - intros Hne. destruct (Z.eqb_spec (toLockState sensors) (implied d)); [contradiction|].
    rewrite Hf1. exact Hf.
  - reflexivity.
Qed.

Lemma reconcileTargetWithCurrent_resume_eq sensors st :
  reconcileTargetWithCurrent_resume (Resolved sensors) st =
  (Returned tt,
   set_desiredTarget (Some (target_of_current (toLockState sensors))) st,
   emitted (setBatteryLevel sensors) st
     ++ [Log Debug (MsgCurrentState (toLockState sensors));
         UpdateValue LockTargetStateC (Num (target_of_current (toLockState sensors)))]).
Proof.
  unfold reconcileTargetWithCurrent_resume, getLockState_resume. cbn [await].
  unfold bind at 1. unfold bind at 1. unfold ret at 1. unfold bind at 1.
  rewrite setBatteryLevel_eq. generalize (emitted (setBatteryLevel sensors) st).
  intros outb. cbn. rewrite <- app_assoc. reflexivity.
Qed.

Lemma fire_watchdog_eq cfg st t :
  find (fun x => Nat.eqb (handle x) (handle t)) (timers st) = Some t ->
  callback t = WatchdogCb ->
  repeat t = false ->
  fire cfg (handle t) st =
  (Returned tt,
   set_inFlight false (set_timers (without (Some (handle t)) (timers st)) st),
   [Log Warn MsgWatchdogExpired; CallSensors (lockID cfg) InReconcile]).
Proof.
  intros Hfind Hcb Hrep. unfold fire. unfold bind at 1. unfold get at 1.
  rewrite Hfind, Hcb, Hrep. reflexivity.
Qed.

(** A call of [setTargetLockState] that finds no session begins one and
    arms its watchdog. *)
Lemma begin_setTargetLockState cfg v st :
  WF st ->
  inFlight st = false ->
  let armed := mkTimer (nextHandle st) WatchdogCb (2 * lockPollMs cfg) false in
  let st' := exec (setTargetLockState cfg v) st in
  inFlight st' = true /\
  watchdog st' = Some (nextHandle st) /\
  In armed (timers st') /\
  (forall x, In x (timers st') -> is_watchdog x = true -> x = armed).
Proof.
  intros Hwf Hf. cbv zeta. rewrite setTargetLockState_exec, Hf. cbn.
  split; [reflexivity|]. split; [reflexivity|]. split.
  - apply in_app_iff. right. left. reflexivity.
  - intros x Hin Hx. apply in_app_iff in Hin. destruct Hin as [Hin|[<-|[]]]; [|reflexivity].
    pose proof (no_watchdog_after_clear st Hwf) as Hno.
    assert (Hex : existsb is_watchdog (without (watchdog st) (timers st)) = true)
      by (apply existsb_exists; exists x; auto).
    rewrite Hex in Hno. discriminate.
Qed.

(** Whatever task begins a session, it is a call of [setTargetLockState]
    (from HomeKit or from the auto-lock callback) and arms the watchdog. *)
Lemma session_begins cfg st ev :
  WF st ->
  inFlight st = false ->
  inFlight (step cfg st ev) = true ->
  let armed := mkTimer (nextHandle st) WatchdogCb (2 * lockPollMs cfg) false in
  watchdog (step cfg st ev) = Some (nextHandle st) /\
  In armed (timers (step cfg st ev)) /\
  (forall x, In x (timers (step cfg st ev)) -> is_watchdog x = true -> x = armed).
Proof.
  intros Hwf Hf. cbv zeta. unfold step. fold (exec (handle_event cfg ev) st).
  destruct ev as [| |v|h|k r|r].
  - cbn. rewrite Hf. discriminate.
  - cbn [handle_event]. unfold getTargetLockState, exec, bind, get. cbn.
    destruct (desiredTarget st); cbn; rewrite Hf; discriminate.
  - intros _. apply (begin_setTargetLockState cfg v st Hwf Hf).
  - cbn [handle_event]. rewrite fire_exec.
    destruct (find _ (timers st)) as [t|] eqn:Hfind; [|rewrite Hf; discriminate].
    assert (H1 : WF (if repeat t then st else set_timers (without (Some h) (timers st)) st)
                 /\ inFlight (if repeat t then st
                              else set_timers (without (Some h) (timers st)) st) = false
                 /\ nextHandle (if repeat t then st
                                else set_timers (without (Some h) (timers st)) st)
                    = nextHandle st).
    { destruct (repeat t) eqn:Hrep; [auto|].
      split; [exact (WF_expire st h t Hwf Hfind Hrep)|auto]. }
    destruct H1 as [Hwf1 [Hf1 Hn1]]. cbv zeta. destruct (callback t).
    + rewrite Hf1. discriminate.
    + cbn. discriminate.
    + intros _. rewrite <- Hn1. apply (begin_setTargetLockState cfg _ _ Hwf1 Hf1).
  - destruct k.
    + cbn [handle_event]. rewrite poll_resume_exec.
      destruct r as [sensors|]; [|rewrite Hf; discriminate].
      rewrite completionCheck_exec.
      destruct (maintainAutoLock_session cfg (toLockState sensors) st) as [Hf1 _].
      rewrite Hf1, Hf. cbn [andb]. rewrite Hf1, Hf. discriminate.
    + rewrite read_resume_exec by auto. rewrite Hf. discriminate.
    + rewrite read_resume_exec by auto. rewrite Hf. discriminate.
    + cbn [handle_event]. rewrite reconcileTargetWithCurrent_resume_exec.
      destruct r; cbn; rewrite Hf; discriminate.
  - cbn [handle_event]. rewrite sendLockCommand_resume_exec.
    destruct r; cbn; [rewrite Hf|]; discriminate.
Qed.

(** C5. Whenever a task begins a session, the watchdog is armed as the
    only pending watchdog timer, one-shot, for exactly 2 x lockPollMs.
    When a pending watchdog fires, the session ends whatever its state,
    no watchdog stays pending and reconciliation starts by querying the
    sensors again; when that query resolves, desiredTarget becomes
    SECURED if the readings map to SECURED and UNSECURED otherwise, and
    that value is written to the target-state attribute. *)
Theorem watchdog_lifecycle (cfg : Config) (evs evs' : list Event)
    (ev : Event) (t : Timer) (sensors : list Sensor) (st2 : Accessory) :
  let st := run cfg evs (new_accessory cfg) in
  let st1 := run cfg evs' (new_accessory cfg) in
  inFlight st = false ->
  inFlight (step cfg st ev) = true ->
  find (fun x => Nat.eqb (handle x) (handle t)) (timers st1) = Some t ->
  callback t = WatchdogCb ->
  let armed := mkTimer (nextHandle st) WatchdogCb (2 * lockPollMs cfg) false in
  let began := step cfg st ev in
  let expired := step cfg st1 (TimerFired (handle t)) in
  let settled := SensorsSettled InReconcile (Resolved sensors) in
  let target := if toLockState sensors =? LockCurrentState.SECURED
                then LockTargetState.SECURED else LockTargetState.UNSECURED in
  (watchdog began = Some (handle armed) /\
   In armed (timers began) /\
   (forall x, In x (timers began) -> is_watchdog x = true -> x = armed)) /\
  (inFlight expired = false /\
   watchdogArmed expired = false /\
   output cfg st1 (TimerFired (handle t)) =
     [Log Warn MsgWatchdogExpired; CallSensors (lockID cfg) InReconcile]) /\
  (desiredTarget (step cfg st2 settled) = Some target /\
   In (UpdateValue LockTargetStateC (Num target)) (output cfg st2 settled)).
Proof.
  cbv zeta. intros Hf Hbegan Hfind Hcb.
  pose proof (WF_run cfg evs _ (WF_new cfg)) as Hwf.
  pose proof (WF_run cfg evs' _ (WF_new cfg)) as Hwf1.
  set (st := run cfg evs (new_accessory cfg)) in *.
  set (st1 := run cfg evs' (new_accessory cfg)) in *.
  split; [|split].
  - exact (session_begins cfg st ev Hwf Hf Hbegan).
  - pose proof (find_some _ _ Hfind) as [Hin _].
    pose proof (proj1 (Forall_forall _ _) (wf_owned st1 Hwf1) t Hin) as [_ Ho].
    rewrite Hcb in Ho. destruct Ho as [Hw Hrep].
    unfold step, output. cbn [handle_event].
    rewrite (fire_watchdog_eq cfg st1 t Hfind Hcb Hrep). cbn.
    split; [reflexivity|]. split; [|reflexivity].
    unfold watchdogArmed. cbn.
    pose proof (no_watchdog_after_clear st1 Hwf1) as Hno. rewrite Hw in Hno. exact Hno.
  - unfold step, output. cbn [handle_event].
    rewrite reconcileTargetWithCurrent_resume_eq. cbn [fst snd].
    split; [reflexivity|]. apply in_app_iff. right. right. left. reflexivity.
Qed.

(** *** The watchdog and the session *)

Lemma watchdog_survives st o :
  WF st ->
  (forall h, o = Some h -> watchdog st <> Some h) ->
  watchdogArmed st = true ->
  existsb is_watchdog (without o (timers st)) = true.
Proof.
  intros H Ho Harmed. apply existsb_exists in Harmed. destruct Harmed as [t [Hin Ht]].
  apply existsb_exists. exists t. split; [|exact Ht].
  apply without_keeps; [exact Hin|]. intros h Hoh Heq.
  pose proof (proj1 (Forall_forall _ _) (wf_owned st H) t Hin) as [_ Hown].
  unfold is_watchdog in Ht. destruct (callback t); try discriminate.
  apply (Ho h Hoh). rewrite (proj1 Hown), Heq. reflexivity.
Qed.

Lemma guarded_setTargetLockState cfg v st :
  session_guarded st -> session_guarded (exec (setTargetLockState cfg v) st).
Proof.
  intros G. rewrite setTargetLockState_exec.
  destruct (_ && _)%bool; [exact G|].
  destruct (inFlight st) eqn:Hf.
  - intros _. apply G. exact Hf.
  - intros _. unfold watchdogArmed. cbn. rewrite existsb_app. cbn.
    apply orb_true_r.
Qed.

Lemma guarded_step cfg st ev :
  WF st -> session_guarded st -> session_guarded (step cfg st ev).
Proof.
  intros H G. unfold step. fold (exec (handle_event cfg ev) st).
  destruct ev as [| |v|h|k r|r]; cbn [handle_event].
  - exact G.
  - unfold getTargetLockState, exec, bind, get. cbn. destruct (desiredTarget st); exact G.
  - apply guarded_setTargetLockState, G.
  - rewrite fire_exec. destruct (find _ (timers st)) as [t|] eqn:Hfind; [|exact G].
    pose proof (find_some _ _ Hfind) as [Hin Hh]. apply Nat.eqb_eq in Hh.
    pose proof (proj1 (Forall_forall _ _) (wf_owned st H) t Hin) as [_ Hown].
    cbv zeta. destruct (callback t).
    + destruct Hown as [_ ->]. exact G.
    + intros Hf. discriminate Hf.
    + destruct Hown as [Ha ->]. apply guarded_setTargetLockState.
      intros Hf. unfold watchdogArmed. cbn [timers set_timers].
      apply watchdog_survives; [exact H| |exact (G Hf)].
      intros h' Heq Hw. injection Heq as <-.
      apply (wf_distinct st H _ Hw). rewrite Ha, Hh. reflexivity.
  - destruct k.
    + rewrite poll_resume_exec. destruct r as [sensors|]; [|exact G].
      rewrite completionCheck_exec. destruct (_ && _)%bool; [intros Hf; discriminate Hf|].
      rewrite maintainAutoLock_exec.
      destruct (toLockState sensors =? LockCurrentState.UNSECURED).
      * destruct (autoLockTimer st); [exact G|].
        destruct (autoLockMinutes cfg <=? 0); [exact G|].
        intros Hf. pose proof (G Hf) as Hg. unfold watchdogArmed in *.
        cbn [timers]. rewrite existsb_app, Hg. reflexivity.
      * destruct (toLockState sensors =? LockCurrentState.SECURED); [|exact G].
        intros Hf. unfold watchdogArmed. cbn [timers].
        apply watchdog_survives; [exact H| |exact (G Hf)].
        intros h' Ha Hw. apply (wf_distinct st H _ Hw Ha).
    + pose proof (getLockState_resume_exec r st) as He.
      unfold exec, bind in *. destruct (getLockState_resume r st) as [[[a|e] s1] o1];
        cbn in *; subst; exact G.
    + unfold getTargetLockState_resume.
      pose proof (getLockState_resume_exec r st) as He.
      unfold exec, bind in *. destruct (getLockState_resume r st) as [[[a|e] s1] o1];
        cbn in *; subst; exact G.
    + rewrite reconcileTargetWithCurrent_resume_exec. destruct r; exact G.
  - rewrite sendLockCommand_resume_exec. destruct r; [exact G|].
    intros Hf. discriminate Hf.
Qed.

(** X4. In every state the accessory reaches, a session in flight has its
    watchdog pending. *)
Lemma in_flight_has_watchdog cfg evs :
  session_guarded (run cfg evs (new_accessory cfg)).
Proof.
  assert (Hgen : forall st, WF st -> session_guarded st -> session_guarded (run cfg evs st)).
  { induction evs as [|ev evs' IH]; intros st H G; cbn; [exact G|].
    apply IH; [apply WF_step, H|apply guarded_step; assumption]. }
  apply Hgen; [apply WF_new|]. intros Hf. discriminate Hf.
Qed.

(** C1. The converse fails on the dispatch-failure path: a request that
    begins a session, followed by the rejection of its command, leaves
    inFlight false with the watchdog still pending. *)
Theorem dispatch_failure_leaves_watchdog_armed (cfg : Config) (st : Accessory)
    (v : CharacteristicValue) (err : string) :
  inFlight st = false ->
  let st' := run cfg [OnSetLockTargetState v; ToggleLockSettled (Rejected err)] st in
  inFlight st' = false /\ watchdogArmed st' = true.
Proof.
  intros Hf. cbv zeta. cbn [run fold_left].
  unfold step at 1. cbn [handle_event].
  fold (exec (sendLockCommand_resume cfg (Rejected err)) (step cfg st (OnSetLockTargetState v))).
  rewrite sendLockCommand_resume_exec.
  unfold step. cbn [handle_event]. rewrite setTargetLockState_eq. cbv zeta.
  rewrite Hf. cbn. split; [reflexivity|].
  unfold watchdogArmed. cbn. rewrite existsb_app. cbn. apply orb_true_r.
Qed.

(** ** Battery readings *)

Lemma poll_resume_emitted cfg sensors st :
  emitted (poll_resume cfg (Resolved sensors)) st =
  emitted (setBatteryLevel sensors) st
    ++ UpdateValue LockCurrentStateC (Num (toLockState sensors))
    :: emitted (maintainAutoLock cfg (toLockState sensors)) st
    ++ emitted (completionCheck (toLockState sensors))
         (exec (maintainAutoLock cfg (toLockState sensors)) st).
Proof.
  unfold emitted at 1, poll_resume. cbv zeta.
  rewrite (try_catch_returned _ _ st tt (poll_body_outcome cfg sensors st)).
  fold (emitted (sensors0 <- await (Resolved sensors) ;;
     setBatteryLevel sensors0 ;;
     emit (UpdateValue LockCurrentStateC (Num (toLockState sensors0))) ;;
     maintainAutoLock cfg (toLockState sensors0) ;;
     completionCheck (toLockState sensors0)) st).
  cbn [await].
  rewrite (emitted_bind _ _ st sensors) by reflexivity.
  change (exec (ret sensors) st) with st. change (emitted (ret sensors) st) with (@nil Effect).
  rewrite (emitted_bind _ _ _ tt) by apply setBatteryLevel_outcome.
  rewrite setBatteryLevel_exec.
  rewrite (emitted_bind _ _ _ tt) by reflexivity.
  rewrite (emitted_bind _ _ _ tt) by apply maintainAutoLock_outcome.
  reflexivity.
Qed.

Lemma find_sensor_filter kind sensors :
  kind <> "battery" ->
  find_sensor kind (filter not_battery sensors) = find_sensor kind sensors.
Proof.
  intros Hk. unfold find_sensor. induction sensors as [|x l IH]; [reflexivity|].
  cbn. unfold not_battery at 1.
  destruct (String.eqb_spec (sensorType x) "battery") as [Hb|Hb]; cbn.
  - destruct (String.eqb_spec (sensorType x) kind) as [Hx|Hx]; [congruence|exact IH].
  - rewrite IH. reflexivity.
Qed.

Lemma find_battery_filter sensors :
  find_sensor "battery" (filter not_battery sensors) = None.
Proof.
  apply find_sensor_none. apply Forall_forall. intros x Hx.
  apply filter_In in Hx. destruct Hx as [_ Hx]. unfold not_battery in Hx.
  destruct (String.eqb_spec (sensorType x) "battery"); [discriminate|assumption].
Qed.

Lemma toLockState_filter sensors :
  toLockState (filter not_battery sensors) = toLockState sensors.
Proof.
  unfold toLockState. rewrite find_sensor_filter; [reflexivity|discriminate].
Qed.

(** C8 (amended). A battery reading whose value does not parse as an
    integer is not guarded: the poll passes NaN to the battery-level
    attribute, sets the low-battery attribute to LOW and logs the value
    at info level.  Lock-state handling is unaffected: apart from these
    three effects the poll does exactly what it does on the readings
    without the battery ones. *)
Theorem malformed_battery_not_guarded (cfg : Config) (st : Accessory)
    (sensors : list Sensor) (s : Sensor) :
  find_sensor "battery" sensors = Some s ->
  parseInt (value s) = NaN ->
  let rest := filter not_battery sensors in
  let battery :=
    [UpdateValue BatteryLevelC NaN;
     UpdateValue StatusLowBatteryC (Num StatusLowBattery.BATTERY_LEVEL_LOW);
     Log Info (MsgBattery NaN)] in
  emitted (setBatteryLevel sensors) st = battery /\
  toLockState sensors = toLockState rest /\
  step cfg st (poll_done sensors) = step cfg st (poll_done rest) /\
  output cfg st (poll_done sensors) = battery ++ output cfg st (poll_done rest).
Proof.
  intros Hfind Hnan. cbv zeta.
  assert (Hb : emitted (setBatteryLevel sensors) st =
               [UpdateValue BatteryLevelC NaN;
                UpdateValue StatusLowBatteryC (Num StatusLowBattery.BATTERY_LEVEL_LOW);
                Log Info (MsgBattery NaN)]).
  { unfold emitted, setBatteryLevel. rewrite Hfind. cbv zeta. rewrite Hnan. reflexivity. }
  assert (Hr : emitted (setBatteryLevel (filter not_battery sensors)) st = []).
  { unfold emitted, setBatteryLevel. rewrite find_battery_filter. reflexivity. }
  split; [exact Hb|]. split; [symmetry; apply toLockState_filter|]. split.
  - unfold step, poll_done. cbn [handle_event].
    fold (exec (poll_resume cfg (Resolved sensors)) st).
    fold (exec (poll_resume cfg (Resolved (filter not_battery sensors))) st).
    rewrite !poll_resume_exec, toLockState_filter. reflexivity.
  - unfold output, poll_done. cbn [handle_event].
    fold (emitted (poll_resume cfg (Resolved sensors)) st).
    fold (emitted (poll_resume cfg (Resolved (filter not_battery sensors))) st).
    rewrite !poll_resume_emitted, toLockState_filter, Hb, Hr. reflexivity.
Qed.

(** C8, as stated, fails: on a poll whose battery reading is "n/a" the
    battery attributes are updated and no failure is logged. *)
Lemma malformed_battery_is_written :
  let st := run sample_config [TimerFired 0%nat] (new_accessory sample_config) in
  let out := output sample_config st
               (poll_done [lock_reading "locked"; battery_reading "n/a"]) in
  parseInt "n/a" = NaN /\
  In (UpdateValue BatteryLevelC NaN) out /\
  In (UpdateValue StatusLowBatteryC (Num StatusLowBattery.BATTERY_LEVEL_LOW)) out /\
  existsb is_battery_update out = true /\
  existsb is_failure_log out = false.
Proof.
  cbv zeta. split; [reflexivity|].
  split; [vm_compute; tauto|]. split; [vm_compute; tauto|].
  split; reflexivity.
Qed.

(** ** Failing queries *)

Lemma find_poll_timer st :
  WF st ->
  exists t, find (fun x => Nat.eqb (handle x) 0%nat) (timers st) = Some t /\
            callback t = PollCb /\ repeat t = true.
Proof.
  intros H. destruct (existsb_poll_handle st H) as [tp [Hin [_ Hp0]]].
  destruct (find (fun x => Nat.eqb (handle x) 0%nat) (timers st)) as [t|] eqn:Hfind.
  - exists t. split; [reflexivity|].
    apply find_some in Hfind. destruct Hfind as [Hint Hh]. apply Nat.eqb_eq in Hh.
    pose proof (proj1 (Forall_forall _ _) (wf_owned st H) t Hint) as [_ Ho].
    destruct (callback t).
    + destruct Ho as [_ Hr]. auto.
    + exfalso. apply (wf_watchdog_pos st H). rewrite (proj1 Ho), Hh. reflexivity.
    + exfalso. apply (wf_autoLock_pos st H). rewrite (proj1 Ho), Hh. reflexivity.
  - exfalso. pose proof (find_none _ _ Hfind tp Hin) as Hno. cbn in Hno.
    rewrite Hp0 in Hno. discriminate.
Qed.

(** C9 (amended). A failing sensor query of a poll is logged and
    swallowed and changes no state, and the poll interval stays
    registered, so the next tick queries again.  A failing on-demand
    read by HomeKit (of the current state, or of the target when it
    falls back on the current state) changes no state either, but it is
    neither logged nor swallowed: the error goes back to HomeKit's get
    handler. *)
Theorem failed_query_changes_nothing (cfg : Config) (evs : list Event) (err : string) :
  let st := run cfg evs (new_accessory cfg) in
  handle_event cfg (SensorsSettled InPoll (Rejected err)) st =
    (Returned tt, st, [Log Warn (MsgFetchFailed err)]) /\
  handle_event cfg (SensorsSettled InGetLockState (Rejected err)) st =
    (Thrown err, st, []) /\
  handle_event cfg (SensorsSettled InGetTargetLockState (Rejected err)) st =
    (Thrown err, st, []) /\
  pollArmed st = true /\
  handle_event cfg (TimerFired 0%nat) st =
    (Returned tt, st, [CallSensors (lockID cfg) InPoll]).
Proof.
  cbv zeta. pose proof (WF_run cfg evs _ (WF_new cfg)) as Hwf.
  set (st := run cfg evs (new_accessory cfg)) in *.
  repeat (split; [reflexivity|]). split; [exact (wf_poll st Hwf)|].
  destruct (find_poll_timer st Hwf) as [t [Hfind [Hcb Hrep]]].
  cbn [handle_event]. unfold fire. unfold bind at 1. unfold get at 1.
  rewrite Hfind, Hcb, Hrep. reflexivity.
Qed.

(** C9, as stated, fails for the on-demand state read: its error is
    neither logged nor swallowed. *)
Lemma failed_state_read_propagates :
  let st := run sample_config [OnGetLockCurrentState] (new_accessory sample_config) in
  let r := handle_event sample_config
             (SensorsSettled InGetLockState (Rejected "ETIMEDOUT")) st in
  r = (Thrown "ETIMEDOUT", st, []) /\
  outcome (handle_event sample_config
             (SensorsSettled InGetLockState (Rejected "ETIMEDOUT"))) st <> Returned tt /\
  existsb is_failure_log (snd r) = false.
Proof.
  cbv zeta. split; [reflexivity|]. split; [|reflexivity].
  cbv. discriminate.
Qed.

(** ** Auto-Lock Scheduler *)

Lemma no_new_autoLock_refl st : no_new_autoLock st st.
Proof. intros t Hin _. exact Hin. Qed.

Lemma no_new_autoLock_same st st' :
  timers st' = timers st -> no_new_autoLock st st'.
Proof. intros Heq t Hin _. rewrite <- Heq. exact Hin. Qed.

Lemma no_new_autoLock_trans st1 st2 st3 :
  no_new_autoLock st1 st2 -> no_new_autoLock st2 st3 -> no_new_autoLock st1 st3.
Proof. intros H12 H23 t Hin Ht. apply H12; [apply H23|]; assumption. Qed.

Lemma no_new_autoLock_armed st st' :
  no_new_autoLock st st' -> autoLockArmed st' = true -> autoLockArmed st = true.
Proof.
  unfold autoLockArmed. intros Hsub Harmed.
  apply existsb_exists in Harmed. destruct Harmed as [t [Hin Ht]].
  apply existsb_exists. exists t. auto.
Qed.

Lemma no_new_autoLock_setTargetLockState cfg v st :
  no_new_autoLock st (exec (setTargetLockState cfg v) st).
Proof.
  rewrite setTargetLockState_exec.
  destruct (_ && _)%bool; [apply no_new_autoLock_refl|].
  destruct (inFlight st); [apply no_new_autoLock_same; reflexivity|].
  intros t Hin Ht. cbn in Hin. apply in_app_iff in Hin.
  destruct Hin as [Hin|[<-|[]]]; [exact (in_without_in _ _ _ Hin)|discriminate Ht].
Qed.

Lemma no_new_autoLock_completionCheck c st :
  no_new_autoLock st (exec (completionCheck c) st).
Proof.
  rewrite completionCheck_exec.
  destruct (_ && _)%bool; [|apply no_new_autoLock_refl].
  intros t Hin _. exact (in_without_in _ _ _ Hin).
Qed.

Lemma no_new_autoLock_fire cfg h st :
  no_new_autoLock st (exec (fire cfg h) st).
Proof.
  rewrite fire_exec. destruct (find _ (timers st)) as [t|]; [|apply no_new_autoLock_refl].
  assert (H1 : no_new_autoLock st
                 (if repeat t then st else set_timers (without (Some h) (timers st)) st)).
  { destruct (repeat t); [apply no_new_autoLock_refl|].
    intros x Hin _. exact (in_without_in _ _ _ Hin). }
  cbv zeta. destruct (callback t).
  - exact H1.
  - eapply no_new_autoLock_trans; [exact H1|apply no_new_autoLock_same; reflexivity].
  - eapply no_new_autoLock_trans; [exact H1|apply no_new_autoLock_setTargetLockState].
Qed.

(** Only a poll that observes UNSECURED can arm the auto-lock timer. *)
Lemma no_new_autoLock_step cfg st ev :
  polled_is LockCurrentState.UNSECURED ev = false ->
  no_new_autoLock st (step cfg st ev).
Proof.
  intros Hp. unfold step. fold (exec (handle_event cfg ev) st).
  destruct ev as [| |v|h|k r|r].
  - apply no_new_autoLock_refl.
  - cbn [handle_event]. unfold getTargetLockState, exec, bind, get. cbn.
    destruct (desiredTarget st); apply no_new_autoLock_refl.
  - apply no_new_autoLock_setTargetLockState.
  - apply no_new_autoLock_fire.
  - destruct k.
    + cbn [handle_event]. rewrite poll_resume_exec.
      destruct r as [sensors|]; [|apply no_new_autoLock_refl].
      eapply no_new_autoLock_trans; [|apply no_new_autoLock_completionCheck].
      rewrite maintainAutoLock_exec. unfold polled_is in Hp. cbn in Hp. rewrite Hp.
      destruct (toLockState sensors =? LockCurrentState.SECURED);
        [|apply no_new_autoLock_refl].
      intros t Hin _. exact (in_without_in _ _ _ Hin).
    + rewrite read_resume_exec by auto. apply no_new_autoLock_refl.
    + rewrite read_resume_exec by auto. apply no_new_autoLock_refl.
    + cbn [handle_event]. rewrite reconcileTargetWithCurrent_resume_exec.
      destruct r; [apply no_new_autoLock_same; reflexivity|apply no_new_autoLock_refl].
  - cbn [handle_event]. rewrite sendLockCommand_resume_exec.
    destruct r; [apply no_new_autoLock_refl|apply no_new_autoLock_same; reflexivity].
Qed.

(** A poll that observes SECURED leaves no auto-lock timer pending and
    clears the stored handle. *)
Lemma poll_secured_cancels cfg st sensors :
  WF st ->
  toLockState sensors = LockCurrentState.SECURED ->
  let st' := step cfg st (poll_done sensors) in
  autoLockArmed st' = false /\ autoLockTimer st' = None.
Proof.
  intros H Hs. cbv zeta. unfold step, poll_done. cbn [handle_event].
  fold (exec (poll_resume cfg (Resolved sensors)) st).
  rewrite poll_resume_exec, Hs.
  set (st1 := exec (maintainAutoLock cfg LockCurrentState.SECURED) st).
  assert (H1 : autoLockArmed st1 = false /\ autoLockTimer st1 = None).
  { unfold st1. rewrite maintainAutoLock_exec. cbn. split; [|reflexivity].
    unfold autoLockArmed. cbn. apply no_autoLock_after_clear, H. }
  destruct H1 as [Harmed Hfield]. split.
  - destruct (autoLockArmed (exec (completionCheck LockCurrentState.SECURED) st1)) eqn:Ha;
      [|reflexivity].
    rewrite <- Harmed. symmetry.
    exact (no_new_autoLock_armed _ _ (no_new_autoLock_completionCheck _ st1) Ha).
  - rewrite completionCheck_exec. destruct (_ && _)%bool; exact Hfield.
Qed.

Lemma polled_is_inv state ev :
  polled_is state ev = true ->
  exists sensors, ev = poll_done sensors /\ toLockState sensors = state.
Proof.
  unfold polled_is, polled. destruct ev as [| |v|h|k r|r]; try discriminate.
  destruct k; try discriminate. destruct r as [sensors|]; try discriminate.
  intros H. apply Z.eqb_eq in H. exists sensors. split; [reflexivity|exact H].
Qed.




(** *** After the auto-lock timer has fired *)

Lemma quiet_ret {A} (a : A) : quiet (ret a).
Proof. intros st []. Qed.

Lemma quiet_throw {A} err : quiet (@throw A err).
Proof. intros st []. Qed.

Lemma quiet_get : quiet get.
Proof. intros st []. Qed.

Lemma quiet_modify f : quiet (modify f).
Proof. intros st []. Qed.

Lemma quiet_emit e : e <> relock_attempt -> quiet (emit e).
Proof. intros He st [Heq|[]]. exact (He Heq). Qed.

Lemma quiet_await {A} (r : Settled A) : quiet (await r).
Proof. destruct r; [apply quiet_ret|apply quiet_throw]. Qed.

Lemma quiet_bind {A B} (m : M A) (f : A -> M B) :
  quiet m -> (forall a, quiet (f a)) -> quiet (bind m f).
Proof.
  intros Hm Hf st. specialize (Hm st). unfold emitted, bind in *.
  destruct (m st) as [[[a|err] st1] out1]; cbn in *; [|exact Hm].
  specialize (Hf a st1). unfold emitted in Hf.
  destruct (f a st1) as [[o2 st2] out2]; cbn in *.
  intros Hin. apply in_app_iff in Hin. tauto.
Qed.

Lemma quiet_try_catch {A} (m : M A) h :
  quiet m -> (forall e, quiet (h e)) -> quiet (try_catch m h).
Proof.
  intros Hm Hh st. specialize (Hm st). unfold emitted, try_catch in *.
  destruct (m st) as [[[a|err] st1] out1]; cbn in *; [exact Hm|].
  specialize (Hh err st1). unfold emitted in Hh.
  destruct (h err st1) as [[o2 st2] out2]; cbn in *.
  intros Hin. apply in_app_iff in Hin. tauto.
Qed.

Ltac quiet_tac :=
  repeat first
    [ apply quiet_ret | apply quiet_throw | apply quiet_get | apply quiet_modify
    | apply quiet_await
    | apply quiet_emit; discriminate
    | apply quiet_bind; [|intros ?]
    | apply quiet_try_catch; [|intros ?]
    | match goal with
      | |- quiet (match ?x with _ => _ end) => destruct x
      | |- quiet (if ?x then _ else _) => destruct x
      end ].

Lemma quiet_setBatteryLevel sensors : quiet (setBatteryLevel sensors).
Proof. unfold setBatteryLevel, log. quiet_tac. Qed.

Lemma quiet_setTargetLockState cfg v : quiet (setTargetLockState cfg v).
Proof.
  unfold setTargetLockState, sendLockCommand, startWatchdog, setTimeout, clearTimeout, log.
  quiet_tac.
Qed.

Lemma quiet_poll_resume cfg r : quiet (poll_resume cfg r).
Proof.
  unfold poll_resume, maintainAutoLock, completionCheck, startAutoLockTimer,
    cancelAutoLockTimer, setTimeout, clearTimeout, log.
  quiet_tac; apply quiet_setBatteryLevel.
Qed.

Lemma fire_emitted cfg h st :
  emitted (fire cfg h) st =
  match find (fun t => Nat.eqb (handle t) h) (timers st) with
  | None => []
  | Some t =>
      emitted ((if repeat t then ret tt else clearTimeout h) ;;
               run_callback cfg (callback t)) st
  end.
Proof.
  unfold fire. rewrite (emitted_bind _ _ st st) by reflexivity.
  change (exec get st) with st. cbn [emitted get snd app].
  destruct (find _ (timers st)); reflexivity.
Qed.

(** A relock attempt is announced only when a pending auto-lock timer fires. *)
Lemma relock_attempt_needs_armed cfg st ev :
  In relock_attempt (output cfg st ev) -> autoLockArmed st = true.
Proof.
  unfold output. fold (emitted (handle_event cfg ev) st).
  destruct ev as [| |v|h|k r|r]; cbn [handle_event]; intros Hin.
  - exfalso. revert Hin. apply quiet_emit. discriminate.
  - exfalso. revert Hin. unfold getTargetLockState, getLockState. quiet_tac.
  - exfalso. revert Hin. apply quiet_setTargetLockState.
  - rewrite fire_emitted in Hin.
    destruct (find _ (timers st)) as [t|] eqn:Hfind; [|destruct Hin].
    apply find_some in Hfind. destruct Hfind as [Ht _].
    destruct (callback t) eqn:Hcb.
    + exfalso. revert Hin.
      unfold run_callback, poll, clearTimeout. quiet_tac.
    + exfalso. revert Hin.
      unfold run_callback, watchdog_callback, reconcileTargetWithCurrent, getLockState,
        clearTimeout, log. quiet_tac.
    + apply existsb_exists. exists t. split; [exact Ht|].
      unfold is_autoLock. rewrite Hcb. reflexivity.
  - exfalso. revert Hin. destruct k.
    + apply quiet_poll_resume.
    + quiet_tac; apply quiet_setBatteryLevel.
    + quiet_tac; apply quiet_setBatteryLevel.
    + quiet_tac; apply quiet_setBatteryLevel.
  - exfalso. revert Hin.
    unfold sendLockCommand_resume, reconcileTargetWithCurrent, getLockState, log. quiet_tac.
Qed.

Lemma autoLockTimer_setTargetLockState cfg v st :
  autoLockTimer (exec (setTargetLockState cfg v) st) = autoLockTimer st.
Proof.
  rewrite setTargetLockState_exec.
  destruct (_ && _)%bool; [reflexivity|]. destruct (inFlight st); reflexivity.
Qed.

Lemma autoLockTimer_completionCheck c st :
  autoLockTimer (exec (completionCheck c) st) = autoLockTimer st.
Proof.
  rewrite completionCheck_exec. destruct (_ && _)%bool; reflexivity.
Qed.

(** While no poll observes SECURED, a stored auto-lock handle stays. *)
Lemma autoLockTimer_step cfg st ev h :
  autoLockTimer st = Some h ->
  polled_is LockCurrentState.SECURED ev = false ->
  autoLockTimer (step cfg st ev) = Some h.
Proof.
  intros Ha Hp. unfold step. fold (exec (handle_event cfg ev) st).
  destruct ev as [| |v|h'|k r|r].
  - exact Ha.
  - cbn [handle_event]. unfold getTargetLockState, exec, bind, get. cbn.
    destruct (desiredTarget st); exact Ha.
  - cbn [handle_event]. rewrite autoLockTimer_setTargetLockState. exact Ha.
  - cbn [handle_event]. rewrite fire_exec.
    destruct (find _ (timers st)) as [t|]; [|exact Ha].
    cbv zeta. destruct (callback t); [| |rewrite autoLockTimer_setTargetLockState];
      destruct (repeat t); exact Ha.
  - destruct k.
    + cbn [handle_event]. rewrite poll_resume_exec. destruct r as [sensors|]; [|exact Ha].
      rewrite autoLockTimer_completionCheck, maintainAutoLock_exec, Ha.
      unfold polled_is in Hp. cbn in Hp. rewrite Hp.
      destruct (toLockState sensors =? LockCurrentState.UNSECURED); exact Ha.
    + rewrite read_resume_exec by auto. exact Ha.
    + rewrite read_resume_exec by auto. exact Ha.
    + cbn [handle_event]. rewrite reconcileTargetWithCurrent_resume_exec.
      destruct r; exact Ha.
  - cbn [handle_event]. rewrite sendLockCommand_resume_exec. destruct r; exact Ha.
Qed.

(** With a handle stored, no event but a poll observing SECURED brings
    an auto-lock timer into the event loop. *)
Lemma stale_handle_blocks cfg st ev h :
  autoLockTimer st = Some h ->
  polled_is LockCurrentState.SECURED ev = false ->
  no_new_autoLock st (step cfg st ev).
Proof.
  intros Ha Hp.
  destruct (polled_is LockCurrentState.UNSECURED ev) eqn:Hu;
    [|apply no_new_autoLock_step, Hu].
  destruct (polled_is_inv _ _ Hu) as [sensors [-> Hs]].
  unfold step, poll_done. cbn [handle_event].
  fold (exec (poll_resume cfg (Resolved sensors)) st).
  rewrite poll_resume_exec.
  eapply no_new_autoLock_trans; [|apply no_new_autoLock_completionCheck].
  rewrite maintainAutoLock_exec, Hs, Ha. apply no_new_autoLock_refl.
Qed.

Lemma stale_handle_run cfg h evs :
  forall st,
    autoLockTimer st = Some h ->
    autoLockArmed st = false ->
    forallb (fun ev => negb (polled_is LockCurrentState.SECURED ev)) evs = true ->
    autoLockTimer (run cfg evs st) = Some h /\
    autoLockArmed (run cfg evs st) = false /\
    ~ In relock_attempt (trace cfg evs st).
Proof.
  induction evs as [|ev evs IH]; intros st Ha Hno Hevs; cbn in *.
  - repeat split; auto.
  - apply andb_true_iff in Hevs. destruct Hevs as [Hev Hevs].
    apply negb_true_iff in Hev.
    assert (Hno' : autoLockArmed (step cfg st ev) = false).
    { destruct (autoLockArmed (step cfg st ev)) eqn:Hstep; [|reflexivity].
      rewrite <- Hno. symmetry.
      exact (no_new_autoLock_armed _ _ (stale_handle_blocks cfg st ev h Ha Hev) Hstep). }
    destruct (IH _ (autoLockTimer_step cfg st ev h Ha Hev) Hno' Hevs) as [H1 [H2 H3]].
    repeat split; auto.
    intros Hin. apply in_app_iff in Hin. destruct Hin as [Hin|Hin]; [|exact (H3 Hin)].
    apply relock_attempt_needs_armed in Hin. rewrite Hin in Hno. discriminate.
Qed.

Lemma autoLock_survives st o x :
  In x (timers st) -> is_autoLock x = true ->
  (forall h, o = Some h -> handle x <> h) ->
  existsb is_autoLock (without o (timers st)) = true.
Proof.
  intros Hin Hx Hne. apply existsb_exists. exists x. split; [|exact Hx].
  apply without_keeps; assumption.
Qed.

(** With no handle stored and a positive delay, a poll that observes
    UNSECURED arms the auto-lock timer. *)
Lemma poll_unsecured_arms cfg st sensors :
  WF st ->
  autoLockTimer st = None ->
  0 < autoLockMinutes cfg ->
  toLockState sensors = LockCurrentState.UNSECURED ->
  autoLockArmed (step cfg st (poll_done sensors)) = true.
Proof.
  intros H Ha Hpos Hs. unfold step, poll_done. cbn [handle_event].
  fold (exec (poll_resume cfg (Resolved sensors)) st).
  rewrite poll_resume_exec, Hs.
  pose proof (WF_maintainAutoLock cfg LockCurrentState.UNSECURED st H) as H1.
  revert H1. rewrite maintainAutoLock_exec. cbn. rewrite Ha.
  destruct (Z.leb_spec (autoLockMinutes cfg) 0) as [Hle|_]; [lia|].
  set (x := mkTimer (nextHandle st) AutoLockCb (autoLockMinutes cfg * 60 * 1000) false).
  intros H1. rewrite completionCheck_exec.
  destruct (_ && _)%bool.
  - unfold autoLockArmed. cbn [timers watchdog].
    apply (autoLock_survives
             (mkAccessory (inFlight st) (desiredTarget st) (pollTimer st) (watchdog st)
                (Some (nextHandle st)) (timers st ++ [x]) (S (nextHandle st)))
             (watchdog st) x).
    + cbn. apply in_app_iff. right. left. reflexivity.
    + reflexivity.
    + intros h Hw Heq. pose proof (wf_watchdog_older st H) as Hold.
      rewrite Hw in Hold. cbn in Hold, Heq. lia.
  - unfold autoLockArmed. cbn. rewrite existsb_app. cbn. apply orb_true_r.
Qed.

(** C10. Once a pending auto-lock timer has fired (announcing one
    relock attempt), its handle stays in the field: whatever happens
    next, as long as no poll observes SECURED, the handle is still
    stored, no auto-lock timer is pending and no further relock attempt
    is announced.  The next poll that observes SECURED clears the
    handle, after which a poll that observes UNSECURED arms the timer
    again (for a positive delay). *)
Theorem autoLock_once_per_cycle (cfg : Config) (evs evs' : list Event) (t : Timer)
    (sensors sensors' : list Sensor) :
  let st := run cfg evs (new_accessory cfg) in
  find (fun x => Nat.eqb (handle x) (handle t)) (timers st) = Some t ->
  callback t = AutoLockCb ->
  forallb (fun ev => negb (polled_is LockCurrentState.SECURED ev)) evs' = true ->
  toLockState sensors = LockCurrentState.SECURED ->
  toLockState sensors' = LockCurrentState.UNSECURED ->
  0 < autoLockMinutes cfg ->
  let fired := step cfg st (TimerFired (handle t)) in
  let later := run cfg evs' fired in
  let cancelled := step cfg later (poll_done sensors) in
  In relock_attempt (output cfg st (TimerFired (handle t))) /\
  autoLockTimer later = Some (handle t) /\
  autoLockArmed later = false /\
  ~ In relock_attempt (trace cfg evs' fired) /\
  autoLockTimer cancelled = None /\
  autoLockArmed (step cfg cancelled (poll_done sensors')) = true.
Proof.
  cbv zeta. intros Hfind Hcb Hevs Hs Hs' Hpos.
  pose proof (WF_run cfg evs _ (WF_new cfg)) as Hwf.
  set (st := run cfg evs (new_accessory cfg)) in *.
  pose proof (find_some _ _ Hfind) as [Hin _].
  pose proof (proj1 (Forall_forall _ _) (wf_owned st Hwf) t Hin) as [_ Ho].
  rewrite Hcb in Ho. destruct Ho as [Ha Hrep].
  pose proof (WF_step cfg st (TimerFired (handle t)) Hwf) as Hwf1.
  set (fired := step cfg st (TimerFired (handle t))) in *.
  assert (Hfired : autoLockTimer fired = Some (handle t) /\ autoLockArmed fired = false).
  { unfold fired, step. cbn [handle_event]. fold (exec (fire cfg (handle t)) st).
    rewrite fire_exec, Hfind, Hcb, Hrep. cbv zeta.
    set (st1 := set_timers (without (Some (handle t)) (timers st)) st).
    split.
    - rewrite autoLockTimer_setTargetLockState. exact Ha.
    - destruct (autoLockArmed (exec (setTargetLockState cfg _ ) st1)) eqn:Harmed;
        [|reflexivity].
      apply (no_new_autoLock_armed _ _ (no_new_autoLock_setTargetLockState cfg _ st1))
        in Harmed.
      unfold autoLockArmed, st1 in Harmed. cbn [timers set_timers] in Harmed.
      rewrite <- Ha, no_autoLock_after_clear in Harmed by exact Hwf. discriminate. }
  destruct Hfired as [Hfa Hfno].
  destruct (stale_handle_run cfg (handle t) evs' fired Hfa Hfno Hevs) as [H1 [H2 H3]].
  pose proof (WF_run cfg evs' fired Hwf1) as Hwf2.
  destruct (poll_secured_cancels cfg _ sensors Hwf2 Hs) as [_ Hnone].
  split; [|repeat split; auto].
  - unfold output. cbn [handle_event]. fold (emitted (fire cfg (handle t)) st).
    rewrite fire_emitted, Hfind, Hcb, Hrep.
    rewrite (emitted_bind _ _ st tt) by reflexivity.
    apply in_app_iff. right. cbn [run_callback]. unfold autoLock_callback.
    rewrite (emitted_bind _ _ _ tt) by reflexivity.
    left. reflexivity.
  - apply poll_unsecured_arms; auto. apply WF_step, Hwf2.
Qed.

(** ** Concrete runs *)

Lemma toLockState_spec_witness :
  toLockState [battery_reading "80"] = LockCurrentState.UNKNOWN /\
  toLockState ([battery_reading "80"] ++ lock_reading "locked" :: [lock_reading "unlocked"])
    = LockCurrentState.SECURED.
Proof.
  assert (Hpre : Forall (fun x => sensorType x <> "lock") [battery_reading "80"]).
  { constructor; [discriminate|constructor]. }
  destruct (toLockState_spec [battery_reading "80"] [lock_reading "unlocked"] []
              (lock_reading "locked") Hpre eq_refl) as [H1 [H2 _]].
  split; [exact H1|apply H2; reflexivity].
Defined.

Lemma setTargetLockState_changed_mid_flight_witness :
  let st := run sample_config [OnSetLockTargetState secured] (new_accessory sample_config) in
  inFlight st = true /\
  desiredTarget (step sample_config st (OnSetLockTargetState unsecured))
    = Some LockTargetState.UNSECURED /\
  dispatches (output sample_config st (OnSetLockTargetState unsecured)) = 0%nat /\
  timers (step sample_config st (OnSetLockTargetState unsecured)) = timers st.
Proof.
  cbv zeta.
  assert (Hf : inFlight (run sample_config [OnSetLockTargetState secured]
                           (new_accessory sample_config)) = true) by reflexivity.
  assert (Hd : desiredTarget (run sample_config [OnSetLockTargetState secured]
                                (new_accessory sample_config))
               <> Some (requested unsecured)) by (vm_compute; discriminate).
  destruct (setTargetLockState_changed_mid_flight sample_config _ unsecured Hf Hd)
    as [H1 [_ [H3 [_ [_ [H6 _]]]]]].
  split; [exact Hf|]. split; [exact H1|]. split; [exact H3|exact H6].
Defined.

Lemma setTargetLockState_twice_witness :
  dispatches (trace sample_config [OnSetLockTargetState secured; OnSetLockTargetState secured]
                (new_accessory sample_config)) = 1%nat.
Proof.
  exact (proj1 (proj2 (setTargetLockState_twice sample_config
                         (new_accessory sample_config) secured eq_refl))).
Defined.

Lemma poll_completes_session_witness :
  let st := run sample_config
              [OnSetLockTargetState secured; ToggleLockSettled (Resolved tt);
               TimerFired 0%nat]
              (new_accessory sample_config) in
  let st' := step sample_config st (poll_done [lock_reading "locked"]) in
  inFlight st = true /\ inFlight st' = false /\ watchdogArmed st' = false.
Proof.
  cbv zeta.
  pose proof (poll_completes_session sample_config
                [OnSetLockTargetState secured; ToggleLockSettled (Resolved tt);
                 TimerFired 0%nat]
                LockTargetState.SECURED [lock_reading "locked"] "ETIMEDOUT"
                eq_refl eq_refl) as [H _].
  split; [reflexivity|]. exact (H eq_refl).
Defined.

Lemma watchdog_lifecycle_witness :
  let st1 := run sample_config [OnSetLockTargetState secured] (new_accessory sample_config) in
  let expired := step sample_config st1 (TimerFired 1%nat) in
  In (mkTimer 1%nat WatchdogCb 10000 false) (timers st1) /\
  inFlight expired = false /\
  watchdogArmed expired = false /\
  desiredTarget (step sample_config expired
                   (SensorsSettled InReconcile (Resolved [lock_reading "unlocked"])))
    = Some LockTargetState.UNSECURED.
Proof.
  cbv zeta.
  pose proof (watchdog_lifecycle sample_config [] [OnSetLockTargetState secured]
                (OnSetLockTargetState secured)
                (mkTimer 1%nat WatchdogCb 10000 false) [lock_reading "unlocked"]
                (step sample_config
                   (run sample_config [OnSetLockTargetState secured]
                      (new_accessory sample_config))
                   (TimerFired 1%nat))
                eq_refl eq_refl eq_refl eq_refl) as [[_ [H3 _]] [[H4 [H5 _]] [H7 _]]].
  split; [exact H3|]. split; [exact H4|]. split; [exact H5|exact H7].
Defined.

Lemma dispatch_failure_leaves_watchdog_armed_witness :
  let st := run sample_config
              [OnSetLockTargetState secured; ToggleLockSettled (Rejected "ECONNRESET")]
              (new_accessory sample_config) in
  inFlight st = false /\ watchdogArmed st = true.
Proof.
  exact (dispatch_failure_leaves_watchdog_armed sample_config
           (new_accessory sample_config) secured "ECONNRESET" eq_refl).
Defined.

Lemma malformed_battery_not_guarded_witness :
  let sensors := [lock_reading "locked"; battery_reading "n/a"] in
  let st := new_accessory sample_config in
  parseInt "n/a" = NaN /\
  emitted (setBatteryLevel sensors) st =
    [UpdateValue BatteryLevelC NaN;
     UpdateValue StatusLowBatteryC (Num StatusLowBattery.BATTERY_LEVEL_LOW);
     Log Info (MsgBattery NaN)] /\
  step sample_config st (poll_done sensors)
    = step sample_config st (poll_done [lock_reading "locked"]).
Proof.
  cbv zeta.
  destruct (malformed_battery_not_guarded sample_config (new_accessory sample_config)
              [lock_reading "locked"; battery_reading "n/a"] (battery_reading "n/a")
              eq_refl eq_refl) as [H1 [_ [H3 _]]].
  split; [reflexivity|]. split; [exact H1|exact H3].
Defined.


Lemma autoLock_once_per_cycle_witness :
  let st := run sample_config [TimerFired 0%nat; poll_done [lock_reading "unlocked"]]
              (new_accessory sample_config) in
  let fired := step sample_config st (TimerFired 1%nat) in
  let later := run sample_config
                 [TimerFired 0%nat; poll_done [lock_reading "unlocked"];
                  ToggleLockSettled (Resolved tt)] fired in
  autoLockArmed st = true /\
  autoLockTimer later = Some 1%nat /\
  autoLockArmed later = false /\
  autoLockTimer (step sample_config later (poll_done [lock_reading "locked"])) = None.
Proof.
  cbv zeta.
  assert (Hpos : 0 < autoLockMinutes sample_config) by (cbn; lia).
  destruct (autoLock_once_per_cycle sample_config
              [TimerFired 0%nat; poll_done [lock_reading "unlocked"]]
              [TimerFired 0%nat; poll_done [lock_reading "unlocked"];
               ToggleLockSettled (Resolved tt)]
              (mkTimer 1%nat AutoLockCb 60000 false)
              [lock_reading "locked"] [lock_reading "unlocked"]
              eq_refl eq_refl eq_refl eq_refl eq_refl Hpos)
    as [_ [H2 [H3 [_ [H5 _]]]]].
  split; [reflexivity|]. split; [exact H2|]. split; [exact H3|exact H5].
Defined.

(** * Further properties of the accessory *)

(** ** Effects a computation never has *)

Lemma never_ret p {A} (a : A) : never p (ret a).
Proof. intros st e []. Qed.

Lemma never_throw p {A} err : never p (@throw A err).
Proof. intros st e []. Qed.

Lemma never_get p : never p get.
Proof. intros st e []. Qed.

Lemma never_modify p f : never p (modify f).
Proof. intros st e []. Qed.

Lemma never_emit p e : p e = false -> never p (emit e).
Proof. intros He st e' [<-|[]]. exact He. Qed.

Lemma never_await p {A} (r : Settled A) : never p (await r).
Proof. destruct r; [apply never_ret|apply never_throw]. Qed.

Lemma never_bind p {A B} (m : M A) (f : A -> M B) :
  never p m -> (forall a, never p (f a)) -> never p (bind m f).
Proof.
  intros Hm Hf st e. specialize (Hm st e). unfold emitted, bind in *.
  destruct (m st) as [[[a|err] st1] out1]; cbn in *; [|exact Hm].
  specialize (Hf a st1 e). unfold emitted in Hf.
  destruct (f a st1) as [[o2 st2] out2]; cbn in *.
  intros Hin. apply in_app_iff in Hin. destruct Hin; auto.
Qed.

Lemma never_try_catch p {A} (m : M A) h :
  never p m -> (forall e, never p (h e)) -> never p (try_catch m h).
Proof.
  intros Hm Hh st e. specialize (Hm st e). unfold emitted, try_catch in *.
  destruct (m st) as [[[a|err] st1] out1]; cbn in *; [exact Hm|].
  specialize (Hh err st1 e). unfold emitted in Hh.
  destruct (h err st1) as [[o2 st2] out2]; cbn in *.
  intros Hin. apply in_app_iff in Hin. destruct Hin; auto.
Qed.

Ltac never_tac :=
  repeat first
    [ apply never_ret | apply never_throw | apply never_get | apply never_modify
    | apply never_await
    | apply never_emit; reflexivity
    | apply never_bind; [|intros ?]
    | apply never_try_catch; [|intros ?]
    | match goal with
      | |- never _ (match ?x with _ => _ end) => destruct x
      | |- never _ (if ?x then _ else _) => destruct x
      end ].

Lemma never_dispatch_setBatteryLevel sensors : never is_dispatch (setBatteryLevel sensors).
Proof. unfold setBatteryLevel, log. never_tac. Qed.

Lemma never_dispatch_poll_resume cfg r : never is_dispatch (poll_resume cfg r).
Proof.
  unfold poll_resume, maintainAutoLock, completionCheck, startAutoLockTimer,
    cancelAutoLockTimer, setTimeout, clearTimeout, log.
  never_tac; apply never_dispatch_setBatteryLevel.
Qed.

Lemma getTargetLockState_exec cfg st :
  exec (handle_event cfg OnGetLockTargetState) st = st.
Proof.
  cbn [handle_event]. unfold getTargetLockState, exec, bind, get. cbn.
  destruct (desiredTarget st); reflexivity.
Qed.

Lemma autoLock_callback_emitted cfg st :
  emitted (autoLock_callback cfg) st =
  relock_attempt :: emitted (setTargetLockState cfg secured) st.
Proof.
  unfold autoLock_callback.
  rewrite (emitted_bind _ _ st tt) by reflexivity.
  change (exec (log Info MsgAutoLockElapsed) st) with st.
  unfold emitted at 2.
  rewrite (try_catch_returned _ _ _ tt (setTargetLockState_outcome cfg _ _)).
  reflexivity.
Qed.

(** What firing a pending auto-lock timer emits. *)
Lemma fire_autoLock_emitted cfg st h t :
  find (fun x => Nat.eqb (handle x) h) (timers st) = Some t ->
  callback t = AutoLockCb ->
  emitted (fire cfg h) st =
  relock_attempt ::
  emitted (setTargetLockState cfg secured)
    (if repeat t then st else set_timers (without (Some h) (timers st)) st).
Proof.
  intros Hfind Hcb. rewrite fire_emitted, Hfind, Hcb. cbn [run_callback].
  assert (Hpre : outcome (if repeat t then ret tt else clearTimeout h) st = Returned tt)
    by (destruct (repeat t); reflexivity).
  rewrite (emitted_bind _ _ st tt Hpre), autoLock_callback_emitted.
  destruct (repeat t); reflexivity.
Qed.

(** ** Single flight *)

Lemma requested_cases v :
  (requested v = LockTargetState.SECURED /\ (requested v =? LockTargetState.SECURED) = true) \/
  (requested v = LockTargetState.UNSECURED /\ (requested v =? LockTargetState.SECURED) = false).
Proof. unfold requested. destruct (cv_is v LockTargetState.SECURED); auto. Qed.

Lemma setTargetLockState_dispatch cfg v st b id :
  In (CallToggleLock b id) (emitted (setTargetLockState cfg v) st) ->
  inFlight st = false /\
  inFlight (exec (setTargetLockState cfg v) st) = true /\
  id = lockID cfg /\
  desiredTarget (exec (setTargetLockState cfg v) st)
    = Some (if b then LockTargetState.SECURED else LockTargetState.UNSECURED) /\
  dispatches (emitted (setTargetLockState cfg v) st) = 1%nat.
Proof.
  unfold emitted, exec. rewrite setTargetLockState_eq. cbv zeta.
  destruct (_ && _)%bool.
  - cbn. intros [Heq|[]]. discriminate Heq.
  - destruct (inFlight st).
    + cbn. intros [Heq|[Heq|[]]]; discriminate Heq.
    + cbn. intros [Heq|[Heq|[Heq|[]]]]; try discriminate Heq.
      injection Heq as <- <-.
      repeat (split; [reflexivity|]). split; [|reflexivity].
      destruct (requested_cases v) as [[-> _]|[-> _]]; reflexivity.
Qed.

(** X1. A command goes to the transport only from a task that begins a
    session: if a task emits a toggleLock call, then no session was in
    flight before it and one is in flight after it, the call is for the
    accessory's own lock, it asks to lock exactly when the new
    desiredTarget is SECURED, and it is the task's only dispatch. *)
Theorem dispatch_begins_session (cfg : Config) (st : Accessory) (ev : Event)
    (b : bool) (id : Z) :
  In (CallToggleLock b id) (output cfg st ev) ->
  inFlight st = false /\
  inFlight (step cfg st ev) = true /\
  id = lockID cfg /\
  desiredTarget (step cfg st ev)
    = Some (if b then LockTargetState.SECURED else LockTargetState.UNSECURED) /\
  dispatches (output cfg st ev) = 1%nat.
Proof.
  unfold output, step.
  fold (emitted (handle_event cfg ev) st). fold (exec (handle_event cfg ev) st).
  assert (Hnever : forall A (m : M A),
             never is_dispatch m -> In (CallToggleLock b id) (emitted m st) -> False).
  { intros A m Hm Hin. specialize (Hm st _ Hin). discriminate Hm. }
  destruct ev as [| |v|h|k r|r]; cbn [handle_event]; intros Hin.
  - exfalso. revert Hin. apply Hnever. apply never_emit. reflexivity.
  - exfalso. revert Hin. apply Hnever. unfold getTargetLockState, getLockState. never_tac.
  - exact (setTargetLockState_dispatch cfg v st b id Hin).
  - rewrite fire_exec. pose proof (fire_emitted cfg h st) as Hem.
    destruct (find _ (timers st)) as [t|] eqn:Hfind;
      [|rewrite Hem in Hin; destruct Hin].
    destruct (callback t) eqn:Hcb.
    + exfalso. rewrite Hem in Hin. revert Hin. apply Hnever.
      unfold run_callback, poll, clearTimeout. never_tac.
    + exfalso. rewrite Hem in Hin. revert Hin. apply Hnever.
      unfold run_callback, watchdog_callback, reconcileTargetWithCurrent, getLockState,
        clearTimeout, log. never_tac.
    + rewrite (fire_autoLock_emitted cfg st h t Hfind Hcb) in Hin |- *.
      destruct Hin as [Heq|Hin]; [discriminate Heq|].
      cbv zeta.
      destruct (setTargetLockState_dispatch cfg secured _ b id Hin)
        as [H1 [H2 [H3 [H4 H5]]]].
      split; [destruct (repeat t); exact H1|].
      split; [exact H2|]. split; [exact H3|]. split; [exact H4|].
      unfold dispatches in *. cbn [filter is_dispatch relock_attempt]. exact H5.
  - exfalso. revert Hin. apply Hnever. destruct k.
    + apply never_dispatch_poll_resume.
    + never_tac; apply never_dispatch_setBatteryLevel.
    + never_tac; apply never_dispatch_setBatteryLevel.
    + never_tac; apply never_dispatch_setBatteryLevel.
  - exfalso. revert Hin. apply Hnever.
    unfold sendLockCommand_resume, reconcileTargetWithCurrent, getLockState, log. never_tac.
Qed.

(** X2. A session in flight ends in three ways only: a poll whose
    readings map to the state implied by desiredTarget, the expiry of a
    pending watchdog, or the rejection of a toggleLock call.  In
    particular the acknowledgement of the command, a failed poll, a new
    request and the auto-lock timer leave it in flight. *)
Theorem session_ends_only_by (cfg : Config) (st : Accessory) (ev : Event) :
  inFlight st = true ->
  inFlight (step cfg st ev) = false ->
  (exists sensors d, ev = poll_done sensors /\
                     desiredTarget st = Some d /\ toLockState sensors = implied d) \/
  (exists h t, ev = TimerFired h /\
               find (fun x => Nat.eqb (handle x) h) (timers st) = Some t /\
               callback t = WatchdogCb) \/
  (exists err, ev = ToggleLockSettled (Rejected err)).
Proof.
  intros Hf. unfold step. fold (exec (handle_event cfg ev) st).
  destruct ev as [| |v|h|k r|r].
  - cbn. rewrite Hf. discriminate.
  - rewrite getTargetLockState_exec, Hf. discriminate.
  - cbn [handle_event]. rewrite setTargetLockState_exec, Hf. cbn [andb].
    destruct (match desiredTarget st with Some d => d =? requested v | None => false end);
      cbn; rewrite ?Hf; discriminate.
  - cbn [handle_event]. rewrite fire_exec.
    destruct (find _ (timers st)) as [t|] eqn:Hfind; [|rewrite Hf; discriminate].
    cbv zeta. destruct (callback t) eqn:Hcb.
    + destruct (repeat t); cbn; rewrite Hf; discriminate.
    + intros _. right. left. exists h, t. auto.
    + assert (Hf1 : inFlight (if repeat t then st
                              else set_timers (without (Some h) (timers st)) st) = true)
        by (destruct (repeat t); exact Hf).
      revert Hf1.
      generalize (if repeat t then st else set_timers (without (Some h) (timers st)) st).
      intros st1 Hf1. rewrite setTargetLockState_exec, Hf1. cbn [andb].
      destruct (match desiredTarget st1 with Some d => d =? requested _ | None => false end);
        [rewrite Hf1|cbn; rewrite Hf1]; discriminate.
  - destruct k.
    + cbn [handle_event]. rewrite poll_resume_exec.
      destruct r as [sensors|]; [|rewrite Hf; discriminate].
      rewrite completionCheck_exec.
      destruct (maintainAutoLock_session cfg (toLockState sensors) st) as [Hf1 Hd1].
      rewrite Hf1, Hd1, Hf. cbn [andb].
      destruct (desiredTarget st) as [d|]; [|rewrite Hf1, Hf; discriminate].
      destruct (Z.eqb_spec (toLockState sensors) (implied d)) as [Heq|_];
        [|rewrite Hf1, Hf; discriminate].
      intros _. left. exists sensors, d. auto.
    + rewrite read_resume_exec by auto. rewrite Hf. discriminate.
    + rewrite read_resume_exec by auto. rewrite Hf. discriminate.
    + cbn [handle_event]. rewrite reconcileTargetWithCurrent_resume_exec.
      destruct r; cbn; rewrite Hf; discriminate.
  - cbn [handle_event]. rewrite sendLockCommand_resume_exec.
    destruct r as [u|err]; [rewrite Hf; discriminate|].
    intros _. right. right. exists err. reflexivity.
Qed.

(** ** The target of a session *)

Lemma is_target_requested v : is_target (requested v).
Proof. unfold is_target. destruct (requested_cases v) as [[-> _]|[-> _]]; auto. Qed.

Lemma is_target_of_current c : is_target (target_of_current c).
Proof.
  unfold is_target, target_of_current. destruct (c =? LockCurrentState.SECURED); auto.
Qed.

Lemma targeted_setTargetLockState cfg v st :
  session_targeted st -> session_targeted (exec (setTargetLockState cfg v) st).
Proof.
  intros [H1 H2]. rewrite setTargetLockState_exec.
  destruct (_ && _)%bool; [split; assumption|].
  destruct (inFlight st); split; cbn; try discriminate;
    intros d Hd; injection Hd as <-; apply is_target_requested.
Qed.

Lemma targeted_step cfg st ev :
  session_targeted st -> session_targeted (step cfg st ev).
Proof.
  intros T. pose proof T as [H1 H2]. unfold step. fold (exec (handle_event cfg ev) st).
  destruct ev as [| |v|h|k r|r].
  - exact T.
  - rewrite getTargetLockState_exec. exact T.
  - apply targeted_setTargetLockState, T.
  - cbn [handle_event]. rewrite fire_exec.
    destruct (find _ (timers st)) as [t|]; [|exact T].
    assert (T1 : session_targeted
                   (if repeat t then st else set_timers (without (Some h) (timers st)) st))
      by (destruct (repeat t); exact T).
    cbv zeta. destruct (callback t).
    + exact T1.
    + destruct T1 as [_ T2]. split; [cbn; discriminate|exact T2].
    + apply targeted_setTargetLockState, T1.
  - destruct k.
    + cbn [handle_event]. rewrite poll_resume_exec. destruct r as [sensors|]; [|exact T].
      rewrite completionCheck_exec.
      destruct (maintainAutoLock_session cfg (toLockState sensors) st) as [Hf1 Hd1].
      destruct (_ && _)%bool.
      * split; cbn; [discriminate|]. rewrite Hd1. exact H2.
      * split; rewrite ?Hf1, Hd1; assumption.
    + rewrite read_resume_exec by auto. exact T.
    + rewrite read_resume_exec by auto. exact T.
    + cbn [handle_event]. rewrite reconcileTargetWithCurrent_resume_exec.
      destruct r; [|exact T]. split; cbn; [discriminate|].
      intros d Hd. injection Hd as <-. apply is_target_of_current.
  - cbn [handle_event]. rewrite sendLockCommand_resume_exec.
    destruct r; [exact T|]. split; [cbn; discriminate|exact H2].
Qed.

Lemma desiredTarget_kept cfg st ev :
  desiredTarget st <> None -> desiredTarget (step cfg st ev) <> None.
Proof.
  intros Hd. unfold step. fold (exec (handle_event cfg ev) st).
  destruct ev as [| |v|h|k r|r].
  - exact Hd.
  - rewrite getTargetLockState_exec. exact Hd.
  - cbn [handle_event]. rewrite setTargetLockState_exec.
    destruct (_ && _)%bool; [exact Hd|]. destruct (inFlight st); cbn; discriminate.
  - cbn [handle_event]. rewrite fire_exec.
    destruct (find _ (timers st)) as [t|]; [|exact Hd].
    assert (Hd1 : desiredTarget
                    (if repeat t then st else set_timers (without (Some h) (timers st)) st)
                  <> None) by (destruct (repeat t); exact Hd).
    cbv zeta. destruct (callback t); [exact Hd1|exact Hd1|].
    rewrite setTargetLockState_exec.
    destruct (_ && _)%bool; [exact Hd1|]. destruct (inFlight _); cbn; discriminate.
  - destruct k.
    + cbn [handle_event]. rewrite poll_resume_exec. destruct r as [sensors|]; [|exact Hd].
      rewrite completionCheck_exec.
      destruct (maintainAutoLock_session cfg (toLockState sensors) st) as [_ Hd1].
      destruct (_ && _)%bool; cbn; rewrite Hd1; exact Hd.
    + rewrite read_resume_exec by auto. exact Hd.
    + rewrite read_resume_exec by auto. exact Hd.
    + cbn [handle_event]. rewrite reconcileTargetWithCurrent_resume_exec.
      destruct r; [cbn; discriminate|exact Hd].
  - cbn [handle_event]. rewrite sendLockCommand_resume_exec. destruct r; exact Hd.
Qed.

(** X3. In every state the accessory reaches, a session in flight has a
    desiredTarget, a desiredTarget is SECURED or UNSECURED and nothing
    else, and once set it is never null again. *)
Theorem session_has_target (cfg : Config) (evs evs' : list Event) :
  let st := run cfg evs (new_accessory cfg) in
  (inFlight st = true -> desiredTarget st <> None) /\
  (forall d, desiredTarget st = Some d -> is_target d) /\
  (desiredTarget st <> None -> desiredTarget (run cfg evs' st) <> None).
Proof.
  cbv zeta.
  assert (HT : forall l st, session_targeted st -> session_targeted (run cfg l st)).
  { induction l as [|ev l IH]; intros st T; cbn; [exact T|].
    apply IH, targeted_step, T. }
  assert (HK : forall l st, desiredTarget st <> None -> desiredTarget (run cfg l st) <> None).
  { induction l as [|ev l IH]; intros st Hd; cbn; [exact Hd|].
    apply IH, desiredTarget_kept, Hd. }
  destruct (HT evs (new_accessory cfg)) as [H1 H2].
  { split; cbn; discriminate. }
  split; [exact H1|]. split; [exact H2|]. apply HK.
Qed.

(** ** Timers as resources *)

Lemma NoDup_map_filter {A B} (f : A -> B) (p : A -> bool) l :
  NoDup (map f l) -> NoDup (map f (filter p l)).
Proof.
  induction l as [|a l IH]; cbn; intros H; [exact H|].
  inversion H as [|x xs Hnin Hnd]; subst.
  destruct (p a); cbn; [constructor|]; auto.
  intros Hin. apply Hnin. apply in_map_iff in Hin. destruct Hin as [y [Hy Hin]].
  apply in_map_iff. exists y. split; [exact Hy|]. apply filter_In in Hin. tauto.
Qed.

Lemma NoDup_map_snoc {A B} (f : A -> B) l a :
  NoDup (map f l) -> ~ In (f a) (map f l) -> NoDup (map f (l ++ [a])).
Proof.
  intros Hnd Hnin. rewrite map_app. cbn.
  apply NoDup_app; [exact Hnd|constructor; [intros []|constructor]|].
  intros x Hx [<-|[]]. exact (Hnin Hx).
Qed.

Lemma without_fresh st o :
  WF st -> ~ In (nextHandle st) (map handle (without o (timers st))).
Proof.
  intros H Hin. apply in_map_iff in Hin. destruct Hin as [t [Ht Hin]].
  pose proof (proj1 (Forall_forall _ _) (wf_owned st H) t (in_without_in _ _ _ Hin)) as [Hlt _].
  lia.
Qed.

Lemma filter_poll_without st o :
  WF st -> o <> Some 0%nat ->
  filter is_poll (without o (timers st)) = filter is_poll (timers st).
Proof.
  intros H Ho. destruct o as [h|]; [|reflexivity]. cbn.
  pose proof (wf_owned st H) as Hown. induction Hown as [|t l [_ Ht] _ IH]; [reflexivity|].
  cbn. unfold is_poll at 2 4. destruct (callback t) eqn:Hcb.
  - destruct Ht as [Ht _]. rewrite Ht.
    destruct (Nat.eqb_spec 0 h) as [<-|_]; [contradiction Ho; reflexivity|].
    cbn. unfold is_poll at 1. rewrite Hcb, IH. reflexivity.
  - destruct (negb _); cbn; [unfold is_poll at 1; rewrite Hcb|]; exact IH.
  - destruct (negb _); cbn; [unfold is_poll at 1; rewrite Hcb|]; exact IH.
Qed.

Lemma tidy_without cfg b d a o st :
  WF st -> o <> Some 0%nat -> tidy cfg st ->
  tidy cfg (mkAccessory b d (pollTimer st) (watchdog st) a
              (without o (timers st)) (nextHandle st)).
Proof.
  intros H Ho [Hnd Hp]. split; cbn.
  - destruct o; [apply NoDup_map_filter|]; exact Hnd.
  - rewrite filter_poll_without; assumption.
Qed.

Lemma tidy_arm cfg b d w a o cb ms st :
  WF st -> o <> Some 0%nat -> cb <> PollCb -> tidy cfg st ->
  tidy cfg (mkAccessory b d (pollTimer st) w a
              (without o (timers st) ++ [mkTimer (nextHandle st) cb ms false])
              (S (nextHandle st))).
Proof.
  intros H Ho Hcb [Hnd Hp]. split; cbn.
  - apply NoDup_map_snoc; [|exact (without_fresh st o H)].
    destruct o; [apply NoDup_map_filter|]; exact Hnd.
  - rewrite filter_app, filter_poll_without, Hp by assumption.
    cbn. unfold is_poll. cbn. destruct cb; [contradiction Hcb; reflexivity| |]; reflexivity.
Qed.

Lemma tidy_setTargetLockState cfg v st :
  WF st -> tidy cfg st -> tidy cfg (exec (setTargetLockState cfg v) st).
Proof.
  intros H T. rewrite setTargetLockState_exec.
  destruct (_ && _)%bool; [exact T|]. destruct (inFlight st); [exact T|].
  apply tidy_arm; auto; [apply (wf_watchdog_pos st H)|discriminate].
Qed.

Lemma tidy_step cfg st ev :
  WF st -> tidy cfg st -> tidy cfg (step cfg st ev).
Proof.
  intros H T. unfold step. fold (exec (handle_event cfg ev) st).
  destruct ev as [| |v|h|k r|r].
  - exact T.
  - rewrite getTargetLockState_exec. exact T.
  - apply tidy_setTargetLockState; assumption.
  - cbn [handle_event]. rewrite fire_exec.
    destruct (find _ (timers st)) as [t|] eqn:Hfind; [|exact T].
    assert (H1 : WF (if repeat t then st else set_timers (without (Some h) (timers st)) st)
                 /\ tidy cfg (if repeat t then st
                              else set_timers (without (Some h) (timers st)) st)).
    { destruct (repeat t) eqn:Hrep; [auto|].
      split; [exact (WF_expire st h t H Hfind Hrep)|].
      apply tidy_without; auto.
      pose proof (find_some _ _ Hfind) as [Hin Hh]. apply Nat.eqb_eq in Hh.
      pose proof (proj1 (Forall_forall _ _) (wf_owned st H) t Hin) as [_ Ho].
      intros Heq. injection Heq as ->. destruct (callback t).
      - destruct Ho as [_ Ho]. rewrite Ho in Hrep. discriminate.
      - apply (wf_watchdog_pos st H). rewrite (proj1 Ho), Hh. reflexivity.
      - apply (wf_autoLock_pos st H). rewrite (proj1 Ho), Hh. reflexivity. }
    destruct H1 as [H1 T1]. cbv zeta. destruct (callback t).
    + exact T1.
    + exact T1.
    + apply tidy_setTargetLockState; assumption.
  - destruct k.
    + cbn [handle_event]. rewrite poll_resume_exec. destruct r as [sensors|]; [|exact T].
      pose proof (WF_maintainAutoLock cfg (toLockState sensors) st H) as H1.
      assert (T1 : tidy cfg (exec (maintainAutoLock cfg (toLockState sensors)) st)).
      { rewrite maintainAutoLock_exec.
        destruct (toLockState sensors =? LockCurrentState.UNSECURED).
        - destruct (autoLockTimer st) eqn:Ha; [exact T|].
          destruct (autoLockMinutes cfg <=? 0); [exact T|].
          apply (tidy_arm cfg _ _ _ _ None); auto; discriminate.
        - destruct (toLockState sensors =? LockCurrentState.SECURED); [|exact T].
          apply tidy_without; auto. apply (wf_autoLock_pos st H). }
      rewrite completionCheck_exec. destruct (_ && _)%bool; [|exact T1].
      apply tidy_without; auto. apply (wf_watchdog_pos _ H1).
    + rewrite read_resume_exec by auto. exact T.
    + rewrite read_resume_exec by auto. exact T.
    + cbn [handle_event]. rewrite reconcileTargetWithCurrent_resume_exec. destruct r; exact T.
  - cbn [handle_event]. rewrite sendLockCommand_resume_exec. destruct r; exact T.
Qed.

Lemma at_most_one {A} (f : A -> nat) (p : A -> bool) (c : nat) l :
  NoDup (map f l) ->
  (forall x, In x l -> p x = true -> f x = c) ->
  (List.length (filter p l) <= 1)%nat.
Proof.
  induction l as [|a l IH]; cbn; intros Hnd Hc; [lia|].
  inversion Hnd as [|x xs Hnin Hnd']; subst.
  destruct (p a) eqn:Hpa; [|apply IH; auto]. cbn.
  assert (Hnone : filter p l = []).
  { destruct (filter p l) as [|y ys] eqn:Hf; [reflexivity|]. exfalso.
    assert (Hy : In y (filter p l)) by (rewrite Hf; left; reflexivity).
    apply filter_In in Hy. destruct Hy as [Hy Hpy].
    apply Hnin. apply in_map_iff. exists y. split; [|exact Hy].
    rewrite (Hc a (or_introl eq_refl) Hpa). apply Hc; auto. }
  rewrite Hnone. cbn. lia.
Qed.

(** X5. In every state the accessory reaches, the pending timers have
    distinct handles, at most one of them is a watchdog and at most one
    is an auto-lock timer (arming never leaks a second callback), and
    the poll interval registered by the constructor is pending, as the
    only poll timer, with the configured period. *)
Theorem timers_never_leak (cfg : Config) (evs : list Event) :
  let st := run cfg evs (new_accessory cfg) in
  NoDup (map handle (timers st)) /\
  (List.length (filter is_watchdog (timers st)) <= 1)%nat /\
  (List.length (filter is_autoLock (timers st)) <= 1)%nat /\
  filter is_poll (timers st) = [mkTimer 0%nat PollCb (lockPollMs cfg) true].
Proof.
  cbv zeta.
  assert (Hgen : forall l st, WF st -> tidy cfg st ->
                              WF (run cfg l st) /\ tidy cfg (run cfg l st)).
  { induction l as [|ev l IH]; intros st H T; cbn; [auto|].
    apply IH; [apply WF_step, H|apply tidy_step; assumption]. }
  destruct (Hgen evs (new_accessory cfg) (WF_new cfg)) as [H [Hnd Hp]].
  { split; cbn; [|reflexivity]. constructor; [intros []|constructor]. }
  set (st := run cfg evs (new_accessory cfg)) in *.
  split; [exact Hnd|]. split; [|split; [|exact Hp]].
  - destruct (watchdog st) as [w|] eqn:Hw.
    + apply (at_most_one handle is_watchdog w); [exact Hnd|].
      intros x Hin Hx.
      pose proof (proj1 (Forall_forall _ _) (wf_owned st H) x Hin) as [_ Ho].
      unfold is_watchdog in Hx. destruct (callback x); try discriminate.
      destruct Ho as [Ho _]. rewrite Hw in Ho. injection Ho as ->. reflexivity.
    + apply (at_most_one handle is_watchdog 0%nat); [exact Hnd|].
      intros x Hin Hx.
      pose proof (proj1 (Forall_forall _ _) (wf_owned st H) x Hin) as [_ Ho].
      unfold is_watchdog in Hx. destruct (callback x); try discriminate.
      destruct Ho as [Ho _]. rewrite Hw in Ho. discriminate.
  - destruct (autoLockTimer st) as [a|] eqn:Ha.
    + apply (at_most_one handle is_autoLock a); [exact Hnd|].
      intros x Hin Hx.
      pose proof (proj1 (Forall_forall _ _) (wf_owned st H) x Hin) as [_ Ho].
      unfold is_autoLock in Hx. destruct (callback x); try discriminate.
      destruct Ho as [Ho _]. rewrite Ha in Ho. injection Ho as ->. reflexivity.
    + apply (at_most_one handle is_autoLock 0%nat); [exact Hnd|].
      intros x Hin Hx.
      pose proof (proj1 (Forall_forall _ _) (wf_owned st H) x Hin) as [_ Ho].
      unfold is_autoLock in Hx. destruct (callback x); try discriminate.
      destruct Ho as [Ho _]. rewrite Ha in Ho. discriminate.
Qed.

(** ** Auto-lock: switched off, armed, cancelled, fired *)

Lemma autoLock_off_step cfg st ev :
  autoLockMinutes cfg <= 0 ->
  autoLockTimer st = None ->
  autoLockTimer (step cfg st ev) = None /\ no_new_autoLock st (step cfg st ev).
Proof.
  intros Hoff Ha. apply Z.leb_le in Hoff.
  unfold step. fold (exec (handle_event cfg ev) st).
  destruct ev as [| |v|h|k r|r].
  - split; [exact Ha|apply no_new_autoLock_refl].
  - rewrite getTargetLockState_exec. split; [exact Ha|apply no_new_autoLock_refl].
  - cbn [handle_event]. split; [|apply no_new_autoLock_setTargetLockState].
    rewrite autoLockTimer_setTargetLockState. exact Ha.
  - split; [|apply no_new_autoLock_fire].
    cbn [handle_event]. rewrite fire_exec.
    destruct (find _ (timers st)) as [t|]; [|exact Ha].
    cbv zeta. destruct (callback t); [| |rewrite autoLockTimer_setTargetLockState];
      destruct (repeat t); exact Ha.
  - destruct k.
    + cbn [handle_event]. rewrite poll_resume_exec.
      destruct r as [sensors|]; [|split; [exact Ha|apply no_new_autoLock_refl]].
      assert (H1 : autoLockTimer (exec (maintainAutoLock cfg (toLockState sensors)) st) = None
                   /\ no_new_autoLock st (exec (maintainAutoLock cfg (toLockState sensors)) st)).
      { rewrite maintainAutoLock_exec, Ha, Hoff.
        destruct (toLockState sensors =? LockCurrentState.UNSECURED);
          [split; [exact Ha|apply no_new_autoLock_refl]|].
        destruct (toLockState sensors =? LockCurrentState.SECURED);
          [|split; [exact Ha|apply no_new_autoLock_refl]].
        split; [reflexivity|]. apply no_new_autoLock_same. reflexivity. }
      destruct H1 as [Ha1 Hn1]. split.
      * rewrite autoLockTimer_completionCheck. exact Ha1.
      * eapply no_new_autoLock_trans; [exact Hn1|apply no_new_autoLock_completionCheck].
    + rewrite read_resume_exec by auto. split; [exact Ha|apply no_new_autoLock_refl].
    + rewrite read_resume_exec by auto. split; [exact Ha|apply no_new_autoLock_refl].
    + cbn [handle_event]. rewrite reconcileTargetWithCurrent_resume_exec.
      destruct r; (split; [exact Ha|]);
        [apply no_new_autoLock_same; reflexivity|apply no_new_autoLock_refl].
  - cbn [handle_event]. rewrite sendLockCommand_resume_exec.
    destruct r; (split; [exact Ha|]);
      [apply no_new_autoLock_refl|apply no_new_autoLock_same; reflexivity].
Qed.

(** X6. With autoLockMinutes zero or negative the auto-lock feature is
    off: whatever happens, no handle is ever stored, no auto-lock timer
    is ever pending and no relock is ever attempted. *)
Theorem autoLock_disabled (cfg : Config) (evs : list Event) :
  autoLockMinutes cfg <= 0 ->
  let st := run cfg evs (new_accessory cfg) in
  autoLockTimer st = None /\
  autoLockArmed st = false /\
  ~ In relock_attempt (trace cfg evs (new_accessory cfg)).
Proof.
  intros Hoff. cbv zeta.
  assert (Hgen : forall l st,
             autoLockTimer st = None -> autoLockArmed st = false ->
             autoLockTimer (run cfg l st) = None /\
             autoLockArmed (run cfg l st) = false /\
             ~ In relock_attempt (trace cfg l st)).
  { induction l as [|ev l IH]; intros st Ha Hno; cbn.
    - repeat split; auto.
    - destruct (autoLock_off_step cfg st ev Hoff Ha) as [Ha1 Hsub].
      assert (Hno1 : autoLockArmed (step cfg st ev) = false).
      { destruct (autoLockArmed (step cfg st ev)) eqn:Hstep; [|reflexivity].
        rewrite <- Hno. symmetry. exact (no_new_autoLock_armed _ _ Hsub Hstep). }
      destruct (IH _ Ha1 Hno1) as [H1 [H2 H3]]. repeat split; auto.
      intros Hin. apply in_app_iff in Hin. destruct Hin as [Hin|Hin]; [|exact (H3 Hin)].
      apply relock_attempt_needs_armed in Hin. rewrite Hin in Hno. discriminate. }
  apply Hgen; reflexivity.
Qed.

Lemma filter_without_keep (p : Timer -> bool) o l :
  (forall t h, In t l -> p t = true -> o = Some h -> handle t <> h) ->
  filter p (without o l) = filter p l.
Proof.
  destruct o as [h|]; [|reflexivity]. cbn. intros Hkeep.
  induction l as [|t l IH]; [reflexivity|]. cbn.
  assert (IH' : filter p (filter (fun t => negb (Nat.eqb (handle t) h)) l) = filter p l).
  { apply IH. intros x h' Hx. apply Hkeep. right. exact Hx. }
  destruct (Nat.eqb_spec (handle t) h) as [Heq|Hne]; cbn.
  - destruct (p t) eqn:Hp; [|exact IH'].
    exfalso. exact (Hkeep t h (or_introl eq_refl) Hp eq_refl Heq).
  - rewrite IH'. reflexivity.
Qed.

Lemma find_without_same h o l :
  find (fun x => Nat.eqb (handle x) h) l = None ->
  find (fun x => Nat.eqb (handle x) h) (without o l) = None.
Proof.
  intros Hnone. destruct (find _ (without o l)) as [t|] eqn:Hfind; [|reflexivity].
  apply find_some in Hfind. destruct Hfind as [Hin Hh].
  rewrite (find_none _ _ Hnone t (in_without_in _ _ _ Hin)) in Hh. discriminate.
Qed.

Lemma find_without_cleared h l :
  find (fun x => Nat.eqb (handle x) h) (without (Some h) l) = None.
Proof.
  destruct (find _ (without (Some h) l)) as [t|] eqn:Hfind; [|reflexivity].
  apply find_some in Hfind. destruct Hfind as [Hin Hh]. apply Nat.eqb_eq in Hh.
  destruct (in_without h _ _ _ Hin eq_refl) as [_ Hne]. contradiction.
Qed.

Lemma no_autoLock_without_handle st :
  WF st -> autoLockTimer st = None -> filter is_autoLock (timers st) = [].
Proof.
  intros H Ha. destruct (filter is_autoLock (timers st)) as [|t l] eqn:Hf; [reflexivity|].
  assert (Hin : In t (filter is_autoLock (timers st))) by (rewrite Hf; left; reflexivity).
  apply filter_In in Hin. destruct Hin as [Hin Ht].
  pose proof (proj1 (Forall_forall _ _) (wf_owned st H) t Hin) as [_ Ho].
  unfold is_autoLock in Ht. destruct (callback t); try discriminate.
  destruct Ho as [Ho _]. rewrite Ha in Ho. discriminate.
Qed.

Lemma never_count p {A} (m : M A) st :
  never p m -> filter p (emitted m st) = [].
Proof.
  intros Hm. specialize (Hm st). induction (emitted m st) as [|e l IH]; [reflexivity|].
  cbn. rewrite (Hm e (or_introl eq_refl)). apply IH. intros e' He'. apply Hm. right. exact He'.
Qed.

(** X7. With no handle stored and a positive delay, a poll that observes
    UNSECURED arms exactly one auto-lock timer, one-shot, for
    autoLockMinutes x 60 x 1000 ms, and stores its handle.  If the next
    poll observes SECURED, the timer is cancelled and the handle
    cleared: the cancelled timer can no longer fire, and neither poll
    dispatches a command. *)
Theorem autoLock_round_trip (cfg : Config) (evs : list Event)
    (sensors sensors' : list Sensor) :
  let st := run cfg evs (new_accessory cfg) in
  autoLockTimer st = None ->
  0 < autoLockMinutes cfg ->
  toLockState sensors = LockCurrentState.UNSECURED ->
  toLockState sensors' = LockCurrentState.SECURED ->
  let armed := mkTimer (nextHandle st) AutoLockCb (autoLockMinutes cfg * 60 * 1000) false in
  let st1 := step cfg st (poll_done sensors) in
  let st2 := step cfg st1 (poll_done sensors') in
  autoLockTimer st1 = Some (nextHandle st) /\
  filter is_autoLock (timers st1) = [armed] /\
  autoLockTimer st2 = None /\
  autoLockArmed st2 = false /\
  handle_event cfg (TimerFired (nextHandle st)) st2 = (Returned tt, st2, []) /\
  dispatches (trace cfg [poll_done sensors; poll_done sensors'] st) = 0%nat.
Proof.
  cbv zeta. intros Ha Hpos Hs Hs'.
  pose proof (WF_run cfg evs _ (WF_new cfg)) as Hwf.
  set (st := run cfg evs (new_accessory cfg)) in *.
  pose proof (WF_step cfg st (poll_done sensors) Hwf) as Hwf1.
  assert (Hst1 : exists c : bool,
             step cfg st (poll_done sensors) =
             mkAccessory (if c then false else inFlight st)
               (desiredTarget st) (pollTimer st) (watchdog st)
               (Some (nextHandle st))
               (without (if c then watchdog st else None)
                  (timers st ++ [mkTimer (nextHandle st) AutoLockCb
                                   (autoLockMinutes cfg * 60 * 1000) false]))
               (S (nextHandle st))).
  { unfold step, poll_done. cbn [handle_event].
    fold (exec (poll_resume cfg (Resolved sensors)) st).
    rewrite poll_resume_exec, Hs, completionCheck_exec, maintainAutoLock_exec. cbn.
    rewrite Ha. destruct (Z.leb_spec (autoLockMinutes cfg) 0) as [Hle|_]; [lia|]. cbn.
    destruct (inFlight st && _)%bool eqn:Hc.
    - exists true. reflexivity.
    - exists false. reflexivity. }
  destruct Hst1 as [c Hst1]. rewrite Hst1 in *.
  assert (Hauto : filter is_autoLock
                    (without (if c then watchdog st else None)
                       (timers st ++ [mkTimer (nextHandle st) AutoLockCb
                                        (autoLockMinutes cfg * 60 * 1000) false]))
                  = [mkTimer (nextHandle st) AutoLockCb
                       (autoLockMinutes cfg * 60 * 1000) false]).
  { rewrite filter_without_keep.
    - rewrite filter_app, (no_autoLock_without_handle st Hwf Ha). reflexivity.
    - intros t h Hin Ht Ho Heq.
      assert (Hin' : In t (filter is_autoLock (timers st ++ [mkTimer (nextHandle st) AutoLockCb
                                        (autoLockMinutes cfg * 60 * 1000) false])))
        by (apply filter_In; split; assumption).
      rewrite filter_app, (no_autoLock_without_handle st Hwf Ha) in Hin'.
      destruct Hin' as [<-|[]]. cbn in Heq.
      destruct c; [|discriminate Ho].
      pose proof (wf_watchdog_older st Hwf) as Hold. rewrite Ho in Hold. cbn in Hold. lia. }
  split; [reflexivity|]. split; [exact Hauto|].
  set (st1 := mkAccessory (if c then false else inFlight st) (desiredTarget st) (pollTimer st) (watchdog st)
                (Some (nextHandle st)) _ (S (nextHandle st))) in *.
  destruct (poll_secured_cancels cfg st1 sensors' Hwf1 Hs') as [Hno Hnone].
  split; [exact Hnone|]. split; [exact Hno|]. split.
  - cbn [handle_event]. unfold fire. unfold bind at 1. unfold get at 1.
    assert (Hgone : find (fun t => Nat.eqb (handle t) (nextHandle st))
                      (timers (step cfg st1 (poll_done sensors'))) = None).
    { unfold step, poll_done. cbn [handle_event].
      fold (exec (poll_resume cfg (Resolved sensors')) st1).
      rewrite poll_resume_exec, Hs', completionCheck_exec, maintainAutoLock_exec. cbn.
      destruct (_ && _)%bool; cbn; [apply find_without_same|]; apply find_without_cleared. }
    rewrite Hgone. reflexivity.
  - cbn [trace]. unfold dispatches. rewrite !filter_app. cbn [filter app].
    unfold output, poll_done. cbn [handle_event].
    fold (emitted (poll_resume cfg (Resolved sensors)) st).
    fold (emitted (poll_resume cfg (Resolved sensors'))
            (step cfg st (SensorsSettled InPoll (Resolved sensors)))).
    rewrite !(never_count is_dispatch) by apply never_dispatch_poll_resume. reflexivity.
Qed.

(** X8. When a pending auto-lock timer fires it announces the relock and
    requests SECURED as HomeKit would: desiredTarget becomes SECURED and
    a session is in flight afterwards.  With no session in flight it
    dispatches the lock command; with a session already in flight,
    whatever its target, it dispatches nothing and leaves the pending
    watchdog as it was. *)
Theorem autoLock_expiry (cfg : Config) (evs : list Event) (t : Timer) :
  let st := run cfg evs (new_accessory cfg) in
  find (fun x => Nat.eqb (handle x) (handle t)) (timers st) = Some t ->
  callback t = AutoLockCb ->
  let out := output cfg st (TimerFired (handle t)) in
  let st' := step cfg st (TimerFired (handle t)) in
  In relock_attempt out /\
  desiredTarget st' = Some LockTargetState.SECURED /\
  inFlight st' = true /\
  (inFlight st = false ->
   out = [relock_attempt;
          UpdateValue LockTargetStateC (Num LockTargetState.SECURED);
          Log Info (MsgSetting LockTargetState.SECURED);
          CallToggleLock true (lockID cfg)]) /\
  (inFlight st = true ->
   dispatches out = 0%nat /\
   filter is_watchdog (timers st') = filter is_watchdog (timers st)).
Proof.
  cbv zeta. intros Hfind Hcb.
  pose proof (WF_run cfg evs _ (WF_new cfg)) as Hwf.
  set (st := run cfg evs (new_accessory cfg)) in *.
  pose proof (find_some _ _ Hfind) as [Hin _].
  pose proof (proj1 (Forall_forall _ _) (wf_owned st Hwf) t Hin) as [_ Ho].
  rewrite Hcb in Ho. destruct Ho as [Ha Hrep].
  unfold output, step. cbn [handle_event].
  fold (emitted (fire cfg (handle t)) st). fold (exec (fire cfg (handle t)) st).
  rewrite (fire_autoLock_emitted cfg st _ t Hfind Hcb), fire_exec, Hfind, Hcb, Hrep.
  cbv zeta. unfold emitted, exec, secured. rewrite !setTargetLockState_eq. cbv zeta.
  change (requested (CVNumber (Num LockTargetState.SECURED))) with LockTargetState.SECURED.
  cbn [inFlight desiredTarget set_timers].
  assert (Hkeep : filter is_watchdog (without (Some (handle t)) (timers st))
                  = filter is_watchdog (timers st)).
  { apply filter_without_keep. intros x h Hx Hwx Hah Heq. injection Hah as <-.
    pose proof (proj1 (Forall_forall _ _) (wf_owned st Hwf) x Hx) as [_ Hox].
    unfold is_watchdog in Hwx. destruct (callback x); try discriminate.
    apply (wf_distinct st Hwf (handle x) (proj1 Hox)). rewrite Ha, Heq. reflexivity. }
  split; [left; reflexivity|].
  destruct (inFlight st) eqn:Hf; cbn [andb].
  - destruct (desiredTarget st) as [d|] eqn:Hd.
    + destruct (Z.eqb_spec d LockTargetState.SECURED) as [->|Hne]; cbn.
      * split; [exact Hd|]. split; [exact Hf|]. split; [discriminate|].
        intros _. split; [reflexivity|exact Hkeep].
      * split; [reflexivity|]. split; [exact Hf|]. split; [discriminate|].
        intros _. split; [reflexivity|exact Hkeep].
    + cbn. split; [reflexivity|]. split; [exact Hf|]. split; [discriminate|].
      intros _. split; [reflexivity|exact Hkeep].
  - cbn. split; [reflexivity|]. split; [reflexivity|]. split; [reflexivity|].
    intros Hfalse. discriminate Hfalse.
Qed.

(** ** Reading the target *)

(** X9. After any call of setTargetLockState, whether coalesced or not,
    a read of the target answers the requested target from the cache,
    without querying the sensors and without changing the state. *)
Theorem target_read_after_request (cfg : Config) (st : Accessory)
    (v : CharacteristicValue) :
  let st1 := step cfg st (OnSetLockTargetState v) in
  getTargetLockState cfg st1 = (Returned (Some (requested v)), st1, []).
Proof.
  cbv zeta.
  assert (Hd : desiredTarget (step cfg st (OnSetLockTargetState v)) = Some (requested v)).
  { unfold step. cbn [handle_event]. fold (exec (setTargetLockState cfg v) st).
    rewrite setTargetLockState_exec.
    destruct (inFlight st); cbn [andb]; [|reflexivity].
    destruct (desiredTarget st) as [d|] eqn:Hdt; [|reflexivity].
    destruct (Z.eqb_spec d (requested v)) as [->|_]; [exact Hdt|reflexivity]. }
  unfold getTargetLockState, bind, get. rewrite Hd. reflexivity.
Qed.

(** X10. While no target has been requested or reconciled, a read of
    the target queries the sensors; when the query resolves it answers
    SECURED if the readings map to SECURED and UNSECURED otherwise, and
    when it fails the error propagates.  Either way the state is left
    as it was (the answer is not cached), so the next read queries
    again. *)
Theorem target_read_falls_back (cfg : Config) (st : Accessory)
    (r : Settled (list Sensor)) :
  desiredTarget st = None ->
  let settled := SensorsSettled InGetTargetLockState r in
  getTargetLockState cfg st =
    (Returned None, st, [CallSensors (lockID cfg) InGetTargetLockState]) /\
  outcome (getTargetLockState_resume r) st =
    match r with
    | Resolved readings =>
        Returned (if toLockState readings =? LockCurrentState.SECURED
                  then LockTargetState.SECURED else LockTargetState.UNSECURED)
    | Rejected err => Thrown err
    end /\
  run cfg [OnGetLockTargetState; settled] st = st /\
  output cfg (run cfg [OnGetLockTargetState; settled] st) OnGetLockTargetState =
    [CallSensors (lockID cfg) InGetTargetLockState].
Proof.
  intros Hd. cbv zeta.
  assert (H1 : getTargetLockState cfg st =
               (Returned None, st, [CallSensors (lockID cfg) InGetTargetLockState])).
  { unfold getTargetLockState, bind, get. rewrite Hd. reflexivity. }
  assert (H3 : run cfg [OnGetLockTargetState; SensorsSettled InGetTargetLockState r] st = st).
  { cbn [run fold_left]. unfold step at 2.
    fold (exec (handle_event cfg OnGetLockTargetState) st).
    rewrite getTargetLockState_exec. unfold step.
    fold (exec (handle_event cfg (SensorsSettled InGetTargetLockState r)) st).
    apply read_resume_exec. auto. }
  split; [exact H1|]. split; [|split; [exact H3|]].
  - unfold getTargetLockState_resume.
    pose proof (getLockState_resume_outcome r st) as Ho.
    destruct r as [readings|err].
    + rewrite (outcome_bind _ _ st _ Ho). reflexivity.
    + unfold outcome, bind in *. destruct (getLockState_resume (Rejected err) st) as [[o s1] o1].
      cbn in *. subst. reflexivity.
  - rewrite H3. unfold output. cbn [handle_event].
    unfold bind. rewrite H1. reflexivity.
Qed.

(** ** Reconciliation against a session in flight *)

Lemma implied_target_of_current c :
  c = LockCurrentState.SECURED \/ c = LockCurrentState.UNSECURED ->
  implied (target_of_current c) = c.
Proof. intros [-> | ->]; reflexivity. Qed.

(** X11. Reconciliation overwrites desiredTarget even when a session is
    in flight (a reconciliation started by an earlier watchdog or
    dispatch failure may settle after a new request): the session stays
    in flight with the target mapped from the readings.  What a poll
    with the same readings then does depends on them: if they map to
    SECURED or UNSECURED it ends the session and disarms the watchdog;
    if they carry no lock reading the target is UNSECURED, the poll
    observes UNKNOWN and the session stays in flight with its watchdog. *)
Theorem late_reconciliation_overrides (cfg : Config) (evs : list Event)
    (readings : list Sensor) :
  let st := run cfg evs (new_accessory cfg) in
  inFlight st = true ->
  let st1 := step cfg st (SensorsSettled InReconcile (Resolved readings)) in
  let st2 := step cfg st1 (poll_done readings) in
  inFlight st1 = true /\
  desiredTarget st1 = Some (target_of_current (toLockState readings)) /\
  desiredTarget st2 = Some (target_of_current (toLockState readings)) /\
  (toLockState readings = LockCurrentState.SECURED \/
   toLockState readings = LockCurrentState.UNSECURED ->
   inFlight st2 = false /\ watchdogArmed st2 = false) /\
  (toLockState readings = LockCurrentState.UNKNOWN ->
   desiredTarget st2 = Some LockTargetState.UNSECURED /\
   inFlight st2 = true /\ watchdogArmed st2 = true).
Proof.
  cbv zeta. intros Hf.
  pose proof (WF_run cfg evs _ (WF_new cfg)) as Hwf.
  assert (HG : forall l s, WF s -> session_guarded s -> session_guarded (run cfg l s)).
  { induction l as [|e l IH]; intros s H G; cbn; [exact G|].
    apply IH; [apply WF_step, H|apply guarded_step; assumption]. }
  assert (Hg : session_guarded (run cfg evs (new_accessory cfg))).
  { apply HG; [apply WF_new|]. intros Hfalse. discriminate Hfalse. }
  set (st := run cfg evs (new_accessory cfg)) in *.
  pose proof (WF_step cfg st (SensorsSettled InReconcile (Resolved readings)) Hwf) as Hwf1.
  pose proof (guarded_step cfg st (SensorsSettled InReconcile (Resolved readings)) Hwf Hg)
    as Hg1.
  assert (Hst1 : step cfg st (SensorsSettled InReconcile (Resolved readings)) =
                 set_desiredTarget (Some (target_of_current (toLockState readings))) st).
  { unfold step. cbn [handle_event].
    fold (exec (reconcileTargetWithCurrent_resume (Resolved readings)) st).
    apply reconcileTargetWithCurrent_resume_exec. }
  rewrite Hst1 in *.
  set (st1 := set_desiredTarget (Some (target_of_current (toLockState readings))) st) in *.
  pose proof (guarded_step cfg st1 (poll_done readings) Hwf1 Hg1) as Hg2.
  split; [exact Hf|]. split; [reflexivity|].
  revert Hg2. unfold step, poll_done. cbn [handle_event].
  fold (exec (poll_resume cfg (Resolved readings)) st1).
  rewrite poll_resume_exec, completionCheck_exec.
  destruct (maintainAutoLock_session cfg (toLockState readings) st1) as [Hf1 Hd1].
  pose proof (WF_maintainAutoLock cfg (toLockState readings) st1 Hwf1) as Hwf2.
  rewrite Hf1, Hd1. change (inFlight st1) with (inFlight st).
  change (desiredTarget st1) with (Some (target_of_current (toLockState readings))).
  rewrite Hf. cbn [andb]. intros Hg2.
  split; [|split].
  - destruct (_ =? _); [reflexivity|exact Hd1].
  - intros Hc. rewrite (implied_target_of_current _ Hc), Z.eqb_refl. cbn.
    split; [reflexivity|].
    unfold watchdogArmed. cbn. apply no_watchdog_after_clear, Hwf2.
  - intros Hu. rewrite Hu in Hg2, Hf1, Hd1 |- *.
    change (LockCurrentState.UNKNOWN =? implied (target_of_current LockCurrentState.UNKNOWN))
      with false in *.
    cbv iota in *. split; [|split].
    + rewrite Hd1. unfold st1. cbn [desiredTarget set_desiredTarget]. rewrite Hu. reflexivity.
    + rewrite Hf1. exact Hf.
    + apply Hg2. rewrite Hf1. exact Hf.
Qed.

(** ** Battery readings through a poll *)

Lemma never_battery_rest cfg c :
  never is_battery_update (maintainAutoLock cfg c ;; completionCheck c).
Proof.
  unfold maintainAutoLock, completionCheck, startAutoLockTimer, cancelAutoLockTimer,
    setTimeout, clearTimeout, log.
  never_tac.
Qed.

Lemma poll_battery_updates cfg readings st :
  filter is_battery_update (output cfg st (poll_done readings)) =
  filter is_battery_update (emitted (setBatteryLevel readings) st).
Proof.
  unfold output, poll_done. cbn [handle_event].
  fold (emitted (poll_resume cfg (Resolved readings)) st).
  rewrite poll_resume_emitted, filter_app. cbn [filter is_battery_update].
  pose proof (never_count is_battery_update
                (maintainAutoLock cfg (toLockState readings) ;;
                 completionCheck (toLockState readings)) st
                (never_battery_rest cfg (toLockState readings))) as Hrest.
  rewrite (emitted_bind _ _ st tt (maintainAutoLock_outcome cfg _ st)) in Hrest.
  rewrite Hrest, app_nil_r. reflexivity.
Qed.

(** X12. The battery attributes follow the first reading of kind
    "battery" of a poll, whatever the lock reading and the session are:
    without such a reading the poll writes no battery attribute; with a
    value that parses to the number n it writes n to the battery level
    and LOW to the low-battery status exactly when n is at most 20
    (NORMAL from 21 on), and nothing else to either. *)
Theorem poll_battery_level (cfg : Config) (st : Accessory) (pre post : list Sensor)
    (s : Sensor) (n : Z) :
  Forall (fun x => sensorType x <> "battery") pre ->
  sensorType s = "battery" ->
  parseInt (value s) = Num n ->
  filter is_battery_update (output cfg st (poll_done pre)) = [] /\
  filter is_battery_update (output cfg st (poll_done (pre ++ s :: post))) =
    [UpdateValue BatteryLevelC (Num n);
     UpdateValue StatusLowBatteryC
       (Num (if n <=? 20 then StatusLowBattery.BATTERY_LEVEL_LOW
             else StatusLowBattery.BATTERY_LEVEL_NORMAL))].
Proof.
  intros Hpre Hs Hn. rewrite !poll_battery_updates.
  unfold emitted, setBatteryLevel.
  rewrite (find_sensor_none _ _ Hpre), (find_sensor_first _ _ _ post Hpre Hs).
  split; [reflexivity|]. cbv zeta. rewrite Hn. cbn.
  destruct (Z.ltb_spec 20 n), (Z.leb_spec n 20); try lia; reflexivity.
Qed.

(** ** Numbers as text *)

Lemma read_digits_acc d : forall acc : positive,
  read_digits (NilEmpty.string_of_uint d) true (Z.pos acc) = Num (Z.pos (Pos.of_uint_acc d acc)).
Proof.
  induction d; intros acc; cbn [NilEmpty.string_of_uint read_digits Pos.of_uint_acc];
    [reflexivity|..];
    (change (digit_of _) with (Some 0) || change (digit_of _) with (Some 1)
     || change (digit_of _) with (Some 2) || change (digit_of _) with (Some 3)
     || change (digit_of _) with (Some 4) || change (digit_of _) with (Some 5)
     || change (digit_of _) with (Some 6) || change (digit_of _) with (Some 7)
     || change (digit_of _) with (Some 8) || change (digit_of _) with (Some 9));
    cbv iota beta;
    match goal with
    | |- read_digits _ true ?z = Num (Z.pos (Pos.of_uint_acc _ ?p)) =>
        replace z with (Z.pos p) by lia
    end; apply IHd.
Qed.

Lemma read_digits_uint d seen :
  (seen = true \/ d <> Decimal.Nil) ->
  read_digits (NilEmpty.string_of_uint d) seen 0 = Num (Z.of_N (Pos.of_uint d)).
Proof.
  revert seen. induction d; intros seen Hs;
    cbn [NilEmpty.string_of_uint read_digits Pos.of_uint].
  1: { destruct Hs as [->|Hs]; [reflexivity|contradiction]. }
  1: { change (digit_of _) with (Some 0). cbv iota beta. change (10 * 0 + 0) with 0.
       apply IHd; left; reflexivity. }
  all: match goal with
       | |- context [digit_of ?c] =>
           let v := eval vm_compute in (digit_of c) in change (digit_of c) with v
       end; cbv iota beta;
       match goal with
       | |- read_digits _ true ?z = Num (Z.of_N (N.pos (Pos.of_uint_acc _ ?p))) =>
           change z with (Z.pos p)
       end; apply read_digits_acc.
Qed.

Lemma to_uint_head p :
  exists c rest, NilEmpty.string_of_uint (Pos.to_uint p) = String c rest /\
                 digit_of c <> None.
Proof.
  pose proof (Unsigned.to_uint_nonnil p) as Hn.
  destruct (Pos.to_uint p); [contradiction| ..];
    cbn [NilEmpty.string_of_uint]; eexists; eexists; (split; [reflexivity|]);
    vm_compute; discriminate.
Qed.

Lemma digit_not_special c :
  digit_of c <> None ->
  is_white_space c = false /\ c <> "-"%char /\ c <> "+"%char.
Proof.
  intros Hd. repeat split.
  - destruct c as [[] [] [] [] [] [] [] []]; try reflexivity; exfalso; apply Hd; reflexivity.
  - intros ->. apply Hd. reflexivity.
  - intros ->. apply Hd. reflexivity.
Qed.

Lemma parseInt_digits c rest :
  digit_of c <> None ->
  parseInt (String c rest) = read_digits (String c rest) false 0.
Proof.
  intros Hd. destruct (digit_not_special c Hd) as [Hw [Hm Hp]].
  unfold parseInt. cbn [skip_white_space]. rewrite Hw.
  destruct c as [[] [] [] [] [] [] [] []]; try reflexivity;
    (exfalso; (apply Hm; reflexivity) || (apply Hp; reflexivity)).
Qed.

(** [parseInt] reads back the decimal text of every integer. *)
Lemma parseInt_decimal_text z : parseInt (decimal_text z) = Num z.
Proof.
  unfold decimal_text. destruct z as [|p|p]; cbn [Z.to_int NilZero.string_of_int].
  - reflexivity.
  - pose proof (Unsigned.to_uint_nonnil p) as Hn.
    destruct (to_uint_head p) as [c [rest [Hs Hd]]].
    assert (Hz : NilZero.string_of_uint (Pos.to_uint p) = NilEmpty.string_of_uint (Pos.to_uint p))
      by (destruct (Pos.to_uint p); [contradiction|reflexivity..]).
    rewrite Hz, Hs, (parseInt_digits c rest Hd), <- Hs.
    rewrite read_digits_uint by (right; exact Hn).
    rewrite Unsigned.of_to. reflexivity.
  - pose proof (Unsigned.to_uint_nonnil p) as Hn.
    assert (Hz : NilZero.string_of_uint (Pos.to_uint p) = NilEmpty.string_of_uint (Pos.to_uint p))
      by (destruct (Pos.to_uint p); [contradiction|reflexivity..]).
    rewrite Hz. unfold parseInt. cbn [skip_white_space].
    change (is_white_space _) with false. cbv iota.
    rewrite read_digits_uint by (right; exact Hn).
    rewrite Unsigned.of_to. reflexivity.
Qed.

Lemma decimal_text_inj a b : decimal_text a = decimal_text b -> a = b.
Proof.
  intros H. pose proof (parseInt_decimal_text a) as Ha.
  rewrite H, parseInt_decimal_text in Ha. injection Ha as Ha. symmetry. exact Ha.
Qed.

Lemma length_append (s t : string) :
  String.length (s ++ t) = (String.length s + String.length t)%nat.
Proof. induction s as [|c s IH]; cbn; [reflexivity|]. rewrite IH. reflexivity. Qed.

Lemma append_inj_r (s1 s2 t : string) : (s1 ++ t = s2 ++ t)%string -> s1 = s2.
Proof.
  revert s2. induction s1 as [|c s1 IH]; intros [|c2 s2] H; cbn in H.
  - reflexivity.
  - exfalso. apply (f_equal String.length) in H. cbn in H. rewrite length_append in H. lia.
  - exfalso. apply (f_equal String.length) in H. cbn in H. rewrite length_append in H. lia.
  - injection H as -> H. rewrite (IH _ H). reflexivity.
Qed.

(** ** The transport *)

Lemma obj_get_set_same k v o : obj_get k (obj_set k v o) = Some v.
Proof.
  induction o as [|[k' v'] o IH]; cbn.
  - rewrite String.eqb_refl. reflexivity.
  - destruct (String.eqb_spec k' k) as [->|Hne]; cbn.
    + rewrite String.eqb_refl. reflexivity.
    + destruct (String.eqb_spec k' k); [contradiction|exact IH].
Qed.

Lemma obj_get_set_other k k' v o : k' <> k -> obj_get k' (obj_set k v o) = obj_get k' o.
Proof.
  intros Hne. induction o as [|[k0 v0] o IH]; cbn.
  - destruct (String.eqb_spec k k'); [congruence|reflexivity].
  - destruct (String.eqb_spec k0 k) as [->|Hk]; cbn.
    + destruct (String.eqb_spec k k'); [congruence|reflexivity].
    + rewrite IH. reflexivity.
Qed.

(** X13. Every request carries the header Authorization with the value
    "Token <token> " (trailing space included): a header of that name
    supplied by the caller is replaced, every other header of the caller
    is passed on unchanged.  The URL is the path under
    https://api.dwelo.com, and the method defaults to GET only when none
    is given. *)
Theorem request_is_authorized (api : DweloAPI) (path : string) (opts : RequestOptions)
    (k : string) :
  let r := request api path opts in
  obj_get "Authorization" (req_headers r) = Some ("Token " ++ token api ++ " ")%string /\
  (k <> "Authorization" ->
   obj_get k (req_headers r) = obj_get k (obj_spread (opt_headers opts))) /\
  req_url r = ("https://api.dwelo.com" ++ path)%string /\
  (opt_method opts = None -> req_method r = "GET") /\
  (forall m, opt_method opts = Some m -> req_method r = m).
Proof.
  cbv zeta. unfold request. cbn [req_headers req_url req_method].
  split; [apply obj_get_set_same|]. split; [apply obj_get_set_other|].
  split; [reflexivity|]. split; [intros ->; reflexivity|intros m ->; reflexivity].
Qed.

(** X14. A lock command identifies its device and its direction: for
    ids that are safe integers (of magnitude below 2^53), which the
    template literal prints as their decimal digits, two toggleLock
    requests are equal only for the same id and the same flag.  A
    toggleLock request is a POST with the API token to the same command
    URL as a switch command for that id, from which it differs by the
    command word alone ("lock"/"unlock" against "on"/"off"). *)
Theorem toggleLock_addresses_one_device (text : Z -> string) (api : DweloAPI)
    (b1 b2 : bool) (id1 id2 : Z) :
  prints_safe_integers text ->
  (Z.abs id1 < 2 ^ 53 -> Z.abs id2 < 2 ^ 53 ->
   toggleLock text api b1 id1 = toggleLock text api b2 id2 -> b1 = b2 /\ id1 = id2) /\
  req_method (toggleLock text api b1 id1) = "POST" /\
  obj_get "Authorization" (req_headers (toggleLock text api b1 id1))
    = Some ("Token " ++ token api ++ " ")%string /\
  req_url (toggleLock text api b1 id1) = req_url (toggleSwitch text api b2 id1) /\
  toggleLock text api b1 id1 <> toggleSwitch text api b2 id2 /\
  req_data (toggleLock text api b1 id1)
    = Some [("command", if b1 then "lock" else "unlock")].
Proof.
  intros Htext.
  split; [|split; [reflexivity|split; [reflexivity|split; [reflexivity|split]]]].
  - intros Hsafe1 Hsafe2.
    unfold toggleLock, request. cbn [opt_method opt_params opt_data opt_headers].
    rewrite (Htext id1 Hsafe1), (Htext id2 Hsafe2).
    intros H. injection H as Hurl Hdata. split.
    + destruct b1, b2; try reflexivity; discriminate Hdata.
    + cbn in Hurl. apply append_inj_r in Hurl. apply decimal_text_inj. exact Hurl.
  - unfold toggleLock, toggleSwitch, request. cbn [opt_method opt_params opt_data opt_headers].
    intros H. injection H as _ Hdata. destruct b1, b2; discriminate Hdata.
  - reflexivity.
Qed.

(** ** The accessory on the wire *)

Ltac own_calls_tac :=
  repeat first
    [ apply never_ret | apply never_throw | apply never_get | apply never_modify
    | apply never_await
    | apply never_emit; cbn; rewrite ?Z.eqb_refl; reflexivity
    | apply never_bind; [|intros ?]
    | apply never_try_catch; [|intros ?]
    | match goal with
      | |- never _ (match ?x with _ => _ end) => destruct x
      | |- never _ (if ?x then _ else _) => destruct x
      end ].

Lemma own_calls_setBatteryLevel cfg readings : never (foreign cfg) (setBatteryLevel readings).
Proof. unfold setBatteryLevel, log. own_calls_tac. Qed.

Lemma own_calls_setTargetLockState cfg v : never (foreign cfg) (setTargetLockState cfg v).
Proof.
  unfold setTargetLockState, sendLockCommand, startWatchdog, setTimeout, clearTimeout, log.
  own_calls_tac.
Qed.

Lemma own_calls_handle_event cfg ev : never (foreign cfg) (handle_event cfg ev).
Proof.
  destruct ev as [| |v|h|k r|r]; cbn [handle_event].
  - unfold getLockState. own_calls_tac.
  - unfold getTargetLockState, getLockState. own_calls_tac.
  - apply own_calls_setTargetLockState.
  - unfold fire, clearTimeout. own_calls_tac.
    unfold run_callback, poll, watchdog_callback, autoLock_callback,
      reconcileTargetWithCurrent, getLockState, log.
    own_calls_tac; apply own_calls_setTargetLockState.
  - destruct k.
    + unfold poll_resume, maintainAutoLock, completionCheck, startAutoLockTimer,
        cancelAutoLockTimer, setTimeout, clearTimeout, log.
      own_calls_tac; apply own_calls_setBatteryLevel.
    + own_calls_tac; apply own_calls_setBatteryLevel.
    + own_calls_tac; apply own_calls_setBatteryLevel.
    + own_calls_tac; apply own_calls_setBatteryLevel.
  - unfold sendLockCommand_resume, reconcileTargetWithCurrent, getLockState, log.
    own_calls_tac.
Qed.

Lemma http_requests_in text api out r :
  In r (http_requests text api out) ->
  (exists id k, In (CallSensors id k) out /\ r = sensors api id) \/
  (exists b id, In (CallToggleLock b id) out /\ r = toggleLock text api b id).
Proof.
  induction out as [|e out IH]; cbn; [intros []|].
  destruct e as [lvl msg|c v|id k|b id]; cbn.
  - intros Hin. destruct (IH Hin) as [[id [k [H1 H2]]]|[b [id [H1 H2]]]];
      [left; exists id, k|right; exists b, id]; auto.
  - intros Hin. destruct (IH Hin) as [[id [k [H1 H2]]]|[b [id [H1 H2]]]];
      [left; exists id, k|right; exists b, id]; auto.
  - intros [<-|Hin]; [left; exists id, k; auto|].
    destruct (IH Hin) as [[id' [k' [H1 H2]]]|[b [id' [H1 H2]]]];
      [left; exists id', k'|right; exists b, id']; auto.
  - intros [<-|Hin]; [right; exists b, id; auto|].
    destruct (IH Hin) as [[id' [k' [H1 H2]]]|[b' [id' [H1 H2]]]];
      [left; exists id', k'|right; exists b', id']; auto.
Qed.

(** X15. Whatever task runs in whatever state, the requests it sends
    through the API are for the accessory's own lock only: each one is
    the sensors query of lockID (a GET) or a lock/unlock command for
    lockID (a POST), and each carries the API token. *)
Theorem accessory_requests (text : Z -> string) (api : DweloAPI) (cfg : Config)
    (st : Accessory) (ev : Event) (r : AxiosRequest) :
  In r (http_requests text api (output cfg st ev)) ->
  (r = sensors api (lockID cfg) /\ req_method r = "GET" \/
   exists b, r = toggleLock text api b (lockID cfg) /\ req_method r = "POST" /\
             In (CallToggleLock b (lockID cfg)) (output cfg st ev)) /\
  obj_get "Authorization" (req_headers r) = Some ("Token " ++ token api ++ " ")%string.
Proof.
  intros Hin. pose proof (own_calls_handle_event cfg ev st) as Hown.
  unfold emitted in Hown. fold (output cfg st ev) in Hown.
  destruct (http_requests_in text api _ r Hin) as [[id [k [H1 ->]]]|[b [id [H1 ->]]]].
  - pose proof (Hown _ H1) as Hid. cbn in Hid.
    apply negb_false_iff, Z.eqb_eq in Hid. subst id.
    split; [left; split; reflexivity|reflexivity].
  - pose proof (Hown _ H1) as Hid. cbn in Hid.
    apply negb_false_iff, Z.eqb_eq in Hid. subst id.
    split; [right; exists b; repeat split; assumption|reflexivity].
Qed.

(** ** What HomeKit is told *)

Lemma never_in p {A} (m : M A) st e : never p m -> In e (emitted m st) -> p e = true -> False.
Proof. intros Hm Hin Hp. rewrite (Hm st e Hin) in Hp. discriminate. Qed.

Lemma never_current_setBatteryLevel readings :
  never is_current_update (setBatteryLevel readings).
Proof. unfold setBatteryLevel, log. never_tac. Qed.

Lemma never_target_setBatteryLevel readings :
  never is_target_update (setBatteryLevel readings).
Proof. unfold setBatteryLevel, log. never_tac. Qed.

Lemma never_current_setTargetLockState cfg v :
  never is_current_update (setTargetLockState cfg v).
Proof.
  unfold setTargetLockState, sendLockCommand, startWatchdog, setTimeout, clearTimeout, log.
  never_tac.
Qed.

(** X16. The current-state attribute is written by polls and by nothing
    else: a task writes it only if it is a poll whose query resolved,
    and then it writes the state translated from the readings (UNKNOWN
    included).  On-demand reads, target requests, reconciliation and
    timers never write it. *)
Theorem current_state_written_by_polls (cfg : Config) (st : Accessory) (ev : Event)
    (v : JSNumber) (readings : list Sensor) :
  (In (UpdateValue LockCurrentStateC v) (output cfg st ev) ->
   exists observed, ev = poll_done observed /\ v = Num (toLockState observed)) /\
  filter is_current_update (output cfg st (poll_done readings)) =
    [UpdateValue LockCurrentStateC (Num (toLockState readings))].
Proof.
  split.
  - unfold output. fold (emitted (handle_event cfg ev) st). intros Hin.
    assert (Hnever : forall A (m : M A), never is_current_update m ->
                                         In (UpdateValue LockCurrentStateC v) (emitted m st) ->
                                         False).
    { intros A m Hm Hi. exact (never_in _ m st _ Hm Hi eq_refl). }
    destruct ev as [| |x|h|k r|r]; cbn [handle_event] in Hin.
    + exfalso. revert Hin. apply Hnever. unfold getLockState. never_tac.
    + exfalso. revert Hin. apply Hnever. unfold getTargetLockState, getLockState. never_tac.
    + exfalso. revert Hin. apply Hnever. apply never_current_setTargetLockState.
    + exfalso. revert Hin. apply Hnever. unfold fire, clearTimeout. never_tac.
      unfold run_callback, poll, watchdog_callback, autoLock_callback,
        reconcileTargetWithCurrent, getLockState, log.
      never_tac; apply never_current_setTargetLockState.
    + destruct k.
      * destruct r as [observed|err].
        -- exists observed. split; [reflexivity|].
           rewrite poll_resume_emitted in Hin. apply in_app_iff in Hin.
           destruct Hin as [Hin|[Heq|Hin]].
           ++ exfalso. exact (never_in _ _ st _ (never_current_setBatteryLevel observed)
                                Hin eq_refl).
           ++ injection Heq as <-. reflexivity.
           ++ exfalso. revert Hin.
              rewrite <- (emitted_bind _ (fun _ => completionCheck (toLockState observed))
                            st tt (maintainAutoLock_outcome cfg _ st)).
              apply Hnever.
              unfold maintainAutoLock, completionCheck, startAutoLockTimer,
                cancelAutoLockTimer, setTimeout, clearTimeout, log.
              never_tac.
        -- exfalso. revert Hin. apply Hnever. unfold poll_resume, log. never_tac.
      * exfalso. revert Hin. apply Hnever. never_tac; apply never_current_setBatteryLevel.
      * exfalso. revert Hin. apply Hnever. never_tac; apply never_current_setBatteryLevel.
      * exfalso. revert Hin. apply Hnever. never_tac; apply never_current_setBatteryLevel.
    + exfalso. revert Hin. apply Hnever.
      unfold sendLockCommand_resume, reconcileTargetWithCurrent, getLockState, log. never_tac.
  - unfold output, poll_done. cbn [handle_event].
    fold (emitted (poll_resume cfg (Resolved readings)) st).
    rewrite poll_resume_emitted, filter_app. cbn [filter is_current_update].
    rewrite (never_count is_current_update _ st (never_current_setBatteryLevel readings)).
    assert (Hrest : never is_current_update
                      (maintainAutoLock cfg (toLockState readings) ;;
                       completionCheck (toLockState readings))).
    { unfold maintainAutoLock, completionCheck, startAutoLockTimer,
        cancelAutoLockTimer, setTimeout, clearTimeout, log.
      never_tac. }
    pose proof (never_count is_current_update _ st Hrest) as Hr.
    rewrite (emitted_bind _ _ st tt (maintainAutoLock_outcome cfg _ st)) in Hr.
    rewrite Hr. reflexivity.
Qed.

Lemma mirrors_silent {A} (m : M A) st st' :
  never is_target_update m ->
  desiredTarget st' = desiredTarget st ->
  mirrors st st' (emitted m st).
Proof.
  intros Hm Hd. split.
  - intros v Hin. exfalso. exact (never_in _ m st _ Hm Hin eq_refl).
  - intros Hne. contradiction.
Qed.

Lemma mirrors_setTargetLockState cfg v st0 st :
  desiredTarget st = desiredTarget st0 ->
  mirrors st0 (exec (setTargetLockState cfg v) st) (emitted (setTargetLockState cfg v) st).
Proof.
  intros Hd0. unfold exec, emitted. rewrite setTargetLockState_eq. cbv zeta.
  destruct (_ && _)%bool.
  - cbn. split.
    + intros x [Heq|[]]. discriminate Heq.
    + intros Hne. contradiction.
  - destruct (inFlight st); cbn; split.
    + intros x [Heq|[Heq|[]]]; try discriminate Heq. injection Heq as <-.
      exists (requested v). split; reflexivity.
    + intros _. exists (requested v). split; [reflexivity|left; reflexivity].
    + intros x [Heq|[Heq|[Heq|[]]]]; try discriminate Heq. injection Heq as <-.
      exists (requested v). split; reflexivity.
    + intros _. exists (requested v). split; [reflexivity|left; reflexivity].
Qed.

Lemma mirrors_cons st st' e out :
  is_target_update e = false -> mirrors st st' out -> mirrors st st' (e :: out).
Proof.
  intros He [H1 H2]. split.
  - intros v [Heq|Hin]; [subst e; discriminate He|auto].
  - intros Hne. destruct (H2 Hne) as [d [Hd Hin]]. exists d. split; [exact Hd|right; exact Hin].
Qed.

(** X17. The target-state attribute mirrors desiredTarget: whenever a
    task writes the attribute, the value written is the desiredTarget
    the task leaves behind, and whenever a task changes desiredTarget
    (a request that is not coalesced, the auto-lock callback, a
    reconciliation) it writes the new value to the attribute. *)
Theorem target_attribute_mirrors (cfg : Config) (st : Accessory) (ev : Event) :
  (forall v, In (UpdateValue LockTargetStateC v) (output cfg st ev) ->
             exists d, desiredTarget (step cfg st ev) = Some d /\ v = Num d) /\
  (desiredTarget (step cfg st ev) <> desiredTarget st ->
   exists d, desiredTarget (step cfg st ev) = Some d /\
             In (UpdateValue LockTargetStateC (Num d)) (output cfg st ev)).
Proof.
  change (mirrors st (step cfg st ev) (output cfg st ev)).
  unfold step, output.
  fold (exec (handle_event cfg ev) st). fold (emitted (handle_event cfg ev) st).
  destruct ev as [| |v|h|k r|r].
  - apply mirrors_silent; [|reflexivity]. cbn [handle_event]. unfold getLockState. never_tac.
  - rewrite getTargetLockState_exec. apply mirrors_silent; [|reflexivity].
    cbn [handle_event]. unfold getTargetLockState, getLockState. never_tac.
  - apply mirrors_setTargetLockState. reflexivity.
  - cbn [handle_event]. rewrite fire_exec. pose proof (fire_emitted cfg h st) as Hem.
    destruct (find _ (timers st)) as [t|] eqn:Hfind.
    + cbv zeta. destruct (callback t) eqn:Hcb.
      * rewrite Hem. apply mirrors_silent; [|destruct (repeat t); reflexivity].
        unfold run_callback, poll, clearTimeout. never_tac.
      * rewrite Hem. apply mirrors_silent; [|destruct (repeat t); reflexivity].
        unfold run_callback, watchdog_callback, reconcileTargetWithCurrent, getLockState,
          clearTimeout, log. never_tac.
      * rewrite (fire_autoLock_emitted cfg st h t Hfind Hcb).
        apply mirrors_cons; [reflexivity|].
        apply mirrors_setTargetLockState. destruct (repeat t); reflexivity.
    + rewrite Hem. split; [intros v []|intros Hne; contradiction].
  - destruct k.
    + cbn [handle_event]. apply mirrors_silent.
      * unfold poll_resume, maintainAutoLock, completionCheck, startAutoLockTimer,
          cancelAutoLockTimer, setTimeout, clearTimeout, log.
        never_tac; apply never_target_setBatteryLevel.
      * rewrite poll_resume_exec. destruct r as [readings|]; [|reflexivity].
        rewrite completionCheck_exec.
        destruct (maintainAutoLock_session cfg (toLockState readings) st) as [_ Hd1].
        destruct (_ && _)%bool; cbn; exact Hd1.
    + rewrite read_resume_exec by auto. apply mirrors_silent; [|reflexivity].
      cbn [handle_event]. never_tac; apply never_target_setBatteryLevel.
    + rewrite read_resume_exec by auto. apply mirrors_silent; [|reflexivity].
      cbn [handle_event]. never_tac; apply never_target_setBatteryLevel.
    + cbn [handle_event]. destruct r as [readings|err].
      * unfold exec, emitted. rewrite reconcileTargetWithCurrent_resume_eq. cbn [fst snd].
        split.
        -- intros v Hin. apply in_app_iff in Hin. destruct Hin as [Hin|[Heq|[Heq|[]]]].
           ++ exfalso. exact (never_in _ _ st _ (never_target_setBatteryLevel readings)
                                Hin eq_refl).
           ++ discriminate Heq.
           ++ injection Heq as <-. eexists. split; reflexivity.
        -- intros _. eexists. split; [reflexivity|].
           apply in_app_iff. right. right. left. reflexivity.
      * split; [intros v []|intros Hne; contradiction Hne; reflexivity].
  - cbn [handle_event]. apply mirrors_silent.
    + unfold sendLockCommand_resume, reconcileTargetWithCurrent, getLockState, log. never_tac.
    + rewrite sendLockCommand_resume_exec. destruct r; reflexivity.
Qed.

(** X18. An on-demand read of the current state that resolves answers
    the state translated from the readings and refreshes the battery
    attributes, and that is all: the accessory's state is unchanged, so
    a session in flight stays in flight even when the read observes the
    state its target implies (only a poll completes it), and the
    auto-lock timer is neither armed nor cancelled. *)
Theorem on_demand_read_is_passive (cfg : Config) (st : Accessory)
    (readings : list Sensor) :
  getLockState_resume (Resolved readings) st =
    (Returned (toLockState readings), st,
     emitted (setBatteryLevel readings) st
       ++ [Log Debug (MsgCurrentState (toLockState readings))]) /\
  run cfg [OnGetLockCurrentState; SensorsSettled InGetLockState (Resolved readings)] st = st /\
  filter is_dispatch
    (trace cfg [OnGetLockCurrentState; SensorsSettled InGetLockState (Resolved readings)] st)
    = [].
Proof.
  assert (H1 : getLockState_resume (Resolved readings) st =
               (Returned (toLockState readings), st,
                emitted (setBatteryLevel readings) st
                  ++ [Log Debug (MsgCurrentState (toLockState readings))])).
  { unfold getLockState_resume. cbn [await].
    unfold bind at 1. unfold ret at 1. unfold bind at 1.
    rewrite setBatteryLevel_eq. reflexivity. }
  split; [exact H1|]. split.
  - cbn [run fold_left]. unfold step at 2. cbn [handle_event getLockState emit snd fst].
    unfold step. fold (exec (handle_event cfg (SensorsSettled InGetLockState (Resolved readings))) st).
    apply read_resume_exec. auto.
  - cbn [trace]. unfold output at 1. cbn [handle_event getLockState emit snd filter is_dispatch app].
    rewrite app_nil_r. unfold step. cbn [handle_event getLockState emit snd fst].
    unfold output. cbn [handle_event].
    fold (emitted (getLockState_resume (Resolved readings) ;; ret tt) st).
    apply never_count. never_tac. apply never_dispatch_setBatteryLevel.
Qed.

(** ** Further concrete runs *)

Lemma dispatch_begins_session_witness :
  let st := new_accessory sample_config in
  let ev := OnSetLockTargetState secured in
  In (CallToggleLock true 42) (output sample_config st ev) /\
  inFlight st = false /\
  inFlight (step sample_config st ev) = true /\
  dispatches (output sample_config st ev) = 1%nat.
Proof.
  cbv zeta.
  assert (Hin : In (CallToggleLock true 42)
                  (output sample_config (new_accessory sample_config)
                     (OnSetLockTargetState secured)))
    by (vm_compute; tauto).
  destruct (dispatch_begins_session sample_config _ _ true 42 Hin) as [H1 [H2 [_ [_ H5]]]].
  split; [exact Hin|]. split; [exact H1|]. split; [exact H2|exact H5].
Defined.

Lemma session_ends_only_by_witness :
  let st := run sample_config [OnSetLockTargetState secured] (new_accessory sample_config) in
  let ev := ToggleLockSettled (Rejected "ECONNRESET") in
  inFlight st = true /\
  inFlight (step sample_config st ev) = false /\
  ((exists readings d, ev = poll_done readings /\
                       desiredTarget st = Some d /\ toLockState readings = implied d) \/
   (exists h t, ev = TimerFired h /\
                find (fun x => Nat.eqb (handle x) h) (timers st) = Some t /\
                callback t = WatchdogCb) \/
   (exists err, ev = ToggleLockSettled (Rejected err))).
Proof.
  cbv zeta. split; [reflexivity|]. split; [reflexivity|].
  exact (session_ends_only_by sample_config
           (run sample_config [OnSetLockTargetState secured] (new_accessory sample_config))
           (ToggleLockSettled (Rejected "ECONNRESET")) eq_refl eq_refl).
Defined.

Lemma session_has_target_witness :
  let st := run sample_config [OnSetLockTargetState (CVBool true)]
              (new_accessory sample_config) in
  inFlight st = true /\
  desiredTarget st = Some LockTargetState.UNSECURED /\
  desiredTarget st <> None /\
  is_target LockTargetState.UNSECURED /\
  desiredTarget (run sample_config [TimerFired 1%nat] st) <> None.
Proof.
  cbv zeta.
  destruct (session_has_target sample_config [OnSetLockTargetState (CVBool true)]
              [TimerFired 1%nat]) as [H1 [H2 H3]].
  split; [reflexivity|]. split; [reflexivity|]. split; [exact (H1 eq_refl)|].
  split; [exact (H2 _ eq_refl)|exact (H3 (H1 eq_refl))].
Defined.

Lemma in_flight_has_watchdog_witness :
  let st := run sample_config
              [OnSetLockTargetState secured; TimerFired 0%nat;
               poll_done [lock_reading "unlocked"]]
              (new_accessory sample_config) in
  inFlight st = true /\ watchdogArmed st = true.
Proof.
  cbv zeta. split; [reflexivity|].
  exact (in_flight_has_watchdog sample_config
           [OnSetLockTargetState secured; TimerFired 0%nat;
            poll_done [lock_reading "unlocked"]] eq_refl).
Defined.

Lemma autoLock_disabled_witness :
  let cfg := mkConfig 5000 0 "Front Door" 42 in
  let evs := [TimerFired 0%nat; poll_done [lock_reading "unlocked"]; TimerFired 1%nat] in
  autoLockMinutes cfg <= 0 /\
  autoLockArmed (run cfg evs (new_accessory cfg)) = false /\
  ~ In relock_attempt (trace cfg evs (new_accessory cfg)).
Proof.
  cbv zeta.
  assert (Hoff : autoLockMinutes (mkConfig 5000 0 "Front Door" 42) <= 0) by (cbn; lia).
  destruct (autoLock_disabled (mkConfig 5000 0 "Front Door" 42)
              [TimerFired 0%nat; poll_done [lock_reading "unlocked"]; TimerFired 1%nat]
              Hoff) as [_ [H2 H3]].
  split; [exact Hoff|]. split; [exact H2|exact H3].
Defined.

Lemma autoLock_round_trip_witness :
  let st := run sample_config [TimerFired 0%nat] (new_accessory sample_config) in
  let st1 := step sample_config st (poll_done [lock_reading "unlocked"]) in
  let st2 := step sample_config st1 (poll_done [lock_reading "locked"]) in
  filter is_autoLock (timers st1) = [mkTimer 1%nat AutoLockCb 60000 false] /\
  autoLockArmed st2 = false /\
  handle_event sample_config (TimerFired 1%nat) st2 = (Returned tt, st2, []).
Proof.
  cbv zeta.
  assert (Hpos : 0 < autoLockMinutes sample_config) by (cbn; lia).
  destruct (autoLock_round_trip sample_config [TimerFired 0%nat]
              [lock_reading "unlocked"] [lock_reading "locked"] eq_refl Hpos eq_refl eq_refl)
    as [_ [H2 [_ [H4 [H5 _]]]]].
  split; [exact H2|]. split; [exact H4|exact H5].
Defined.

Lemma autoLock_expiry_witness :
  let st := run sample_config
              [OnSetLockTargetState unsecured; TimerFired 0%nat;
               poll_done [lock_reading "unlocked"];
               OnSetLockTargetState unsecured]
              (new_accessory sample_config) in
  inFlight st = true /\
  desiredTarget st = Some LockTargetState.UNSECURED /\
  desiredTarget (step sample_config st (TimerFired 2%nat)) = Some LockTargetState.SECURED /\
  dispatches (output sample_config st (TimerFired 2%nat)) = 0%nat.
Proof.
  cbv zeta.
  destruct (autoLock_expiry sample_config
              [OnSetLockTargetState unsecured; TimerFired 0%nat;
               poll_done [lock_reading "unlocked"];
               OnSetLockTargetState unsecured]
              (mkTimer 2%nat AutoLockCb 60000 false) eq_refl eq_refl)
    as [_ [H2 [_ [_ H5]]]].
  split; [reflexivity|]. split; [reflexivity|]. split; [exact H2|].
  exact (proj1 (H5 eq_refl)).
Defined.

Lemma target_read_falls_back_witness :
  let st := new_accessory sample_config in
  desiredTarget st = None /\
  outcome (getTargetLockState_resume (Resolved [battery_reading "80"])) st
    = Returned LockTargetState.UNSECURED /\
  run sample_config
    [OnGetLockTargetState;
     SensorsSettled InGetTargetLockState (Resolved [battery_reading "80"])] st = st.
Proof.
  cbv zeta.
  destruct (target_read_falls_back sample_config (new_accessory sample_config)
              (Resolved [battery_reading "80"]) eq_refl) as [_ [H2 [H3 _]]].
  split; [reflexivity|]. split; [exact H2|exact H3].
Defined.

Lemma late_reconciliation_overrides_witness :
  let st := run sample_config
              [OnSetLockTargetState secured; TimerFired 1%nat; OnSetLockTargetState secured]
              (new_accessory sample_config) in
  let st2 := run sample_config
               [SensorsSettled InReconcile (Resolved [lock_reading "unlocked"]);
                poll_done [lock_reading "unlocked"]] st in
  let st2' := run sample_config
                [SensorsSettled InReconcile (Resolved [battery_reading "80"]);
                 poll_done [battery_reading "80"]] st in
  inFlight st = true /\
  desiredTarget st = Some LockTargetState.SECURED /\
  inFlight st2 = false /\
  desiredTarget st2 = Some LockTargetState.UNSECURED /\
  inFlight st2' = true /\
  desiredTarget st2' = Some LockTargetState.UNSECURED.
Proof.
  cbv zeta.
  destruct (late_reconciliation_overrides sample_config
              [OnSetLockTargetState secured; TimerFired 1%nat; OnSetLockTargetState secured]
              [lock_reading "unlocked"] eq_refl)
    as [_ [_ [H3 [H4 _]]]].
  destruct (late_reconciliation_overrides sample_config
              [OnSetLockTargetState secured; TimerFired 1%nat; OnSetLockTargetState secured]
              [battery_reading "80"] eq_refl)
    as [_ [_ [_ [_ H5]]]].
  split; [reflexivity|]. split; [reflexivity|].
  split; [exact (proj1 (H4 (or_intror eq_refl)))|]. split; [exact H3|].
  split; [exact (proj1 (proj2 (H5 eq_refl)))|exact (proj1 (H5 eq_refl))].
Defined.

Lemma poll_battery_level_witness :
  let st := new_accessory sample_config in
  filter is_battery_update
    (output sample_config st (poll_done [lock_reading "locked"])) = [] /\
  filter is_battery_update
    (output sample_config st
       (poll_done ([lock_reading "locked"] ++ battery_reading "20" :: [battery_reading "90"])))
    = [UpdateValue BatteryLevelC (Num 20);
       UpdateValue StatusLowBatteryC (Num StatusLowBattery.BATTERY_LEVEL_LOW)].
Proof.
  cbv zeta.
  assert (Hpre : Forall (fun x => sensorType x <> "battery") [lock_reading "locked"]).
  { constructor; [discriminate|constructor]. }
  exact (poll_battery_level sample_config (new_accessory sample_config)
           [lock_reading "locked"] [battery_reading "90"] (battery_reading "20") 20
           Hpre eq_refl eq_refl).
Defined.

Lemma request_is_authorized_witness :
  let opts := mkOptions (Some [("Authorization", "Bearer x"); ("Accept", "application/json")])
                None None None in
  let r := request sample_api "/v3/device" opts in
  obj_get "Authorization" (req_headers r) = Some "Token s3cr3t " /\
  obj_get "Accept" (req_headers r) = Some "application/json" /\
  req_method r = "GET".
Proof.
  cbv zeta.
  destruct (request_is_authorized sample_api "/v3/device"
              (mkOptions (Some [("Authorization", "Bearer x"); ("Accept", "application/json")])
                 None None None) "Accept") as [H1 [H2 [_ [H4 _]]]].
  split; [exact H1|]. split; [|exact (H4 eq_refl)].
  apply H2. discriminate.
Defined.

Lemma toggleLock_addresses_one_device_witness :
  prints_safe_integers decimal_text /\
  Z.abs 42 < 2 ^ 53 /\ Z.abs 43 < 2 ^ 53 /\
  (toggleLock decimal_text sample_api true 42 = toggleLock decimal_text sample_api true 43 ->
   true = true /\ 42 = 43) /\
  toggleLock decimal_text sample_api true 42 <> toggleSwitch decimal_text sample_api true 42 /\
  req_url (toggleLock decimal_text sample_api true 42)
    = "https://api.dwelo.com/v3/device/42/command/".
Proof.
  assert (Htext : prints_safe_integers decimal_text) by (intros n _; reflexivity).
  assert (H42 : Z.abs 42 < 2 ^ 53) by reflexivity.
  assert (H43 : Z.abs 43 < 2 ^ 53) by reflexivity.
  destruct (toggleLock_addresses_one_device decimal_text sample_api true true 42 43 Htext)
    as [H1 _].
  destruct (toggleLock_addresses_one_device decimal_text sample_api true true 42 42 Htext)
    as [_ [_ [_ [_ [H5 _]]]]].
  split; [exact Htext|]. split; [exact H42|]. split; [exact H43|].
  split; [exact (H1 H42 H43)|]. split; [exact H5|reflexivity].
Defined.

Lemma accessory_requests_witness :
  let st := new_accessory sample_config in
  let ev := OnSetLockTargetState secured in
  In (toggleLock decimal_text sample_api true 42)
    (http_requests decimal_text sample_api (output sample_config st ev)) /\
  obj_get "Authorization" (req_headers (toggleLock decimal_text sample_api true 42))
    = Some "Token s3cr3t ".
Proof.
  cbv zeta.
  assert (Hin : In (toggleLock decimal_text sample_api true 42)
                  (http_requests decimal_text sample_api
                     (output sample_config (new_accessory sample_config)
                        (OnSetLockTargetState secured))))
    by (left; reflexivity).
  split; [exact Hin|].
  exact (proj2 (accessory_requests decimal_text sample_api sample_config _ _ _ Hin)).
Defined.

Lemma current_state_written_by_polls_witness :
  let st := new_accessory sample_config in
  let ev := poll_done [battery_reading "80"] in
  In (UpdateValue LockCurrentStateC (Num LockCurrentState.UNKNOWN)) (output sample_config st ev) /\
  exists observed, ev = poll_done observed /\
                   Num LockCurrentState.UNKNOWN = Num (toLockState observed).
Proof.
  cbv zeta.
  assert (Hin : In (UpdateValue LockCurrentStateC (Num LockCurrentState.UNKNOWN))
                  (output sample_config (new_accessory sample_config)
                     (poll_done [battery_reading "80"])))
    by (vm_compute; tauto).
  split; [exact Hin|].
  exact (proj1 (current_state_written_by_polls sample_config _ _ _ []) Hin).
Defined.

Lemma target_attribute_mirrors_witness :
  let st := new_accessory sample_config in
  let ev := OnSetLockTargetState secured in
  desiredTarget (step sample_config st ev) <> desiredTarget st /\
  exists d, desiredTarget (step sample_config st ev) = Some d /\
            In (UpdateValue LockTargetStateC (Num d)) (output sample_config st ev).
Proof.
  cbv zeta.
  assert (Hne : desiredTarget (step sample_config (new_accessory sample_config)
                                 (OnSetLockTargetState secured))
                <> desiredTarget (new_accessory sample_config))
    by (vm_compute; discriminate).
  split; [exact Hne|].
  exact (proj2 (target_attribute_mirrors sample_config _ _) Hne).
Defined.
